(** * cppp: constrained perfect phylogeny — state, realization, cleanup,
      snapshot codec and decision-tree driver

    Shallow embedding of [src/perfect_phylogeny.c] and
    [src/decision_tree.c].  The C functions mutate a [state_s] through a
    pointer; here every function takes the pointed-to value and returns the
    new one.  A call that makes the process stop (a failed [assert], an
    igraph error, which igraph's default handler turns into [abort], or an
    access outside an array) returns [Abort] with the kind of failure.  The
    assertions are taken as compiled in: [build_json_state] and
    [write_state] do their work inside [assert]. *)

From stdpp Require Import base option list gmap strings sorting.
From Stdlib Require Import ZArith Lia.

Open Scope Z_scope.

(** ** Failure-aware results *)

Inductive failure : Set :=
  | AssertionFailure   (* an [assert] of the C code does not hold *)
  | IgraphError        (* an igraph call reports an error *)
  | OutOfBounds        (* an array is read or written outside its bounds *)
  | IOError.           (* a file is missing or has the wrong format *)

Inductive result (A : Type) : Type :=
  | Ok (a : A)
  | Abort (e : failure).
Arguments Ok {A} a.
Arguments Abort {A} e.

Global Instance result_bind : MBind result := λ A B f m,
  match m with
  | Ok a => f a
  | Abort e => Abort e
  end.
Global Instance result_ret : MRet result := λ A a, Ok a.

(** [assert(b)] *)
Definition assert (b : bool) : result unit :=
  if b then Ok tt else Abort AssertionFailure.

(** C-style [for (i = lo; i < lo + k; i++) body(i)] threading a value. *)
Fixpoint for_loop {A} (body : Z → A → result A) (lo : Z) (k : nat) (a : A)
  : result A :=
  match k with
  | O => Ok a
  | S k' => a' ← body lo a; for_loop body (lo + 1) k' a'
  end.

Definition for_range {A} (lo hi : Z) (body : Z → A → result A) (a : A)
  : result A :=
  for_loop body lo (Z.to_nat (hi - lo)) a.

(** ** Machine integers *)

(** [uint32_t] values are integers in [[0, 2^32)]; arithmetic wraps. *)
Definition u32 (z : Z) : Z := z mod 4294967296.

(** [-1] seen as a [uint32_t] (the removed marker of [current_states] and
    the exhausted level of the driver). *)
Definition MINUS_ONE : Z := 4294967295.

(** Conversion of a [uint32_t] to [igraph_integer_t] (a 32-bit [int]). *)
Definition to_igraph_integer (z : Z) : Z :=
  if z <? 2147483648 then z else z - 4294967296.

(** ** Arrays *)

Definition array_get (l : list Z) (i : Z) : result Z :=
  match l !! Z.to_nat i with
  | Some v => Ok v
  | None => Abort OutOfBounds
  end.

Definition array_set (l : list Z) (i : Z) (v : Z) : result (list Z) :=
  if decide (Z.to_nat i < length l)%nat
  then Ok (<[Z.to_nat i := v]> l)
  else Abort OutOfBounds.

(** The first [n] cells of an array, as the loops that walk an array up to a
    count stored elsewhere read them. *)
Definition array_prefix (l : list Z) (n : Z) : result (list Z) :=
  if decide (Z.to_nat n ≤ length l)%nat
  then Ok (take (Z.to_nat n) l)
  else Abort OutOfBounds.

(** Number of cells that are not [x]. *)
Definition count_ne (x : Z) (l : list Z) : Z :=
  Z.of_nat (length (filter (λ v, v ≠ x) l)).

(** ** The graph layer (igraph)

    The engine uses igraph only through the calls below.  A graph is its
    vertex count and its edge list in insertion order; vertex ids are
    [0 .. vcount-1]; the graphs are undirected and may hold parallel
    edges. *)

Record igraph_t := Igraph { vcount : Z; edges : list (Z * Z) }.

Definition valid_vertex (g : igraph_t) (v : Z) : bool :=
  (0 <=? v) && (v <? vcount g).

(** [igraph_empty(&g, n, IGRAPH_UNDIRECTED)] *)
Definition igraph_empty (n : Z) : result igraph_t :=
  if 0 <=? n then Ok (Igraph n []) else Abort IgraphError.

(** [igraph_add_edges(&g, &vec, 0)]: [vec] lists the endpoints pairwise. *)
Fixpoint pair_up (vec : list Z) : list (Z * Z) :=
  match vec with
  | a :: b :: rest => (a, b) :: pair_up rest
  | _ => []
  end.

Definition igraph_add_edges (g : igraph_t) (vec : list Z) : result igraph_t :=
  if Nat.even (length vec) && forallb (valid_vertex g) vec
  then Ok (Igraph (vcount g) (edges g ++ pair_up vec))
  else Abort IgraphError.

(** [igraph_add_edge(&g, from, to)] *)
Definition igraph_add_edge (g : igraph_t) (from to : Z) : result igraph_t :=
  igraph_add_edges g [from; to].

(** [igraph_copy(&to, &from)] *)
Definition igraph_copy (from : igraph_t) : igraph_t := from.

Definition incident (v : Z) (e : Z * Z) : bool :=
  (e.1 =? v) || (e.2 =? v).

(** The other endpoint(s) of [e] seen from [v]; a loop counts twice. *)
Definition other_ends (v : Z) (e : Z * Z) : list Z :=
  (if e.1 =? v then [e.2] else []) ++ (if e.2 =? v then [e.1] else []).

(** [igraph_vector_sort] *)
Definition igraph_vector_sort (l : list Z) : list Z := merge_sort Z.le l.

(** [igraph_neighbors(&g, &res, v, IGRAPH_ALL)]: the neighbours of [v],
    sorted by id, one entry per edge. *)
Definition igraph_neighbors (g : igraph_t) (v : Z) : result (list Z) :=
  if valid_vertex g v
  then Ok (igraph_vector_sort (flat_map (other_ends v) (edges g)))
  else Abort IgraphError.

Definition adjacentb (g : igraph_t) (u v : Z) : bool :=
  existsb (λ e, ((e.1 =? u) && (e.2 =? v)) || ((e.1 =? v) && (e.2 =? u)))
          (edges g).

(** One breadth-first layer: the vertices not yet seen that have a neighbour
    among the seen ones. *)
Definition bfs_layer (g : igraph_t) (seen : list Z) : list Z :=
  filter (λ u, (u ∉ seen) ∧ existsb (adjacentb g u) seen = true)
         (seqZ 0 (vcount g)).

Fixpoint bfs (g : igraph_t) (fuel : nat) (seen : list Z) : list Z :=
  match fuel with
  | O => seen
  | S f => bfs g f (seen ++ bfs_layer g seen)
  end.

(** [igraph_subcomponent(&g, &res, v, IGRAPH_ALL)]: the vertices reachable
    from [v], each once, in breadth-first order.  A graph on [n] vertices
    has no more than [n] layers. *)
Definition igraph_subcomponent (g : igraph_t) (v : Z) : result (list Z) :=
  if valid_vertex g v
  then Ok (bfs g (Z.to_nat (vcount g)) [v])
  else Abort IgraphError.

(** [igraph_vector_difference_sorted(&v1, &v2, &res)]: the entries of the
    sorted vector [v1] that do not occur in the sorted vector [v2]. *)
Definition igraph_vector_difference_sorted (v1 v2 : list Z) : list Z :=
  filter (λ x, x ∉ v2) v1.

(** [igraph_es_incident(&es, v, IGRAPH_ALL)] followed by
    [igraph_delete_edges(&g, es)]. *)
Definition igraph_delete_incident (g : igraph_t) (v : Z) : igraph_t :=
  Igraph (vcount g) (filter (λ e, incident v e = false) (edges g)).

(** [igraph_es_incident(&es, v, IGRAPH_ALL)] followed by
    [igraph_es_size(&g, &es, &size)]. *)
Definition igraph_incident_size (g : igraph_t) (v : Z) : result Z :=
  if valid_vertex g v
  then Ok (Z.of_nat (length (flat_map (other_ends v) (edges g))))
  else Abort IgraphError.

(** ** The state *)

(** Modelled from the spec: the header [perfect_phylogeny.h], which defines
    the colour macros, is not among the sources.  Section 3.1 of the
    specification lists the colours as BLACK, RED and RED+1; the numbers
    follow the source, whose [characters_list] ranges the colours over
    [1 .. MAX_COLOR].  The proofs use only that the three are distinct. *)
Definition BLACK : Z := 1.
Definition RED : Z := 2.

(** [state_s].  [matrix] is a pointer that may be [NULL]; the two lists are
    [GSList*], with [NULL] the empty list. *)
Record state_s := State {
  num_species_orig : Z;
  num_characters_orig : Z;
  num_species : Z;
  num_characters : Z;
  matrix : option (list Z);
  current_states : list Z;
  species : list Z;
  characters : list Z;
  colors : list Z;
  operation : Z;
  realize : Z;
  realized_char : Z;
  tried_characters : list Z;
  character_queue : list Z;
  red_black : igraph_t;
  conflict : igraph_t
}.

Definition set_num_species (v : Z) (s : state_s) : state_s :=
  State (num_species_orig s) (num_characters_orig s) v (num_characters s)
    (matrix s) (current_states s) (species s) (characters s) (colors s)
    (operation s) (realize s) (realized_char s) (tried_characters s)
    (character_queue s) (red_black s) (conflict s).
Definition set_num_characters (v : Z) (s : state_s) : state_s :=
  State (num_species_orig s) (num_characters_orig s) (num_species s) v
    (matrix s) (current_states s) (species s) (characters s) (colors s)
    (operation s) (realize s) (realized_char s) (tried_characters s)
    (character_queue s) (red_black s) (conflict s).
Definition set_matrix (v : option (list Z)) (s : state_s) : state_s :=
  State (num_species_orig s) (num_characters_orig s) (num_species s)
    (num_characters s) v (current_states s) (species s) (characters s)
    (colors s) (operation s) (realize s) (realized_char s)
    (tried_characters s) (character_queue s) (red_black s) (conflict s).
Definition set_current_states (v : list Z) (s : state_s) : state_s :=
  State (num_species_orig s) (num_characters_orig s) (num_species s)
    (num_characters s) (matrix s) v (species s) (characters s) (colors s)
    (operation s) (realize s) (realized_char s) (tried_characters s)
    (character_queue s) (red_black s) (conflict s).
Definition set_species (v : list Z) (s : state_s) : state_s :=
  State (num_species_orig s) (num_characters_orig s) (num_species s)
    (num_characters s) (matrix s) (current_states s) v (characters s)
    (colors s) (operation s) (realize s) (realized_char s)
    (tried_characters s) (character_queue s) (red_black s) (conflict s).
Definition set_characters (v : list Z) (s : state_s) : state_s :=
  State (num_species_orig s) (num_characters_orig s) (num_species s)
    (num_characters s) (matrix s) (current_states s) (species s) v
    (colors s) (operation s) (realize s) (realized_char s)
    (tried_characters s) (character_queue s) (red_black s) (conflict s).
Definition set_colors (v : list Z) (s : state_s) : state_s :=
  State (num_species_orig s) (num_characters_orig s) (num_species s)
    (num_characters s) (matrix s) (current_states s) (species s)
    (characters s) v (operation s) (realize s) (realized_char s)
    (tried_characters s) (character_queue s) (red_black s) (conflict s).
Definition set_operation (v : Z) (s : state_s) : state_s :=
  State (num_species_orig s) (num_characters_orig s) (num_species s)
    (num_characters s) (matrix s) (current_states s) (species s)
    (characters s) (colors s) v (realize s) (realized_char s)
    (tried_characters s) (character_queue s) (red_black s) (conflict s).
Definition set_realize (v : Z) (s : state_s) : state_s :=
  State (num_species_orig s) (num_characters_orig s) (num_species s)
    (num_characters s) (matrix s) (current_states s) (species s)
    (characters s) (colors s) (operation s) v (realized_char s)
    (tried_characters s) (character_queue s) (red_black s) (conflict s).
Definition set_tried_characters (v : list Z) (s : state_s) : state_s :=
  State (num_species_orig s) (num_characters_orig s) (num_species s)
    (num_characters s) (matrix s) (current_states s) (species s)
    (characters s) (colors s) (operation s) (realize s) (realized_char s)
    v (character_queue s) (red_black s) (conflict s).
Definition set_character_queue (v : list Z) (s : state_s) : state_s :=
  State (num_species_orig s) (num_characters_orig s) (num_species s)
    (num_characters s) (matrix s) (current_states s) (species s)
    (characters s) (colors s) (operation s) (realize s) (realized_char s)
    (tried_characters s) v (red_black s) (conflict s).
Definition set_red_black (v : igraph_t) (s : state_s) : state_s :=
  State (num_species_orig s) (num_characters_orig s) (num_species s)
    (num_characters s) (matrix s) (current_states s) (species s)
    (characters s) (colors s) (operation s) (realize s) (realized_char s)
    (tried_characters s) (character_queue s) v (conflict s).
Definition set_conflict (v : igraph_t) (s : state_s) : state_s :=
  State (num_species_orig s) (num_characters_orig s) (num_species s)
    (num_characters s) (matrix s) (current_states s) (species s)
    (characters s) (colors s) (operation s) (realize s) (realized_char s)
    (tried_characters s) (character_queue s) (red_black s) v.

(** [init_state(stp, nspecies, nchars)].  The fields [matrix] and
    [realized_char] are not assigned and keep what [*stp] held. *)
Definition init_state (stp : state_s) (nspecies nchars : Z) : result state_s :=
  rb ← igraph_empty (to_igraph_integer (u32 (nspecies + nchars)));
  cg ← igraph_empty (to_igraph_integer nchars);
  mret {|
    num_species_orig := nspecies;
    num_characters_orig := nchars;
    num_species := nspecies;
    num_characters := nchars;
    matrix := matrix stp;
    current_states := replicate (Z.to_nat nchars) 0;
    species := replicate (Z.to_nat nspecies) 1;
    characters := replicate (Z.to_nat nchars) 1;
    colors := replicate (Z.to_nat nchars) BLACK;
    operation := 0;
    realize := 0;
    realized_char := realized_char stp;
    tried_characters := [];
    character_queue := [];
    red_black := rb;
    conflict := cg
  |}.

(** [check_state(stp)]: a bit mask of the violated counting invariants. *)
Definition check_state (stp : state_s) : result Z :=
  sp ← array_prefix (species stp) (num_species_orig stp);
  ch ← array_prefix (characters stp) (num_characters_orig stp);
  cs ← array_prefix (current_states stp) (num_characters_orig stp);
  mret ((if (num_species stp =? MINUS_ONE)
            || (num_species_orig stp <? num_species stp) then 1 else 0)
        + (if (num_characters stp =? MINUS_ONE)
            || (num_characters_orig stp <? num_characters stp) then 2 else 0)
        + (if count_ne 0 sp =? num_species stp then 0 else 4)
        + (if count_ne 0 ch =? num_characters stp then 0 else 8)
        + (if count_ne MINUS_ONE cs =? num_characters stp then 0 else 16)).

(** [assert(check_state(stp) == 0)] *)
Definition assert_check_state (stp : state_s) : result unit :=
  err ← check_state stp; assert (err =? 0).

(** [state_cmp(stp1, stp2)]; the arrays are never [NULL] once [init_state]
    has run. *)
Definition state_cmp (stp1 stp2 : state_s) : result Z :=
  cs1 ← array_prefix (current_states stp1) (num_characters_orig stp2);
  cs2 ← array_prefix (current_states stp2) (num_characters_orig stp2);
  sp1 ← array_prefix (species stp1) (num_species_orig stp2);
  sp2 ← array_prefix (species stp2) (num_species_orig stp2);
  ch1 ← array_prefix (characters stp1) (num_characters_orig stp2);
  ch2 ← array_prefix (characters stp2) (num_characters_orig stp2);
  mret ((if num_characters stp1 =? num_characters stp2 then 0 else 1)
        + (if num_species stp1 =? num_species stp2 then 0 else 2)
        + (if num_characters_orig stp1 =? num_characters_orig stp2
           then 0 else 4)
        + (if num_species_orig stp1 =? num_species_orig stp2 then 0 else 8)
        + (if bool_decide (cs1 = cs2) then 0 else 16)
        + (if bool_decide (sp1 = sp2) then 0 else 32)
        + (if bool_decide (ch1 = ch2) then 0 else 64)).

(** [copy_state(dst, src)].  The copy loops fill the freshly allocated
    arrays of [dst] with the first [num_characters_orig] (resp.
    [num_species_orig]) cells of the arrays of [src]. *)
Definition copy_state (dst src : state_s) : result state_s :=
  assert_check_state src;;
  dst ← init_state dst (num_species_orig src) (num_characters_orig src);
  cs ← array_prefix (current_states src) (num_characters_orig src);
  ch ← array_prefix (characters src) (num_characters_orig src);
  co ← array_prefix (colors src) (num_characters_orig src);
  sp ← array_prefix (species src) (num_species_orig src);
  let dst := {|
    num_species_orig := num_species_orig dst;
    num_characters_orig := num_characters_orig dst;
    num_species := num_species src;
    num_characters := num_characters src;
    matrix := matrix src;
    current_states := cs;
    species := sp;
    characters := ch;
    colors := co;
    operation := operation src;
    realize := realize src;
    realized_char := realized_char dst;
    tried_characters := [];
    character_queue := [];
    red_black := igraph_copy (red_black src);
    conflict := igraph_copy (conflict src)
  |} in
  assert_check_state dst;;
  err ← state_cmp dst src;
  assert (err =? 0);;
  mret dst.

(** [full_copy_state(dst, src)] *)
Definition full_copy_state (dst src : state_s) : result state_s :=
  dst ← copy_state dst src;
  mret (set_tried_characters (tried_characters src)
          (set_character_queue (character_queue src) dst)).

(** [delete_species(stp, s)] *)
Definition delete_species (stp : state_s) (s : Z) : result state_s :=
  assert (s <? num_species_orig stp);;
  v ← array_get (species stp) s;
  assert (0 <? v);;
  sp ← array_set (species stp) s 0;
  mret (set_num_species (u32 (num_species stp - 1)) (set_species sp stp)).

(** [delete_character(stp, c)] *)
Definition delete_character (stp : state_s) (c : Z) : result state_s :=
  assert (c <? num_characters_orig stp);;
  v ← array_get (characters stp) c;
  assert (0 <? v);;
  cur ← array_get (current_states stp) c;
  assert (negb (cur =? MINUS_ONE));;
  ch ← array_set (characters stp) c 0;
  cs ← array_set (current_states stp) c MINUS_ONE;
  mret (set_num_characters (u32 (num_characters stp - 1))
          (set_current_states cs (set_characters ch stp))).

(** The vertex of the red-black graph that stands for character [c]. *)
Definition character_vertex (stp : state_s) (c : Z) : Z :=
  to_igraph_integer (u32 (num_species_orig stp + c)).

(** Body of the first loop of [cleanup]. *)
Definition cleanup_species_body (s : Z) (stp : state_s) : result state_s :=
  v ← array_get (species stp) s;
  if v =? 0 then mret stp
  else
    size ← igraph_incident_size (red_black stp) s;
    if size =? 0 then delete_species stp s else mret stp.

(** Body of the second loop of [cleanup]. *)
Definition cleanup_characters_body (c : Z) (stp : state_s) : result state_s :=
  v ← array_get (characters stp) c;
  if v =? 0 then mret stp
  else
    size ← igraph_incident_size (red_black stp) (character_vertex stp c);
    if size =? 0 then delete_character stp c else mret stp.

(** [cleanup(stp)] *)
Definition cleanup (stp : state_s) : result state_s :=
  stp ← for_range 0 (num_species_orig stp) cleanup_species_body stp;
  for_range 0 (num_characters_orig stp) cleanup_characters_body stp.

(** ** The realization operator *)

(** The loop of [realize_character] over [temp]: the species among the
    vertices of the component that are not adjacent to [c].  ([v != c]
    compares the vertex, a [uint32_t], with [c], which is a valid vertex id
    at that point.) *)
Definition not_adjacent_species (n0 c : Z) (temp : list Z) : list Z :=
  filter (λ v, v < n0 ∧ v ≠ c) temp.

(** The endpoint vector [new_red] built by the same loop. *)
Definition new_red_edges (c : Z) (not_adjacent : list Z) : list Z :=
  flat_map (λ v, [c; v]) not_adjacent.

(** The block guarded by [color == BLACK]. *)
Definition realize_black (dst : state_s) (character : Z) (new_red : list Z)
  : result state_s :=
  rb ← igraph_add_edges (red_black dst) new_red;
  co ← array_set (colors dst) character RED;
  cs ← array_set (current_states dst) character 1;
  mret (set_current_states cs (set_colors co
          (set_operation 1 (set_red_black rb dst)))).

(** The block guarded by [color == RED]: [inl] is the early [return false],
    [inr] falls through to the end of the function. *)
Definition realize_red (dst : state_s) (character : Z)
    (not_adjacent : list Z) : result (state_s + state_s) :=
  if (0 <? Z.of_nat (length not_adjacent))
  then mret (inl (set_operation 0 dst))
  else
    co ← array_set (colors dst) character (RED + 1);
    dst ← delete_character (set_colors co (set_operation 2 dst)) character;
    mret (inr dst).

(** [realize_character(dst, src)] *)
Definition realize_character (dst src : state_s) : result (bool * state_s) :=
  dst ← copy_state dst src;
  err ← state_cmp src dst;
  assert (err =? 0);;
  assert_check_state src;;
  let character := realize src in
  assert_check_state dst;;
  let c := character_vertex src character in
  color ← array_get (colors src) character;
  conn_comp ← igraph_subcomponent (red_black dst) c;
  let conn_comp := igraph_vector_sort conn_comp in
  adjacent ← igraph_neighbors (red_black dst) c;
  let temp := igraph_vector_difference_sorted conn_comp adjacent in
  let not_adjacent := not_adjacent_species (num_species_orig dst) c temp in
  let new_red := new_red_edges c not_adjacent in
  let dst := set_red_black (igraph_delete_incident (red_black dst) c) dst in
  assert_check_state dst;;
  dst ← (if color =? BLACK then realize_black dst character new_red
         else mret dst);
  r ← (if color =? RED then realize_red dst character not_adjacent
       else mret (inr dst));
  match r with
  | inl dst => mret (false, dst)
  | inr dst =>
      let dst := set_realize character dst in
      assert_check_state dst;;
      dst ← cleanup dst;
      assert_check_state dst;;
      mret (true, dst)
  end.

(** ** The instance loader *)

(** A stream of integers open for reading: the integers that are still to
    be read, and whether white space follows the last integer of the
    file. *)
Record text_stream := Stream {
  pending : list Z;
  padded : bool
}.

(** [instances_schema_s].  [file] is the open stream ([None] for a [NULL]
    stream). *)
Record instances_schema_s := Schema {
  file : option text_stream;
  filename : string;
  schema_num_species : Z;
  schema_num_characters : Z
}.

(** [matrix_get_value] and [matrix_set_value] *)
Definition matrix_get_value (stp : state_s) (species character : Z)
  : result Z :=
  match matrix stp with
  | Some mx => array_get mx (u32 (character + num_characters stp * species))
  | None => Abort OutOfBounds
  end.

Definition matrix_set_value (stp : state_s) (species character value : Z)
  : result state_s :=
  match matrix stp with
  | Some mx =>
      mx ← array_set mx (u32 (character + num_characters stp * species)) value;
      mret (set_matrix (Some mx) stp)
  | None => Abort OutOfBounds
  end.

(** ** Files *)

(** JSON values (jansson's [json_t]); an object is a finite map from keys
    to values. *)
Inductive json_t :=
  | JInteger (z : Z)
  | JString (s : string)
  | JArray (l : list json_t).

(** What a file holds: the integers of an instance file, a JSON document,
    or a graph in GraphML. *)
Inductive file_content :=
  | TextFile (text : text_stream)
  | JsonFile (doc : gmap string json_t)
  | GraphmlFile (g : igraph_t).

(** One formatted read of an unsigned integer into a [uint32_t]: the
    value, reduced to 32 bits, and the stream after it, or [None] when no
    integer is left ([fscanf] returns [EOF]). *)
Definition fscanf_u32 (stream : text_stream) : option (Z * text_stream) :=
  match pending stream with
  | [] => None
  | x :: rest => Some (u32 x, Stream rest (padded stream))
  end.

(** [feof] right after a successful read.  The digits of an integer are
    read up to the first character that is not a digit: the end-of-file
    indicator is set when the integer was the last one of the file and no
    white space follows it. *)
Definition feof (stream : text_stream) : bool :=
  match pending stream with
  | [] => negb (padded stream)
  | _ :: _ => false
  end.

(** The state of the loop that fills the matrix: the stream, the state
    under construction, and whether the loop has left through
    [return false]. *)
Record fill_state := Fill {
  fill_stream : text_stream;
  fill_stp : state_s;
  fill_eof : bool
}.

Definition fill_body (s c : Z) (st : fill_state) : result fill_state :=
  if fill_eof st then mret st
  else
    match fscanf_u32 (fill_stream st) with
    | None =>
        assert ((s =? 0) && (c =? 0));;
        mret (Fill (fill_stream st) (fill_stp st) true)
    | Some (x, rest) =>
        if feof rest then mret (Fill rest (fill_stp st) true)
        else
          stp ← matrix_set_value (fill_stp st) s c x;
          mret (Fill rest stp false)
    end.

Definition red_black_body (s c : Z) (stp : state_s) : result state_s :=
  v ← matrix_get_value stp s c;
  if v =? 1 then
    rb ← igraph_add_edge (red_black stp) s
           (to_igraph_integer (u32 (c + num_species stp)));
    mret (set_red_black rb stp)
  else mret stp.

(** The innermost loop of the conflict graph construction: [states] is the
    2x2 table, row-major. *)
Definition conflict_states_body (stp : state_s) (c1 c2 s : Z)
    (states : list Z) : result (list Z) :=
  a ← matrix_get_value stp s c1;
  b ← matrix_get_value stp s c2;
  if (a <? 2) && (b <? 2) then array_set states (2 * a + b) 1
  else Abort OutOfBounds.

Definition conflict_body (c1 c2 : Z) (stp : state_s) : result state_s :=
  states ← for_range 0 (num_species stp) (conflict_states_body stp c1 c2)
             [0; 0; 0; 0];
  if foldr Z.add 0 states =? 4 then
    cg ← igraph_add_edge (conflict stp) c1 c2;
    mret (set_conflict cg stp)
  else mret stp.

(** [read_instance_from_filename(global_props, stp)] *)
Definition read_instance_from_filename (fs : gmap string file_content)
    (global_props : instances_schema_s) (stp : state_s)
  : result (instances_schema_s * bool * state_s) :=
  global_props ←
    match file global_props with
    | Some _ => mret global_props
    | None =>
        match fs !! filename global_props with
        | Some (TextFile text) =>
            match pending text with
            | [] => Abort AssertionFailure
            | [n] =>
                mret (Schema (Some (Stream [] (padded text)))
                        (filename global_props) (u32 n)
                        (schema_num_characters global_props))
            | n :: m :: rest =>
                mret (Schema (Some (Stream rest (padded text)))
                        (filename global_props) (u32 n) (u32 m))
            end
        | _ => Abort AssertionFailure
        end
    end;
  let n := schema_num_species global_props in
  let m := schema_num_characters global_props in
  stp ← init_state stp n m;
  let stp := set_num_characters m (set_num_species n stp) in
  let stp := set_matrix (Some (replicate (Z.to_nat (u32 (n * m))) 0)) stp in
  st ← for_range 0 (num_species stp) (λ s st,
          for_range 0 (num_characters stp) (λ c st, fill_body s c st) st)
        (Fill (default (Stream [] false) (file global_props)) stp false);
  let global_props := Schema (Some (fill_stream st)) (filename global_props)
                        n m in
  if fill_eof st then mret (global_props, false, fill_stp st)
  else
    let stp := fill_stp st in
    stp ← for_range 0 (num_species stp) (λ s stp,
             for_range 0 (num_characters stp) (λ c stp,
               red_black_body s c stp) stp) stp;
    stp ← for_range 0 (num_characters stp) (λ c1 stp,
             for_range (c1 + 1) (num_characters stp) (λ c2 stp,
               conflict_body c1 c2 stp) stp) stp;
    assert_check_state stp;;
    mret (global_props, true, stp).

(** ** The snapshot codec *)

Definition json_integer_value (j : json_t) : Z :=
  match j with
  | JInteger z => z
  | _ => 0
  end.

(** Conversion to a [gint], as [GPOINTER_TO_INT] performs it. *)
Definition to_gint (z : Z) : Z := to_igraph_integer (u32 z).

Definition json_array2gslist (array : list json_t) : list Z :=
  map (λ v, to_gint (json_integer_value v)) array.

Definition json_array2array (array : list json_t) : list Z :=
  map (λ v, u32 (json_integer_value v)) array.

Definition json_get_integer (root : gmap string json_t) (field : string)
  : result Z :=
  match root !! field with
  | Some (JInteger z) => mret (u32 z)
  | _ => Abort AssertionFailure
  end.

Definition json_get_string (root : gmap string json_t) (field : string)
  : result string :=
  match root !! field with
  | Some (JString s) => mret s
  | _ => Abort AssertionFailure
  end.

Definition json_get_array (root : gmap string json_t) (field : string)
  : result (list Z) :=
  match root !! field with
  | Some (JArray l) => mret (json_array2array l)
  | _ => Abort AssertionFailure
  end.

Definition json_get_list (root : gmap string json_t) (field : string)
    (optional : bool) : result (list Z) :=
  if negb optional then
    match root !! field with
    | Some (JArray l) => mret (json_array2gslist l)
    | _ => Abort AssertionFailure
    end
  else mret [].

(** [fopen(name, "r")] followed by [igraph_read_graph_graphml]. *)
Definition read_graphml (fs : gmap string file_content) (name : string)
  : result igraph_t :=
  match fs !! name with
  | None => Abort AssertionFailure
  | Some (GraphmlFile g) => mret g
  | Some _ => Abort IgraphError
  end.

(** [read_state(filename, stp)] *)
Definition read_state (fs : gmap string file_content) (filename : string)
    (stp : state_s) : result state_s :=
  data ← match fs !! filename with
         | Some (JsonFile d) => mret d
         | _ => Abort AssertionFailure
         end;
  n0 ← json_get_integer data "num_species_orig";
  m0 ← json_get_integer data "num_characters_orig";
  stp ← init_state stp n0 m0;
  rz ← json_get_integer data "realize";
  let stp := set_realize rz stp in
  tried ← json_get_list data "tried_characters" true;
  let stp := set_tried_characters tried stp in
  queue ← json_get_list data "character_queue" true;
  let stp := set_character_queue queue stp in
  n ← json_get_integer data "num_species";
  let stp := set_num_species n stp in
  m ← json_get_integer data "num_characters";
  let stp := set_num_characters m stp in
  cur ← json_get_array data "current";
  let stp := set_current_states cur stp in
  sp ← json_get_array data "species";
  let stp := set_species sp stp in
  ch ← json_get_array data "characters";
  let stp := set_characters ch stp in
  rbf ← json_get_string data "red_black_file";
  rb ← read_graphml fs rbf;
  let stp := set_red_black rb stp in
  cf ← json_get_string data "conflict_file";
  cg ← read_graphml fs cf;
  let stp := set_conflict cg stp in
  assert_check_state stp;;
  mret stp.

Definition gslist2json_array (l : list Z) : json_t :=
  JArray (map JInteger l).

Definition array2json_array (p : list Z) (size : Z) : result json_t :=
  cells ← array_prefix p size;
  mret (JArray (map JInteger cells)).

(** [build_json_state(stp, redblack_filename, conflict_filename)] *)
Definition build_json_state (stp : state_s)
    (redblack_filename conflict_filename : string)
  : result (gmap string json_t) :=
  assert_check_state stp;;
  let data : gmap string json_t := ∅ in
  let data := <["realize" := JInteger (realize stp)]> data in
  let data := <["tried_characters" :=
                  gslist2json_array (tried_characters stp)]> data in
  let data := <["character_queue" :=
                  gslist2json_array (character_queue stp)]> data in
  let data := <["num_species" := JInteger (num_species stp)]> data in
  let data := <["num_characters" := JInteger (num_characters stp)]> data in
  let data := <["num_species_orig" :=
                  JInteger (num_species_orig stp)]> data in
  let data := <["num_characters_orig" :=
                  JInteger (num_characters_orig stp)]> data in
  data ← match matrix stp with
         | Some mx =>
             arr ← array2json_array mx
                     (u32 (num_species stp * num_characters stp));
             mret (<["matrix" := arr]> data)
         | None => mret data
         end;
  arr ← array2json_array (current_states stp) (num_characters_orig stp);
  let data := <["current" := arr]> data in
  arr ← array2json_array (species stp) (num_species_orig stp);
  let data := <["species" := arr]> data in
  arr ← array2json_array (characters stp) (num_characters_orig stp);
  let data := <["characters" := arr]> data in
  let data := <["red_black_file" := JString redblack_filename]> data in
  let data := <["conflict_file" := JString conflict_filename]> data in
  mret data.

(** [write_state(filename, stp)] *)
Definition write_state (fs : gmap string file_content) (filename : string)
    (stp : state_s) : result (gmap string file_content) :=
  let rb_filename := (filename +:+ "-redblack.graphml")%string in
  let fs := <[rb_filename := GraphmlFile (red_black stp)]> fs in
  let c_filename := (filename +:+ "-conflict.graphml")%string in
  let fs := <[c_filename := GraphmlFile (conflict stp)]> fs in
  assert_check_state stp;;
  data ← build_json_state stp rb_filename c_filename;
  mret (<[filename := JsonFile data]> fs).

(** ** The decision-tree driver *)

(** What [exhaustive_search] prints: either "Solution found" followed by
    the lines "Character i: v", or "END". *)
Inductive search_report :=
  | SolutionFound (lines : list (Z * Z))
  | SearchEnd.

Section Driver.

(** The struct returned by [new_state()], whose definition is not part of
    the sources; [realize_character] overwrites all of it but
    [realized_char]. *)
Variable new_state : state_s.

(** A slot of the array of states. *)
Definition slot_get (states : list state_s) (level : Z) : result state_s :=
  match states !! Z.to_nat level with
  | Some st => Ok st
  | None => Abort OutOfBounds
  end.

Definition slot_set (states : list state_s) (level : Z) (st : state_s)
  : list state_s :=
  <[Z.to_nat level := st]> states.

Definition no_sibling_p (stp : state_s) : bool :=
  bool_decide (character_queue stp = []).

(** [next_node(states, level, node_init)].  The call
    [realize_character(modified, current, to_realize)] passes the
    character as a third argument, while the function reads it from
    [src->realize]: the source given to the operator is [current] with
    [realize] set to [to_realize]. *)
Definition next_node (states : list state_s) (level : Z)
    (node_init : state_s → list Z) : result (list state_s * Z) :=
  current ← slot_get states level;
  let current :=
    if bool_decide (tried_characters current = []) && no_sibling_p current
    then set_character_queue (node_init current) current
    else current in
  if no_sibling_p current
  then mret (slot_set states level current, u32 (level - 1))
  else
    let to_realize := u32 (to_gint (hd 0 (character_queue current))) in
    let current := set_character_queue (tl (character_queue current))
                     current in
    let current := set_tried_characters
                     (realized_char current :: tried_characters current)
                     current in
    let states := slot_set states level current in
    r ← realize_character new_state (set_realize to_realize current);
    let modified := r.2 in
    if 0 <? operation modified then
      next ← slot_get states (level + 1);
      next ← copy_state next modified;
      let next := set_tried_characters [] (set_character_queue [] next) in
      mret (slot_set states (level + 1) next, u32 (level + 1))
    else mret (states, level).

(** The lines printed once a solution is found at [level]. *)
Definition solution_lines (states : list state_s) (level : Z)
  : result (list (Z * Z)) :=
  for_range 0 (level + 1) (λ i out,
      st ← slot_get states level;
      mret (out ++ [(i, realized_char st)])) [].

(** The loop of [exhaustive_search]: the array of states as the search
    leaves it, and what is printed; [None] when the fuel runs out. *)
Fixpoint search_loop (fuel : nat) (states : list state_s) (level : Z)
    (strategy : state_s → list Z)
  : result (option (list state_s * search_report)) :=
  match fuel with
  | O => mret None
  | S fuel =>
      if level =? MINUS_ONE then mret (Some (states, SearchEnd))
      else
        st ← slot_get states level;
        st ← cleanup st;
        let states := slot_set states level st in
        if num_species st =? 0 then
          lines ← solution_lines states level;
          mret (Some (states, SolutionFound lines))
        else
          r ← next_node states level strategy;
          search_loop fuel r.1 r.2 strategy
  end.

(** [exhaustive_search(states, strategy)] *)
Definition exhaustive_search (fuel : nat) (states : list state_s)
    (strategy : state_s → list Z)
  : result (option (list state_s * search_report)) :=
  r ← next_node states 0 strategy;
  search_loop fuel r.1 r.2 strategy.

End Driver.

(** The strategy "all active characters in index order". *)
Definition natural_order (stp : state_s) : list Z :=
  filter (λ c, characters stp !! Z.to_nat c ≠ Some 0 )
         (seqZ 0 (num_characters_orig stp)).

(** ** Replay mode of [main] *)

(** The branch [test_type == 1] of [main]: load the input snapshot, realize
    the listed characters in order (or clean up when the list is empty),
    and write the result. *)
Definition replay (fs : gmap string file_content) (input output : string)
    (listc : list json_t) (st st2 : state_s)
  : result (gmap string file_content) :=
  stp ← read_state fs input st;
  assert_check_state stp;;
  stp ← (if 0 <? Z.of_nat (length listc) then
           foldl (λ acc value,
                    stp ← acc;
                    let stp := set_realize (u32 (json_integer_value value))
                                 stp in
                    r ← realize_character st2 stp;
                    stp ← copy_state stp r.2;
                    assert_check_state stp;;
                    mret stp) (mret stp) listc
         else cleanup stp);
  assert_check_state stp;;
  write_state fs output stp.

(** ** Worked instances *)

(** An all-zero struct, as [GC_MALLOC] hands it out. *)
Definition zero_state : state_s :=
  State 0 0 0 0 None [] [] [] [] 0 0 0 [] [] (Igraph 0 []) (Igraph 0 []).

(** A file system that holds one instance file, whose text ends with a
    newline. *)
Definition instance_fs (tokens : list Z) : gmap string file_content :=
  {[ "instance.txt"%string := TextFile (Stream tokens true) ]}.

Definition load_instance (tokens : list Z) : result state_s :=
  r ← read_instance_from_filename (instance_fs tokens)
         (Schema None "instance.txt" 0 0) zero_state;
  mret r.2.

(** Realize character [c] on [src], into a fresh struct. *)
Definition realize_on (c : Z) (src : state_s) : result (bool * state_s) :=
  realize_character zero_state (set_realize c src).

(** * Specification vocabulary *)

(** A character is inactive exactly when its current state is the removed
    marker. *)
Definition active_agree (x y : Z) : Prop := x = 0 ↔ y = MINUS_ONE.

(** The values a [uint32_t] cell can hold. *)
Definition is_u32 (v : Z) : Prop := 0 ≤ v < 4294967296.

(** The states the engine works on: the arrays have the sizes announced by
    the original counts, the red-black graph has one vertex per species and
    per character, the active counts are the numbers of non-zero flags, the
    cells hold [uint32_t] values, and the activity flag of a character
    agrees with its current state. *)
Definition wf_state (S : state_s) : Prop :=
  0 ≤ num_species_orig S ∧
  0 ≤ num_characters_orig S ∧
  num_species_orig S + num_characters_orig S < 2147483648 ∧
  length (species S) = Z.to_nat (num_species_orig S) ∧
  length (colors S) = Z.to_nat (num_characters_orig S) ∧
  length (characters S) = Z.to_nat (num_characters_orig S) ∧
  vcount (red_black S) = num_species_orig S + num_characters_orig S ∧
  count_ne 0 (species S) = num_species S ∧
  count_ne 0 (characters S) = num_characters S ∧
  Forall is_u32 (species S) ∧
  Forall is_u32 (characters S) ∧
  Forall is_u32 (current_states S) ∧
  Forall2 active_agree (characters S) (current_states S).

Global Instance active_agree_dec x y : Decision (active_agree x y).
Proof. unfold active_agree. apply _. Defined.

Global Instance is_u32_dec v : Decision (is_u32 v).
Proof. unfold is_u32. apply _. Defined.

Global Instance wf_state_dec S : Decision (wf_state S).
Proof. unfold wf_state. apply _. Defined.

(** The struct [copy_state(dst, src)] leaves in [*dst]. *)
Definition copied (dst src : state_s) : state_s :=
  State (num_species_orig src) (num_characters_orig src) (num_species src)
    (num_characters src) (matrix src) (current_states src) (species src)
    (characters src) (colors src) (operation src) (realize src)
    (realized_char dst) [] [] (red_black src) (conflict src).

(** No edge of [g] touches [v]. *)
Definition isolated (g : igraph_t) (v : Z) : Prop :=
  flat_map (other_ends v) (edges g) = [].

Global Instance isolated_dec g v : Decision (isolated g v).
Proof. unfold isolated. apply _. Defined.

(** [mark bound iso x l]: the array [l] in which the cells at the indices
    below [bound] that satisfy [iso] hold [x]. *)
Definition mark (bound : Z) (iso : Z → Prop) `{!∀ z, Decision (iso z)}
    (x : Z) (l : list Z) : list Z :=
  imap (λ i v, if decide (Z.of_nat i < bound ∧ iso (Z.of_nat i))
               then x else v) l.

Definition species_isolated (S : state_s) (s : Z) : Prop :=
  isolated (red_black S) s.
Definition character_isolated (S : state_s) (c : Z) : Prop :=
  isolated (red_black S) (num_species_orig S + c).

Global Instance species_isolated_dec S s : Decision (species_isolated S s).
Proof. unfold species_isolated. apply _. Defined.
Global Instance character_isolated_dec S c :
  Decision (character_isolated S c).
Proof. unfold character_isolated. apply _. Defined.

(** The state [cleanup] leaves behind, in closed form: every isolated
    species and character is inactive, and the counts follow. *)
Definition cleaned (S : state_s) : state_s :=
  let sp := mark (num_species_orig S) (species_isolated S) 0 (species S) in
  let ch := mark (num_characters_orig S) (character_isolated S) 0
              (characters S) in
  let cs := mark (num_characters_orig S) (character_isolated S) MINUS_ONE
              (current_states S) in
  State (num_species_orig S) (num_characters_orig S) (count_ne 0 sp)
    (count_ne 0 ch) (matrix S) cs sp ch (colors S) (operation S) (realize S)
    (realized_char S) (tried_characters S) (character_queue S) (red_black S)
    (conflict S).



(** The sorted connected component of the vertex of character [c]. *)
Definition component_of (S : state_s) (c : Z) : list Z :=
  igraph_vector_sort
    (bfs (red_black S) (Z.to_nat (vcount (red_black S)))
       [num_species_orig S + c]).

(** The sorted neighbours of the vertex of character [c]. *)
Definition neighbours_of (S : state_s) (c : Z) : list Z :=
  igraph_vector_sort
    (flat_map (other_ends (num_species_orig S + c)) (edges (red_black S))).

(** The set [D] of the operator: the species of the component of character
    [c] that are not adjacent to its vertex. *)
Definition D_of (S : state_s) (c : Z) : list Z :=
  not_adjacent_species (num_species_orig S) (num_species_orig S + c)
    (igraph_vector_difference_sorted (component_of S c) (neighbours_of S c)).

(** The child right after the edges at the vertex of [c] are deleted. *)
Definition detached (dst S : state_s) : state_s :=
  set_red_black
    (igraph_delete_incident (red_black S)
       (num_species_orig S + realize S))
    (copied dst S).

(** The rest of [realize_character] once the component, the neighbours and
    [D] are known. *)
Definition realize_tail (dst : state_s) (character color v : Z)
    (D : list Z) : result (bool * state_s) :=
  dst ← (if color =? BLACK
         then realize_black dst character (new_red_edges v D)
         else mret dst);
  r ← (if color =? RED then realize_red dst character D
       else mret (inr dst));
  match r with
  | inl dst => mret (false, dst)
  | inr dst =>
      let dst := set_realize character dst in
      assert_check_state dst;;
      dst ← cleanup dst;
      assert_check_state dst;;
      mret (true, dst)
  end.

(** The child of an accepted BLACK realization, before [cleanup]. *)
Definition black_child (dst S : state_s) : state_s :=
  let c := realize S in
  let v := num_species_orig S + c in
  State (num_species_orig S) (num_characters_orig S) (num_species S)
    (num_characters S) (matrix S)
    (<[Z.to_nat c := 1]> (current_states S)) (species S) (characters S)
    (<[Z.to_nat c := RED]> (colors S)) 1 c (realized_char dst) [] []
    (Igraph (vcount (red_black S))
       (edges (igraph_delete_incident (red_black S) v)
        ++ map (λ u, (v, u)) (D_of S c)))
    (conflict S).

(** The child of an accepted removal, before [cleanup]. *)
Definition red_child (dst S : state_s) : state_s :=
  let c := realize S in
  let v := num_species_orig S + c in
  State (num_species_orig S) (num_characters_orig S) (num_species S)
    (u32 (num_characters S - 1)) (matrix S)
    (<[Z.to_nat c := MINUS_ONE]> (current_states S)) (species S)
    (<[Z.to_nat c := 0]> (characters S))
    (<[Z.to_nat c := RED + 1]> (colors S)) 2 c (realized_char dst) [] []
    (igraph_delete_incident (red_black S) v)
    (conflict S).

(** An edge joins [u] and [w]. *)
Definition adjacent (g : igraph_t) (u w : Z) : Prop :=
  adjacentb g u w = true.

(** Every edge joins two vertices of the graph. *)
Definition valid_edges (g : igraph_t) : Prop :=
  Forall (λ e, 0 ≤ e.1 < vcount g ∧ 0 ≤ e.2 < vcount g) (edges g).

(** The number of vertices that are not yet seen. *)
Definition unseen (g : igraph_t) (seen : list Z) : nat :=
  length (filter (λ u, u ∉ seen) (seqZ 0 (vcount g))).

(** The instance [2 2 / 0 1 / 1 1] after character 0 has been realized:
    character 0 is RED and species 1 lies in its component without being
    adjacent to it. *)
Definition rejecting_state : state_s :=
  State 2 2 2 2 (Some [0; 1; 1; 1]) [1; 0] [1; 1] [1; 1] [RED; BLACK] 1 0 0
    [] [] (Igraph 4 [(0, 3); (1, 3); (2, 0)]) (Igraph 2 []).

(** The set [D] as the specification words it: the vertices of the
    component of the vertex of [c] that are neither its neighbours nor the
    vertex itself. *)
Definition spec_D (S : state_s) (c : Z) : list Z :=
  filter (λ u, (u ∉ neighbours_of S c) ∧ u ≠ num_species_orig S + c)
         (component_of S c).

(** [S'] equals [S] on the counts, the arrays and [realize], and has the
    same red-black edges. *)
Definition same_instance (S S' : state_s) : Prop :=
  num_species_orig S' = num_species_orig S ∧
  num_characters_orig S' = num_characters_orig S ∧
  num_species S' = num_species S ∧
  num_characters S' = num_characters S ∧
  current_states S' = current_states S ∧
  species S' = species S ∧
  characters S' = characters S ∧
  colors S' = colors S ∧
  realize S' = realize S ∧
  (∀ e, e ∈ edges (red_black S') ↔ e ∈ edges (red_black S)).

(** C1 as the specification states it. *)
Definition C1_statement (dst S : state_s) : Prop :=
  colors S !! Z.to_nat (realize S) = Some RED →
  spec_D S (realize S) ≠ [] →
  ∃ S', realize_character dst S = Ok (false, S') ∧
        operation S' = 0 ∧ same_instance S S'.

(** The instance [2 3 / 0 1 1 / 1 1 0] after characters 0 and 1 have been
    realized, with character 0 as the next target: character 0 is RED and
    adjacent to species 0, the only species of its component; character 2
    lies in the same component. *)
Definition shared_species_state : state_s :=
  State 2 3 1 2 (Some [0; 1; 1; 1; 1; 0]) [1; MINUS_ONE; 0] [1; 0] [1; 0; 1]
    [RED; RED; BLACK] 1 0 0 [] [] (Igraph 5 [(0, 4); (2, 0)]) (Igraph 3 []).

(** The instance [1 1 / 1] as loaded. *)
Definition single_state : state_s :=
  State 1 1 1 1 (Some [1]) [0] [1] [1] [BLACK] 0 0 0 [] []
    (Igraph 2 [(0, 1)]) (Igraph 1 []).

(** The same instance after its character has been realized. *)
Definition single_realized : state_s :=
  State 1 1 0 0 (Some [1]) [MINUS_ONE] [0] [0] [RED] 1 0 0 [] []
    (Igraph 2 []) (Igraph 1 []).

(** C3 as the specification states it. *)
Definition C3_statement (dst S : state_s) : Prop :=
  let c := realize S in
  let v := num_species_orig S + c in
  colors S !! Z.to_nat c = Some BLACK →
  ∃ S', realize_character dst S = Ok (true, S') ∧
        (∀ e, e ∈ edges (red_black S') ↔
              (e ∈ edges (red_black S) ∧ incident v e = false) ∨
              (∃ u, u ∈ spec_D S c ∧ u < num_species_orig S ∧ e = (v, u))) ∧
        colors S' !! Z.to_nat c = Some RED ∧
        current_states S' !! Z.to_nat c = Some 1 ∧
        operation S' = 1.

(** The instance [2 2 / 1 0 / 1 1] as loaded, and after character 0 has
    been realized. *)
Definition scenario6_loaded : state_s :=
  State 2 2 2 2 (Some [1; 0; 1; 1]) [0; 0] [1; 1] [1; 1] [BLACK; BLACK] 0 0 0
    [] [] (Igraph 4 [(0, 2); (1, 2); (1, 3)]) (Igraph 2 []).

Definition scenario6_realized : state_s :=
  State 2 2 1 1 (Some [1; 0; 1; 1]) [MINUS_ONE; 0] [0; 1] [0; 1] [RED; BLACK]
    1 0 0 [] [] (Igraph 4 [(1, 3)]) (Igraph 2 []).

(** The instance [2 2 / 0 1 / 1 1] after characters 0 and 1 have been
    realized, with character 0 as the next target: it is RED, active, and
    adjacent to the only species of its component. *)
Definition removable_state : state_s :=
  State 2 2 1 1 (Some [0; 1; 1; 1]) [1; MINUS_ONE] [1; 0] [1; 0] [RED; RED]
    1 0 0 [] [] (Igraph 4 [(2, 0)]) (Igraph 2 []).

(** Every active character other than the target keeps an edge once the
    edges at the vertex of the target are deleted. *)
Definition others_keep_an_edge (S : state_s) : Prop :=
  ∀ (c' : nat) (x : Z),
    characters S !! c' = Some x → Z.of_nat c' ≠ realize S → x ≠ 0 →
    ¬ isolated
        (igraph_delete_incident (red_black S)
           (num_species_orig S + realize S))
        (num_species_orig S + Z.of_nat c').

(** C4 as the specification states it: the general rule and scenario S6. *)
Definition C4_general (dst S : state_s) : Prop :=
  let c := realize S in
  let v := num_species_orig S + c in
  colors S !! Z.to_nat c = Some RED →
  (∀ u, u ∈ component_of S c → u ≠ v → u ∈ neighbours_of S c) →
  ∃ S', realize_character dst S = Ok (true, S') ∧
        (∀ e, e ∈ edges (red_black S') ↔
              e ∈ edges (red_black S) ∧ incident v e = false) ∧
        colors S' !! Z.to_nat c = Some (RED + 1) ∧
        current_states S' !! Z.to_nat c = Some MINUS_ONE ∧
        characters S' !! Z.to_nat c = Some 0 ∧
        num_characters S' = num_characters S - 1 ∧
        operation S' = 2.

Definition C4_scenario : Prop :=
  ∃ S0 S1 S2,
    load_instance [2; 2; 1; 0; 1; 1] = Ok S0 ∧
    realize_on 0 S0 = Ok (true, S1) ∧ operation S1 = 1 ∧
    realize_on 0 S1 = Ok (true, S2) ∧ operation S2 = 2 ∧
    num_characters S2 = num_characters S1 - 1.

Definition C4_statement : Prop :=
  (∀ dst S, C4_general dst S) ∧ C4_scenario.

(** A snapshot of the instance [1 1 / 1] whose document lists tried and
    queued characters. *)
Definition snapshot_doc : gmap string json_t :=
  list_to_map
    [("realize", JInteger 0);
     ("tried_characters", JArray [JInteger 91; JInteger 92]);
     ("character_queue", JArray [JInteger 93]);
     ("num_species", JInteger 1);
     ("num_characters", JInteger 1);
     ("num_species_orig", JInteger 1);
     ("num_characters_orig", JInteger 1);
     ("current", JArray [JInteger 0]);
     ("species", JArray [JInteger 1]);
     ("characters", JArray [JInteger 1]);
     ("red_black_file", JString "s-redblack.graphml");
     ("conflict_file", JString "s-conflict.graphml")]%string.

Definition snapshot_fs : gmap string file_content :=
  list_to_map
    [("s", JsonFile snapshot_doc);
     ("s-redblack.graphml", GraphmlFile (Igraph 2 [(0, 1)]));
     ("s-conflict.graphml", GraphmlFile (Igraph 1 []))]%string.

(** The matrix pointer is [NULL] or points to at least
    [num_species * num_characters] cells. *)
Definition matrix_readable (S : state_s) : Prop :=
  match matrix S with
  | Some mx =>
      (Z.to_nat (u32 (num_species S * num_characters S)) ≤ length mx)%nat
  | None => True
  end.

(** The document that [build_json_state] produces, as far as [read_state]
    looks at it. *)
Definition snapshot_of (S : state_s) (rbf cf : string)
    (data : gmap string json_t) : Prop :=
  data !! "num_species_orig"%string = Some (JInteger (num_species_orig S)) ∧
  data !! "num_characters_orig"%string
    = Some (JInteger (num_characters_orig S)) ∧
  data !! "realize"%string = Some (JInteger (realize S)) ∧
  data !! "num_species"%string = Some (JInteger (num_species S)) ∧
  data !! "num_characters"%string = Some (JInteger (num_characters S)) ∧
  data !! "current"%string
    = Some (JArray (map JInteger (current_states S))) ∧
  data !! "species"%string = Some (JArray (map JInteger (species S))) ∧
  data !! "characters"%string
    = Some (JArray (map JInteger (characters S))) ∧
  data !! "red_black_file"%string = Some (JString rbf) ∧
  data !! "conflict_file"%string = Some (JString cf).




(** A struct whose matrix pointer is left over from an earlier use, and
    points to no cell. *)
Definition stale_struct : state_s := set_matrix (Some []) zero_state.


(** The instance [2 2 / 1 0 / 0 1] as loaded. *)
Definition scenario1_loaded : state_s :=
  State 2 2 2 2 (Some [1; 0; 0; 1]) [0; 0] [1; 1] [1; 1] [BLACK; BLACK] 0 0 0
    [] [] (Igraph 4 [(0, 2); (1, 3)]) (Igraph 2 []).

(** The state the loader works on: the struct after [init_state], with the
    matrix, the red-black edges and the conflict edges built so far. *)
Definition loading (stp : state_s) (n m : Z) (mx : list Z)
    (rb cg : list (Z * Z)) : state_s :=
  State n m n m (Some mx)
    (replicate (Z.to_nat m) 0) (replicate (Z.to_nat n) 1)
    (replicate (Z.to_nat m) 1) (replicate (Z.to_nat m) BLACK) 0 0
    (realized_char stp) [] [] (Igraph (n + m) rb) (Igraph m cg).

(** The entry of row [s] and column [c] of an [n x m] matrix stored
    row-major in [cells]. *)
Definition cell (cells : list Z) (m s c : Z) : option Z :=
  cells !! Z.to_nat (s * m + c).

(** The edges of the red-black graph once the cells before position [p]
    (row-major) have been visited. *)
Definition red_black_upto (cells : list Z) (n m p : Z) (es : list (Z * Z))
  : Prop :=
  ∀ e, e ∈ es ↔
       ∃ s c, 0 ≤ s ∧ 0 ≤ c < m ∧ s * m + c < p ∧
              cell cells m s c = Some 1 ∧ e = (s, c + n).

(** Some species before row [s] shows state [a] on column [c1] and state
    [b] on column [c2]. *)
Definition occurs (cells : list Z) (m c1 c2 s a b : Z) : Prop :=
  ∃ s', 0 ≤ s' < s ∧
        cell cells m s' c1 = Some a ∧ cell cells m s' c2 = Some b.

(** All four pairs of states occur on columns [c1] and [c2]. *)
Definition four_states (cells : list Z) (n m c1 c2 : Z) : Prop :=
  occurs cells m c1 c2 n 0 0 ∧ occurs cells m c1 c2 n 0 1 ∧
  occurs cells m c1 c2 n 1 0 ∧ occurs cells m c1 c2 n 1 1.

(** A cell of the table [states] is 1 exactly when its pair has occurred. *)
Definition flag (x : Z) (P : Prop) : Prop := (x = 1 ∧ P) ∨ (x = 0 ∧ ¬ P).

Definition binary (x : Z) : Prop := x = 0 ∨ x = 1.

(** The edges of the conflict graph once the pairs before [(c1, c2)] have
    been visited. *)
Definition conflict_upto (cells : list Z) (n m c1 c2 : Z)
    (es : list (Z * Z)) : Prop :=
  ∀ e, e ∈ es ↔
       ∃ a b, 0 ≤ a ∧ a < b < m ∧ (a < c1 ∨ (a = c1 ∧ b < c2)) ∧
              four_states cells n m a b ∧ e = (a, b).

(** The last cell of the matrix is followed by more integers or by white
    space, so that reading it does not run into the end of the file. *)
Definition followed (rest : list Z) (pad : bool) : Prop :=
  rest ≠ [] ∨ pad = true.

(** What the loader does on an instance file: the header [n m] followed by
    the [n * m] binary cells of the matrix, row by row, for the files whose
    end satisfies [ending]. *)
Definition loader_builds_graphs (ending : list Z → bool → Prop) : Prop :=
  ∀ (fs : gmap string file_content) (global_props : instances_schema_s)
    (stp : state_s) (n m : Z) (cells rest : list Z) (pad : bool),
    file global_props = None →
    fs !! filename global_props =
      Some (TextFile (Stream (n :: m :: cells ++ rest) pad)) →
    0 ≤ n → 0 ≤ m → n + m < 2147483648 → n * m < 4294967296 →
    length cells = Z.to_nat (n * m) →
    Forall binary cells →
    ending rest pad →
    ∃ S,
      read_instance_from_filename fs global_props stp =
      Ok (Schema (Some (Stream rest pad)) (filename global_props) n m,
          true, S) ∧
      wf_state S ∧
      num_species_orig S = n ∧ num_characters_orig S = m ∧
      matrix S = Some cells ∧
      colors S = replicate (Z.to_nat m) BLACK ∧
      vcount (red_black S) = n + m ∧ vcount (conflict S) = m ∧
      (∀ e, e ∈ edges (red_black S) ↔
            ∃ s c, 0 ≤ s < n ∧ 0 ≤ c < m ∧
                   cell cells m s c = Some 1 ∧ e = (s, n + c)) ∧
      (∀ e, e ∈ edges (conflict S) ↔
            ∃ c1 c2, 0 ≤ c1 < c2 ∧ c2 < m ∧
                     four_states cells n m c1 c2 ∧ e = (c1, c2)).

(** The instance [3 3 / 1 1 0 / 1 0 1 / 0 1 1] as loaded. *)
Definition triangle_loaded : state_s :=
  State 3 3 3 3 (Some [1; 1; 0; 1; 0; 1; 0; 1; 1]) [0; 0; 0] [1; 1; 1]
    [1; 1; 1] [BLACK; BLACK; BLACK] 0 0 0 [] []
    (Igraph 6 [(0, 3); (0, 4); (1, 3); (1, 5); (2, 4); (2, 5)])
    (Igraph 3 []).

(** C5 as the specification states it: the general rule, for every
    instance file, and the conflict graph of scenario S2. *)
Definition C5_statement : Prop :=
  loader_builds_graphs (λ _ _, True) ∧
  ∃ S, load_instance [3; 3; 1; 1; 0; 1; 0; 1; 0; 1; 1] = Ok S ∧
       ∀ e, e ∈ edges (conflict S) ↔ e ∈ [(0, 1); (0, 2); (1, 2)].

(** The three-way equivalence of the specification, at every index. *)
Definition removal_equivalence (S : state_s) : Prop :=
  ∀ (c : nat) (col y x : Z),
    colors S !! c = Some col →
    current_states S !! c = Some y →
    characters S !! c = Some x →
    (col = RED + 1 ↔ y = MINUS_ONE) ∧ (y = MINUS_ONE ↔ x = 0).

(** C2 as the specification states it, for an accepted realization. *)
Definition C2_statement (dst S : state_s) : Prop :=
  ∀ S', realize_character dst S = Ok (true, S') → removal_equivalence S'.

(** A character coloured RED+1 has the removed marker as current state. *)
Definition removed_marked (S : state_s) : Prop :=
  Forall2 (λ col y, col = RED + 1 → y = MINUS_ONE)
          (colors S) (current_states S).

(** What remains of the equivalence: inactive and removed marker coincide,
    and the colour RED+1 implies both. *)
Definition removal_consistent (S : state_s) : Prop :=
  ∀ (c : nat) (col y x : Z),
    colors S !! c = Some col →
    current_states S !! c = Some y →
    characters S !! c = Some x →
    (col = RED + 1 → y = MINUS_ONE) ∧ (y = MINUS_ONE ↔ x = 0).

(** The active vertices of [S] all have an edge. *)
Definition no_isolated_active (S : state_s) : Prop :=
  (∀ (s : nat) (x : Z), species S !! s = Some x → x ≠ 0 →
     ¬ isolated (red_black S) (Z.of_nat s)) ∧
  (∀ (c : nat) (x : Z), characters S !! c = Some x → x ≠ 0 →
     ¬ isolated (red_black S) (num_species_orig S + Z.of_nat c)).

(** The state of the filling loop on a file that ends right after its last
    integer: before the last integer is read, and from then on. *)
Definition fill_unpadded (stp : state_s) (n m : Z) (cells : list Z) (p : Z)
  : fill_state :=
  if decide (p < Z.of_nat (length cells))
  then Fill (Stream (drop (Z.to_nat p) cells) false)
         (loading stp n m
            (take (Z.to_nat p) (map u32 cells)
             ++ replicate (Z.to_nat (n * m) - Z.to_nat p) 0) [] [])
         false
  else Fill (Stream [] false)
         (loading stp n m
            (take (length cells - 1) (map u32 cells)
             ++ replicate (Z.to_nat (n * m) - (length cells - 1)) 0) [] [])
         true.

(** The values a [gint] can hold. *)
Definition is_gint (z : Z) : Prop := -2147483648 ≤ z < 2147483648.

(** The keys that every snapshot document holds. *)
Definition snapshot_keys : gset string :=
  list_to_set
    ["realize"; "tried_characters"; "character_queue"; "num_species";
     "num_characters"; "num_species_orig"; "num_characters_orig"; "current";
     "species"; "characters"; "red_black_file"; "conflict_file"]%string.

(** What [next_node] does to the slot of the current level before it
    realizes anything: the queue is initialised if the node is new. *)
Definition entered (node_init : state_s → list Z) (cur : state_s)
  : state_s :=
  if bool_decide (tried_characters cur = []) && no_sibling_p cur
  then set_character_queue (node_init cur) cur
  else cur.

(** The slot of the current level once the head of the queue has been
    taken. *)
Definition advanced (node_init : state_s → list Z) (cur : state_s)
  : state_s :=
  set_tried_characters
    (realized_char (entered node_init cur)
     :: tried_characters (entered node_init cur))
    (set_character_queue (tl (character_queue (entered node_init cur)))
       (entered node_init cur)).

(** The character that [next_node] tries. *)
Definition to_realize (node_init : state_s → list Z) (cur : state_s) : Z :=
  u32 (to_gint (hd 0 (character_queue (entered node_init cur)))).

(** * Verification *)

(** ** The result monad and loops *)

Lemma bind_Ok {A B} (m : result A) (f : A → result B) (b : B) :
  m ≫= f = Ok b ↔ ∃ a, m = Ok a ∧ f a = Ok b.
Proof.
  destruct m as [a|e]; simpl; split.
  - intros H. by exists a.
  - by intros (a' & [= ->] & H).
  - done.
  - by intros (a' & [=] & _).
Qed.

Lemma assert_Ok (b : bool) (u : unit) : assert b = Ok u ↔ b = true.
Proof. destruct b, u; simpl; split; congruence. Qed.

(** Inversion of a successful computation, one bind at a time. *)
Ltac inv_bind H :=
  let a := fresh "r" in
  let Ha := fresh "Hr" in
  apply bind_Ok in H as (a & Ha & H).

Ltac inv_assert H :=
  let u := fresh "u" in
  let Hu := fresh "Has" in
  apply bind_Ok in H as (u & Hu & H); apply assert_Ok in Hu.

Lemma for_loop_invariant {A} (P : Z → A → Prop)
    (body : Z → A → result A) (k : nat) :
  ∀ (lo : Z) (a : A),
    P lo a →
    (∀ i x, lo ≤ i < lo + Z.of_nat k → P i x →
       ∃ x', body i x = Ok x' ∧ P (i + 1) x') →
    ∃ a', for_loop body lo k a = Ok a' ∧ P (lo + Z.of_nat k) a'.
Proof.
  induction k as [|k IH]; intros lo a Ha Hstep.
  - exists a. split; [done|]. by replace (lo + Z.of_nat 0) with lo by lia.
  - destruct (Hstep lo a) as (x' & Hx' & HP); [lia|done|].
    destruct (IH (lo + 1) x' HP) as (a' & Ha' & HP').
    { intros i x Hi. apply Hstep. lia. }
    exists a'. simpl. rewrite Hx'. simpl. split; [done|].
    by replace (lo + Z.of_nat (S k)) with (lo + 1 + Z.of_nat k) by lia.
Qed.


Lemma for_loop_fixed {A} (body : Z → A → result A) (k : nat) :
  ∀ (lo : Z) (a : A),
    (∀ i, lo ≤ i < lo + Z.of_nat k → body i a = Ok a) →
    for_loop body lo k a = Ok a.
Proof.
  induction k as [|k IH]; intros lo a Hfix; [done|].
  simpl. rewrite Hfix by lia. simpl. apply IH. intros i Hi. apply Hfix. lia.
Qed.

Lemma for_range_invariant {A} (P : Z → A → Prop)
    (body : Z → A → result A) (lo hi : Z) (a : A) :
  lo ≤ hi →
  P lo a →
  (∀ i x, lo ≤ i < hi → P i x → ∃ x', body i x = Ok x' ∧ P (i + 1) x') →
  ∃ a', for_range lo hi body a = Ok a' ∧ P hi a'.
Proof.
  intros Hle Ha Hstep.
  destruct (for_loop_invariant P body (Z.to_nat (hi - lo)) lo a Ha)
    as (a' & Hrun & HP).
  { intros i x Hi. apply Hstep. lia. }
  exists a'. split; [done|].
  by replace (lo + Z.of_nat (Z.to_nat (hi - lo))) with hi in HP by lia.
Qed.


Lemma for_range_fixed {A} (body : Z → A → result A) (lo hi : Z) (a : A) :
  (∀ i, lo ≤ i < hi → body i a = Ok a) →
  for_range lo hi body a = Ok a.
Proof. intros Hfix. apply for_loop_fixed. intros i Hi. apply Hfix. lia. Qed.


(** ** Machine integers and arrays *)

Lemma u32_small (z : Z) : 0 ≤ z < 4294967296 → u32 z = z.
Proof. intros Hz. unfold u32. by apply Z.mod_small. Qed.

Lemma to_igraph_integer_small (z : Z) :
  z < 2147483648 → to_igraph_integer z = z.
Proof.
  intros Hz. unfold to_igraph_integer.
  destruct (z <? 2147483648) eqn:E; [done|]. apply Z.ltb_ge in E. lia.
Qed.

Lemma vertex_id_small (z : Z) :
  0 ≤ z < 2147483648 → to_igraph_integer (u32 z) = z.
Proof.
  intros Hz. rewrite u32_small by lia. apply to_igraph_integer_small. lia.
Qed.

Lemma array_get_Ok (l : list Z) (i v : Z) :
  array_get l i = Ok v ↔ l !! Z.to_nat i = Some v.
Proof.
  unfold array_get. destruct (l !! Z.to_nat i); split; congruence.
Qed.

Lemma array_set_Ok (l l' : list Z) (i v : Z) :
  array_set l i v = Ok l' ↔
  (Z.to_nat i < length l)%nat ∧ l' = <[Z.to_nat i := v]> l.
Proof.
  unfold array_set. case_decide; split.
  - intros [= <-]. done.
  - by intros [_ ->].
  - done.
  - intros [? _]. lia.
Qed.

Lemma array_prefix_all (l : list Z) (n : Z) :
  length l = Z.to_nat n → array_prefix l n = Ok l.
Proof.
  intros Hlen. unfold array_prefix. rewrite decide_True by lia.
  by rewrite take_ge by lia.
Qed.

Lemma array_prefix_Ok (l p : list Z) (n : Z) :
  array_prefix l n = Ok p ↔
  (Z.to_nat n ≤ length l)%nat ∧ p = take (Z.to_nat n) l.
Proof.
  unfold array_prefix. case_decide; split.
  - by intros [= <-].
  - by intros [_ ->].
  - done.
  - intros [? _]. lia.
Qed.

Lemma count_ne_bounds (x : Z) (l : list Z) :
  0 ≤ count_ne x l ≤ Z.of_nat (length l).
Proof. unfold count_ne. pose proof (length_filter (λ v, v ≠ x) l). lia. Qed.

Lemma count_ne_app (x : Z) (l1 l2 : list Z) :
  count_ne x (l1 ++ l2) = count_ne x l1 + count_ne x l2.
Proof. unfold count_ne. rewrite filter_app, length_app. lia. Qed.

Lemma count_ne_cons (x v : Z) (l : list Z) :
  count_ne x (v :: l) = (if decide (v = x) then 0 else 1) + count_ne x l.
Proof.
  unfold count_ne. rewrite filter_cons.
  destruct (decide (v = x)); destruct (decide (v ≠ x)); simpl; try lia;
    congruence.
Qed.

Lemma count_ne_insert (x w v : Z) (l : list Z) (i : nat) :
  l !! i = Some v →
  count_ne x (<[i := w]> l) =
  count_ne x l - (if decide (v = x) then 0 else 1)
               + (if decide (w = x) then 0 else 1).
Proof.
  intros Hi.
  assert (Hlt : (i < length l)%nat) by (by eapply lookup_lt_Some).
  rewrite insert_take_drop by done.
  rewrite <- (take_drop_middle l i v Hi) at 3.
  rewrite !count_ne_app, !count_ne_cons. lia.
Qed.

(** ** Well-formed states *)

Lemma count_ne_agree (ch cs : list Z) :
  Forall2 active_agree ch cs → count_ne MINUS_ONE cs = count_ne 0 ch.
Proof.
  induction 1 as [|x y ch cs Hxy _ IH]; [done|].
  rewrite !count_ne_cons, IH. unfold active_agree in Hxy.
  destruct (decide (y = MINUS_ONE)), (decide (x = 0)); tauto || lia.
Qed.

Lemma wf_current_length (S : state_s) :
  wf_state S → length (current_states S) = Z.to_nat (num_characters_orig S).
Proof.
  intros (_ & _ & _ & _ & _ & Hch & _ & _ & _ & _ & _ & _ & Hag).
  apply Forall2_length in Hag. lia.
Qed.

Lemma check_state_wf (S : state_s) : wf_state S → check_state S = Ok 0.
Proof.
  intros Hwf. pose proof (wf_current_length S Hwf) as Hcs.
  destruct Hwf as (Hn0 & Hm0 & Hsz & Hsp & Hco & Hch & Hvc & Hn & Hm & _ & _ & _
                  & Hag).
  unfold check_state.
  rewrite !array_prefix_all by done. simpl.
  rewrite (count_ne_agree _ _ Hag), Hn, Hm, !Z.eqb_refl.
  pose proof (count_ne_bounds 0 (species S)).
  pose proof (count_ne_bounds 0 (characters S)).
  replace (num_species S =? MINUS_ONE) with false
    by (symmetry; apply Z.eqb_neq; unfold MINUS_ONE; lia).
  replace (num_characters S =? MINUS_ONE) with false
    by (symmetry; apply Z.eqb_neq; unfold MINUS_ONE; lia).
  replace (num_species_orig S <? num_species S) with false
    by (symmetry; apply Z.ltb_ge; lia).
  replace (num_characters_orig S <? num_characters S) with false
    by (symmetry; apply Z.ltb_ge; lia).
  done.
Qed.

Lemma assert_check_state_wf (S : state_s) :
  wf_state S → assert_check_state S = Ok tt.
Proof. intros Hwf. unfold assert_check_state. by rewrite check_state_wf. Qed.

Lemma wf_copied (dst S : state_s) : wf_state S → wf_state (copied dst S).
Proof. done. Qed.

Lemma state_cmp_same_arrays (S1 S2 : state_s) :
  wf_state S2 →
  num_characters S1 = num_characters S2 →
  num_species S1 = num_species S2 →
  num_characters_orig S1 = num_characters_orig S2 →
  num_species_orig S1 = num_species_orig S2 →
  current_states S1 = current_states S2 →
  species S1 = species S2 →
  characters S1 = characters S2 →
  state_cmp S1 S2 = Ok 0.
Proof.
  intros Hwf E1 E2 E3 E4 E5 E6 E7.
  pose proof (wf_current_length S2 Hwf) as Hcs.
  destruct Hwf as (Hn0 & Hm0 & Hsz & Hsp & Hco & Hch & _).
  unfold state_cmp. rewrite E1, E2, E3, E4, E5, E6, E7.
  rewrite !array_prefix_all by done. simpl.
  rewrite !Z.eqb_refl, !bool_decide_eq_true_2 by done. done.
Qed.

Lemma init_state_Ok (stp : state_s) (n m : Z) :
  0 ≤ n → 0 ≤ m → n + m < 2147483648 →
  ∃ S, init_state stp n m = Ok S ∧
       num_species_orig S = n ∧ num_characters_orig S = m ∧
       realized_char S = realized_char stp.
Proof.
  intros Hn Hm Hsz. unfold init_state.
  rewrite vertex_id_small by lia.
  rewrite to_igraph_integer_small by lia.
  unfold igraph_empty.
  destruct (0 <=? n + m) eqn:E1; [|apply Z.leb_gt in E1; lia].
  destruct (0 <=? m) eqn:E2; [|apply Z.leb_gt in E2; lia].
  simpl. eauto.
Qed.

Lemma copy_state_wf (dst S : state_s) :
  wf_state S → copy_state dst S = Ok (copied dst S).
Proof.
  intros Hwf. pose proof (wf_current_length S Hwf) as Hcs.
  pose proof (assert_check_state_wf _ (wf_copied dst S Hwf)) as Hck.
  pose proof (state_cmp_same_arrays (copied dst S) S Hwf) as Hcmp.
  unfold copy_state. rewrite assert_check_state_wf by done. simpl.
  destruct Hwf as (Hn0 & Hm0 & Hsz & Hsp & Hco & Hch & _).
  destruct (init_state_Ok dst _ _ Hn0 Hm0 Hsz) as (S0 & -> & E1 & E2 & E3).
  simpl. rewrite !array_prefix_all by done. simpl.
  rewrite E1, E2, E3. unfold igraph_copy.
  change (State _ _ _ _ _ _ _ _ _ _ _ _ _ _ _ _) with (copied dst S).
  rewrite Hck. simpl. rewrite Hcmp by done. done.
Qed.

(** ** Marking the isolated vertices *)

Lemma igraph_incident_size_Ok (g : igraph_t) (v : Z) :
  0 ≤ v < vcount g →
  ∃ size, igraph_incident_size g v = Ok size ∧
          ((size =? 0) = true ↔ isolated g v).
Proof.
  intros Hv. unfold igraph_incident_size, valid_vertex, isolated.
  destruct (0 <=? v) eqn:E1; [|apply Z.leb_gt in E1; lia].
  destruct (v <? vcount g) eqn:E2; [|apply Z.ltb_ge in E2; lia].
  simpl. eexists. split; [done|].
  destruct (flat_map (other_ends v) (edges g)); simpl; split;
    intros H; done.
Qed.

Section Mark.
Context (iso : Z → Prop) `{!∀ z, Decision (iso z)} (x : Z).

Lemma lookup_mark (bound : Z) (l : list Z) (i : nat) :
  mark bound iso x l !! i =
  (λ v, if decide (Z.of_nat i < bound ∧ iso (Z.of_nat i)) then x else v)
    <$> l !! i.
Proof. unfold mark. by rewrite list_lookup_imap. Qed.

Lemma length_mark (bound : Z) (l : list Z) :
  length (mark bound iso x l) = length l.
Proof. unfold mark. by rewrite length_imap. Qed.

Lemma mark_zero (l : list Z) : mark 0 iso x l = l.
Proof.
  apply list_eq. intros i. rewrite lookup_mark.
  destruct (l !! i); simpl; [|done].
  rewrite decide_False by lia. done.
Qed.

Lemma lookup_mark_at (l : list Z) (i : Z) :
  0 ≤ i → mark i iso x l !! Z.to_nat i = l !! Z.to_nat i.
Proof.
  intros Hi. rewrite lookup_mark. destruct (l !! Z.to_nat i); simpl; [|done].
  rewrite decide_False by lia. done.
Qed.

Lemma mark_succ_hit (l : list Z) (i : Z) :
  0 ≤ i → iso i →
  mark (i + 1) iso x l = <[Z.to_nat i := x]> (mark i iso x l).
Proof.
  intros Hi Hiso. apply list_eq. intros j.
  destruct (decide (j = Z.to_nat i)) as [->|Hne].
  - rewrite lookup_mark.
    destruct (l !! Z.to_nat i) as [v|] eqn:E; simpl.
    + rewrite list_lookup_insert_eq
        by (rewrite length_mark; by eapply lookup_lt_Some).
      rewrite decide_True; [done|]. rewrite Z2Nat.id by done. split; [lia|done].
    + symmetry. apply lookup_ge_None. rewrite length_insert, length_mark.
      by apply lookup_ge_None.
  - rewrite list_lookup_insert_ne by done. rewrite !lookup_mark.
    destruct (l !! j); simpl; [|done].
    destruct (decide (Z.of_nat j < i + 1 ∧ iso (Z.of_nat j))) as [[??]|N1],
             (decide (Z.of_nat j < i ∧ iso (Z.of_nat j))) as [[??]|N2];
      try done.
    * exfalso. apply N2. split; [lia|done].
    * exfalso. apply N1. split; [lia|done].
Qed.

Lemma mark_succ_miss (l : list Z) (i : Z) :
  0 ≤ i → ¬ iso i → mark (i + 1) iso x l = mark i iso x l.
Proof.
  intros Hi Hiso. apply list_eq. intros j. rewrite !lookup_mark.
  destruct (l !! j); simpl; [|done].
  destruct (decide (Z.of_nat j < i + 1 ∧ iso (Z.of_nat j))) as [[H1 H2]|N1],
           (decide (Z.of_nat j < i ∧ iso (Z.of_nat j))) as [[??]|N2];
    try done.
  - destruct (decide (Z.of_nat j = i)) as [<-|Hne]; [done|].
    exfalso. apply N2. split; [lia|done].
  - exfalso. apply N1. split; [lia|done].
Qed.

Lemma mark_succ_same (l : list Z) (i : Z) :
  0 ≤ i → l !! Z.to_nat i = Some x →
  mark (i + 1) iso x l = mark i iso x l.
Proof.
  intros Hi Hx. destruct (decide (iso i)) as [Hiso|Hiso].
  - rewrite mark_succ_hit by done. apply list_insert_id.
    by rewrite lookup_mark_at.
  - by apply mark_succ_miss.
Qed.

Lemma Forall_mark (P : Z → Prop) (bound : Z) (l : list Z) :
  P x → Forall P l → Forall P (mark bound iso x l).
Proof.
  intros Hx Hl. apply Forall_lookup. intros i v. rewrite lookup_mark.
  destruct (l !! i) as [w|] eqn:E; simpl; [|done].
  intros [= <-]. case_decide; [done|]. by eapply Forall_lookup_1.
Qed.
End Mark.

(** ** Cleanup on well-formed states *)

Lemma is_u32_nonzero_pos (v : Z) : is_u32 v → v ≠ 0 → (0 <? v) = true.
Proof. unfold is_u32. intros ? ?. apply Z.ltb_lt. lia. Qed.

Lemma cleanup_species_loop (S : state_s) :
  wf_state S →
  for_range 0 (num_species_orig S) cleanup_species_body S =
  Ok (let sp := mark (num_species_orig S) (species_isolated S) 0 (species S) in
      set_num_species (count_ne 0 sp) (set_species sp S)).
Proof.
  intros (Hn0 & Hm0 & Hsz & Hsp & Hco & Hch & Hvc & Hn & Hm & Hu1 & _).
  set (P := λ (i : Z) (cur : state_s),
    cur = set_num_species
            (count_ne 0 (mark i (species_isolated S) 0 (species S)))
            (set_species (mark i (species_isolated S) 0 (species S)) S)).
  destruct (for_range_invariant P cleanup_species_body 0
              (num_species_orig S) S) as (S' & Hrun & HP); [done| | |].
  - unfold P. rewrite mark_zero, Hn. by destruct S.
  - intros i cur Hi ->.
    destruct (lookup_lt_is_Some_2 (species S) (Z.to_nat i)) as [v Hv]; [lia|].
    assert (Hvu : is_u32 v) by (by eapply Forall_lookup_1).
    unfold cleanup_species_body. simpl.
    unfold array_get. rewrite lookup_mark_at, Hv by lia. simpl.
    destruct (v =? 0) eqn:Ev.
    + apply Z.eqb_eq in Ev as ->. eexists. split; [done|].
      unfold P. by rewrite mark_succ_same by (done || lia).
    + apply Z.eqb_neq in Ev.
      destruct (igraph_incident_size_Ok (red_black S) i) as (sz & Hsz' & Hiso);
        [lia|].
      rewrite Hsz'. simpl. destruct (sz =? 0) eqn:Esz.
      * assert (Hi' : species_isolated S i) by (by apply Hiso).
        unfold delete_species. simpl.
        replace (i <? num_species_orig S) with true
          by (symmetry; apply Z.ltb_lt; lia).
        simpl. unfold array_get. rewrite lookup_mark_at, Hv by lia. simpl.
        rewrite is_u32_nonzero_pos by done. simpl.
        unfold array_set. rewrite decide_True by (rewrite length_mark; lia).
        simpl. eexists. split; [done|]. unfold P.
        rewrite mark_succ_hit by (done || lia).
        assert (Hc : count_ne 0 (<[Z.to_nat i:=0]>
                         (mark i (species_isolated S) 0 (species S))) =
                     count_ne 0 (mark i (species_isolated S) 0 (species S)) - 1).
        { erewrite count_ne_insert by (by rewrite lookup_mark_at by lia).
          rewrite decide_False, decide_True by done. lia. }
        rewrite Hc.
        pose proof (count_ne_bounds 0 (<[Z.to_nat i:=0]>
                         (mark i (species_isolated S) 0 (species S)))) as Hb.
        rewrite length_insert, length_mark in Hb.
        rewrite u32_small by lia. by destruct S.
      * assert (Hi' : ¬ species_isolated S i).
        { intros Hc. apply Hiso in Hc. congruence. }
        eexists. split; [done|]. unfold P.
        by rewrite mark_succ_miss by (done || lia).
  - rewrite Hrun. by rewrite HP.
Qed.
Lemma character_vertex_small (S : state_s) (c : Z) :
  0 ≤ num_species_orig S → 0 ≤ c →
  num_species_orig S + c < 2147483648 →
  character_vertex S c = num_species_orig S + c.
Proof. intros. unfold character_vertex. apply vertex_id_small. lia. Qed.

Lemma cleanup_characters_loop (S : state_s) :
  wf_state S →
  for_range 0 (num_characters_orig S) cleanup_characters_body S =
  Ok (let ch := mark (num_characters_orig S) (character_isolated S) 0
                  (characters S) in
      let cs := mark (num_characters_orig S) (character_isolated S) MINUS_ONE
                  (current_states S) in
      set_num_characters (count_ne 0 ch)
        (set_current_states cs (set_characters ch S))).
Proof.
  intros Hwf. pose proof (wf_current_length S Hwf) as Hcs.
  destruct Hwf as (Hn0 & Hm0 & Hsz & Hsp & Hco & Hch & Hvc & Hn & Hm & _ & Hu2
                   & _ & Hag).
  set (P := λ (i : Z) (cur : state_s),
    cur = set_num_characters
            (count_ne 0 (mark i (character_isolated S) 0 (characters S)))
            (set_current_states
               (mark i (character_isolated S) MINUS_ONE (current_states S))
               (set_characters
                  (mark i (character_isolated S) 0 (characters S)) S))).
  destruct (for_range_invariant P cleanup_characters_body 0
              (num_characters_orig S) S) as (S' & Hrun & HP); [done| | |].
  - unfold P. rewrite !mark_zero, Hm. by destruct S.
  - intros i cur Hi ->.
    destruct (lookup_lt_is_Some_2 (characters S) (Z.to_nat i)) as [v Hv];
      [lia|].
    destruct (lookup_lt_is_Some_2 (current_states S) (Z.to_nat i)) as [y Hy];
      [lia|].
    assert (Hvu : is_u32 v) by (by eapply Forall_lookup_1).
    assert (Hvy : active_agree v y) by (by eapply Forall2_lookup_lr).
    unfold cleanup_characters_body. simpl.
    unfold array_get. rewrite lookup_mark_at, Hv by lia.
    simpl. destruct (v =? 0) eqn:Ev.
    + apply Z.eqb_eq in Ev as ->. eexists. split; [done|].
      assert (y = MINUS_ONE) as -> by (by apply Hvy).
      unfold P. by rewrite !mark_succ_same by (done || lia).
    + apply Z.eqb_neq in Ev.
      assert (Hyn : y ≠ MINUS_ONE) by (intros Hc; by apply Hvy in Hc).
      replace (character_vertex _ i) with (num_species_orig S + i)
        by (symmetry; rewrite <- (character_vertex_small S i) by lia;
            by destruct S).
      destruct (igraph_incident_size_Ok (red_black S) (num_species_orig S + i))
        as (sz & Hsz' & Hiso); [lia|].
      rewrite Hsz'. simpl. destruct (sz =? 0) eqn:Esz.
      * assert (Hi' : character_isolated S i) by (by apply Hiso).
        unfold delete_character. simpl.
        replace (i <? num_characters_orig S) with true
          by (symmetry; apply Z.ltb_lt; lia).
        simpl. unfold array_get.
        rewrite !lookup_mark_at by lia. rewrite Hv. simpl.
        rewrite is_u32_nonzero_pos by done. simpl.
        rewrite Hy. simpl.
        replace (y =? MINUS_ONE) with false
          by (symmetry; by apply Z.eqb_neq).
        simpl. unfold array_set.
        rewrite !decide_True by (rewrite length_mark; lia).
        simpl. eexists. split; [done|]. unfold P.
        rewrite !mark_succ_hit by (done || lia).
        assert (Hc : count_ne 0 (<[Z.to_nat i:=0]>
                         (mark i (character_isolated S) 0 (characters S))) =
                     count_ne 0
                       (mark i (character_isolated S) 0 (characters S)) - 1).
        { erewrite count_ne_insert by (by rewrite lookup_mark_at by lia).
          rewrite decide_False, decide_True by done. lia. }
        rewrite Hc.
        pose proof (count_ne_bounds 0 (<[Z.to_nat i:=0]>
                         (mark i (character_isolated S) 0 (characters S))))
          as Hb.
        rewrite length_insert, length_mark in Hb.
        rewrite u32_small by lia. by destruct S.
      * assert (Hi' : ¬ character_isolated S i).
        { intros Hc. apply Hiso in Hc. congruence. }
        eexists. split; [done|]. unfold P.
        by rewrite !mark_succ_miss by (done || lia).
  - rewrite Hrun. by rewrite HP.
Qed.
Lemma is_u32_0 : is_u32 0.
Proof. by unfold is_u32. Qed.
Lemma is_u32_1 : is_u32 1.
Proof. by unfold is_u32. Qed.
Lemma is_u32_MINUS_ONE : is_u32 MINUS_ONE.
Proof. by unfold is_u32, MINUS_ONE. Qed.

Lemma Forall2_agree_mark (bound : Z) (iso : Z → Prop)
    `{!∀ z, Decision (iso z)} (ch cs : list Z) :
  Forall2 active_agree ch cs →
  Forall2 active_agree (mark bound iso 0 ch) (mark bound iso MINUS_ONE cs).
Proof.
  intros Hag. apply Forall2_same_length_lookup. split.
  - rewrite !length_mark. by eapply Forall2_length.
  - intros i x y. rewrite !lookup_mark.
    destruct (ch !! i) as [v|] eqn:E1; [|done].
    destruct (cs !! i) as [w|] eqn:E2; [|done]. simpl.
    intros [= <-] [= <-]. case_decide; [done|].
    by eapply Forall2_lookup_lr.
Qed.

Lemma wf_species_marked (S : state_s) :
  wf_state S →
  wf_state
    (let sp := mark (num_species_orig S) (species_isolated S) 0 (species S) in
     set_num_species (count_ne 0 sp) (set_species sp S)).
Proof.
  intros (Hn0 & Hm0 & Hsz & Hsp & Hco & Hch & Hvc & Hn & Hm & Hu1 & Hu2 & Hu3
          & Hag).
  unfold wf_state. simpl. rewrite length_mark.
  repeat split; try done. apply Forall_mark; [apply is_u32_0|done].
Qed.

(** On a well-formed state [cleanup] succeeds, with [cleaned] as result. *)
Lemma cleanup_wf (S : state_s) : wf_state S → cleanup S = Ok (cleaned S).
Proof.
  intros Hwf. unfold cleanup.
  rewrite cleanup_species_loop by done. simpl.
  pose proof (wf_species_marked S Hwf) as Hwf1. simpl in Hwf1.
  pose proof (cleanup_characters_loop _ Hwf1) as Hrun. simpl in Hrun.
  rewrite Hrun. by destruct S.
Qed.

Lemma wf_cleaned (S : state_s) : wf_state S → wf_state (cleaned S).
Proof.
  intros (Hn0 & Hm0 & Hsz & Hsp & Hco & Hch & Hvc & Hn & Hm & Hu1 & Hu2 & Hu3
          & Hag).
  unfold wf_state, cleaned. simpl. rewrite !length_mark.
  repeat split; try done.
  - apply Forall_mark; [apply is_u32_0|done].
  - apply Forall_mark; [apply is_u32_0|done].
  - apply Forall_mark; [apply is_u32_MINUS_ONE|done].
  - by apply Forall2_agree_mark.
Qed.

(** ** Cleanup is idempotent *)







(** ** The graph layer *)

Lemma valid_vertex_true (g : igraph_t) (v : Z) :
  valid_vertex g v = true ↔ 0 ≤ v < vcount g.
Proof. unfold valid_vertex. rewrite andb_true_iff, Z.leb_le, Z.ltb_lt. done. Qed.

Lemma elem_of_bfs_layer (g : igraph_t) (seen : list Z) (u : Z) :
  u ∈ bfs_layer g seen → 0 ≤ u < vcount g.
Proof.
  unfold bfs_layer. rewrite list_elem_of_filter, elem_of_seqZ. lia.
Qed.

Lemma elem_of_bfs (g : igraph_t) (fuel : nat) :
  ∀ (seen : list Z) (u : Z),
    u ∈ bfs g fuel seen → u ∈ seen ∨ 0 ≤ u < vcount g.
Proof.
  induction fuel as [|fuel IH]; intros seen u; simpl; [by left|].
  intros H. apply IH in H as [H|H]; [|by right].
  apply elem_of_app in H as [H|H]; [by left|].
  right. by eapply elem_of_bfs_layer.
Qed.

Lemma elem_of_igraph_vector_sort (l : list Z) (u : Z) :
  u ∈ igraph_vector_sort l ↔ u ∈ l.
Proof. unfold igraph_vector_sort. by rewrite merge_sort_Permutation. Qed.

Lemma igraph_subcomponent_Ok (g : igraph_t) (v : Z) :
  0 ≤ v < vcount g →
  igraph_subcomponent g v = Ok (bfs g (Z.to_nat (vcount g)) [v]).
Proof.
  intros Hv. unfold igraph_subcomponent.
  by rewrite (proj2 (valid_vertex_true g v) Hv).
Qed.

Lemma igraph_neighbors_Ok (g : igraph_t) (v : Z) :
  0 ≤ v < vcount g →
  igraph_neighbors g v =
  Ok (igraph_vector_sort (flat_map (other_ends v) (edges g))).
Proof.
  intros Hv. unfold igraph_neighbors.
  by rewrite (proj2 (valid_vertex_true g v) Hv).
Qed.

Lemma pair_up_new_red (c : Z) (l : list Z) :
  pair_up (new_red_edges c l) = map (λ u, (c, u)) l.
Proof. induction l as [|u l IH]; simpl; [done|]. by rewrite IH. Qed.

Lemma even_length_new_red (c : Z) (l : list Z) :
  Nat.even (length (new_red_edges c l)) = true.
Proof. induction l as [|u l IH]; simpl; done. Qed.

Lemma forallb_valid_new_red (g : igraph_t) (c : Z) (l : list Z) :
  valid_vertex g c = true →
  Forall (λ u, valid_vertex g u = true) l →
  forallb (valid_vertex g) (new_red_edges c l) = true.
Proof.
  intros Hc. induction 1 as [|u l Hu _ IH]; simpl; [done|].
  by rewrite Hc, Hu, IH.
Qed.

Lemma igraph_add_edges_new_red (g : igraph_t) (c : Z) (l : list Z) :
  valid_vertex g c = true →
  Forall (λ u, valid_vertex g u = true) l →
  igraph_add_edges g (new_red_edges c l) =
  Ok (Igraph (vcount g) (edges g ++ map (λ u, (c, u)) l)).
Proof.
  intros Hc Hl. unfold igraph_add_edges.
  rewrite even_length_new_red, forallb_valid_new_red by done. simpl.
  by rewrite pair_up_new_red.
Qed.

Lemma flat_map_other_ends_deleted (v : Z) (l : list (Z * Z)) :
  flat_map (other_ends v) (filter (λ e, incident v e = false) l) = [].
Proof.
  induction l as [|e l IH]; [done|]. rewrite filter_cons.
  case_decide as He; [|done]. simpl. rewrite IH.
  unfold incident in He. apply orb_false_iff in He as [He1 He2].
  unfold other_ends. by rewrite He1, He2.
Qed.

Lemma isolated_after_delete (g : igraph_t) (v : Z) (l : list Z) :
  v ∉ l →
  isolated (Igraph (vcount g)
              (edges (igraph_delete_incident g v) ++ map (λ u, (v, u)) l)) v
  ↔ l = [].
Proof.
  intros Hv. unfold isolated. simpl.
  rewrite flat_map_app, flat_map_other_ends_deleted. simpl.
  destruct l as [|u l]; [done|]. simpl. unfold other_ends at 1. simpl.
  rewrite Z.eqb_refl. simpl. done.
Qed.

(** ** The realization operator on well-formed states *)

Lemma wf_detached (dst S : state_s) : wf_state S → wf_state (detached dst S).
Proof. done. Qed.

Lemma realize_character_wf (dst S : state_s) (color : Z) :
  wf_state S →
  0 ≤ realize S < num_characters_orig S →
  colors S !! Z.to_nat (realize S) = Some color →
  realize_character dst S =
  realize_tail (detached dst S) (realize S) color
    (num_species_orig S + realize S) (D_of S (realize S)).
Proof.
  intros Hwf Hc Hcol. unfold realize_character.
  rewrite copy_state_wf by done. simpl.
  rewrite (state_cmp_same_arrays S (copied dst S)) by done. simpl.
  rewrite !assert_check_state_wf by done. simpl.
  unfold array_get. rewrite Hcol. simpl.
  pose proof Hwf as (Hn0 & Hm0 & Hsz & Hsp & Hco & Hch & Hvc & _).
  rewrite character_vertex_small by lia.
  rewrite igraph_subcomponent_Ok by lia. simpl.
  rewrite igraph_neighbors_Ok by lia. simpl.
  done.
Qed.

Lemma D_of_species (S : state_s) (c u : Z) :
  wf_state S → 0 ≤ c < num_characters_orig S →
  u ∈ D_of S c → 0 ≤ u < num_species_orig S.
Proof.
  intros (Hn0 & Hm0 & Hsz & Hsp & Hco & Hch & Hvc & _) Hc.
  unfold D_of, not_adjacent_species, igraph_vector_difference_sorted,
    component_of.
  rewrite !list_elem_of_filter, elem_of_igraph_vector_sort.
  intros ([Hlt Hne] & _ & Hin). split; [|done].
  apply elem_of_bfs in Hin as [Hin|Hin]; [|lia].
  apply list_elem_of_singleton in Hin. lia.
Qed.

Lemma D_of_valid (S : state_s) (c : Z) :
  wf_state S → 0 ≤ c < num_characters_orig S →
  Forall (λ u, valid_vertex (red_black S) u = true) (D_of S c).
Proof.
  intros Hwf Hc. apply Forall_forall. intros u Hu.
  apply (D_of_species S c u Hwf Hc) in Hu.
  destruct Hwf as (Hn0 & Hm0 & Hsz & Hsp & Hco & Hch & Hvc & _).
  apply valid_vertex_true. lia.
Qed.
Lemma BLACK_neq_RED : BLACK ≠ RED.
Proof. done. Qed.

Lemma mark_id (bound : Z) (iso : Z → Prop) `{!∀ z, Decision (iso z)}
    (x : Z) (l : list Z) :
  (∀ i v, l !! i = Some v → Z.of_nat i < bound → iso (Z.of_nat i) → v = x) →
  mark bound iso x l = l.
Proof.
  intros Hid. apply list_eq. intros i. rewrite lookup_mark.
  destruct (l !! i) as [v|] eqn:E; simpl; [|done].
  case_decide as Hd; [|done]. destruct Hd. f_equal. symmetry. by eapply Hid.
Qed.

Lemma wf_black_child (dst S : state_s) (x : Z) :
  wf_state S →
  characters S !! Z.to_nat (realize S) = Some x → x ≠ 0 →
  wf_state (black_child dst S).
Proof.
  intros Hwf Hx Hx0. pose proof (wf_current_length S Hwf) as Hcs.
  destruct Hwf as (Hn0 & Hm0 & Hsz & Hsp & Hco & Hch & Hvc & Hn & Hm & Hu1
                   & Hu2 & Hu3 & Hag).
  unfold wf_state, black_child. simpl. rewrite !length_insert.
  repeat split; try done.
  - apply Forall_insert; [done|apply is_u32_1].
  - rewrite <- (list_insert_id (characters S) _ _ Hx).
    apply Forall2_insert; [done|]. unfold active_agree, MINUS_ONE. lia.
Qed.

Lemma wf_red_child (dst S : state_s) (x : Z) :
  wf_state S →
  characters S !! Z.to_nat (realize S) = Some x → x ≠ 0 →
  wf_state (red_child dst S).
Proof.
  intros Hwf Hx Hx0. pose proof (wf_current_length S Hwf) as Hcs.
  destruct Hwf as (Hn0 & Hm0 & Hsz & Hsp & Hco & Hch & Hvc & Hn & Hm & Hu1
                   & Hu2 & Hu3 & Hag).
  assert (Hc : count_ne 0 (<[Z.to_nat (realize S) := 0]> (characters S)) =
               num_characters S - 1).
  { erewrite count_ne_insert by done.
    rewrite decide_False, decide_True by done. lia. }
  pose proof (count_ne_bounds 0
                (<[Z.to_nat (realize S) := 0]> (characters S))) as Hb.
  rewrite length_insert in Hb.
  unfold wf_state, red_child. simpl. rewrite !length_insert.
  rewrite u32_small by lia.
  repeat split; try done.
  - apply Forall_insert; [done|apply is_u32_0].
  - apply Forall_insert; [done|apply is_u32_MINUS_ONE].
  - by apply Forall2_insert.
Qed.

Lemma realize_tail_black (dst S : state_s) (x : Z) :
  wf_state S →
  0 ≤ realize S < num_characters_orig S →
  characters S !! Z.to_nat (realize S) = Some x → x ≠ 0 →
  realize_tail (detached dst S) (realize S) BLACK
    (num_species_orig S + realize S) (D_of S (realize S)) =
  Ok (true, cleaned (black_child dst S)).
Proof.
  intros Hwf Hc Hx Hx0.
  pose proof (wf_black_child dst S x Hwf Hx Hx0) as Hwf'.
  pose proof (D_of_valid S _ Hwf Hc) as HD.
  pose proof (wf_current_length S Hwf) as Hcs.
  destruct Hwf as (Hn0 & Hm0 & Hsz & Hsp & Hco & Hch & Hvc & _).
  unfold realize_tail. rewrite Z.eqb_refl.
  unfold realize_black.
  rewrite (igraph_add_edges_new_red _ _ _) ; [|apply valid_vertex_true; simpl; lia|done].
  simpl. unfold array_set. simpl.
  rewrite !decide_True by lia. simpl.
  change (set_realize _ _) with (black_child dst S).
  rewrite assert_check_state_wf by done. simpl.
  rewrite cleanup_wf by done. simpl.
  rewrite assert_check_state_wf by (by apply wf_cleaned). done.
Qed.

Lemma realize_tail_red_accept (dst S : state_s) (x : Z) :
  wf_state S →
  0 ≤ realize S < num_characters_orig S →
  characters S !! Z.to_nat (realize S) = Some x → x ≠ 0 →
  D_of S (realize S) = [] →
  realize_tail (detached dst S) (realize S) RED
    (num_species_orig S + realize S) (D_of S (realize S)) =
  Ok (true, cleaned (red_child dst S)).
Proof.
  intros Hwf Hc Hx Hx0 HD.
  pose proof (wf_red_child dst S x Hwf Hx Hx0) as Hwf'.
  pose proof (wf_current_length S Hwf) as Hcs.
  destruct Hwf as (Hn0 & Hm0 & Hsz & Hsp & Hco & Hch & Hvc & Hn & Hm & Hu1
                   & Hu2 & Hu3 & Hag).
  destruct (lookup_lt_is_Some_2 (current_states S) (Z.to_nat (realize S)))
    as [y Hy]; [lia|].
  assert (Hxy : active_agree x y) by (by eapply Forall2_lookup_lr).
  assert (Hyn : y ≠ MINUS_ONE) by (intros Hq; by apply Hxy in Hq).
  unfold realize_tail. rewrite HD. simpl.
  unfold realize_red. simpl. unfold array_set. simpl.
  rewrite decide_True by lia. simpl.
  unfold delete_character. simpl.
  replace (realize S <? num_characters_orig S) with true
    by (symmetry; apply Z.ltb_lt; lia).
  simpl. unfold array_get. rewrite Hx. simpl.
  rewrite (is_u32_nonzero_pos x);
    [|by eapply (Forall_lookup_1 _ _ _ _ Hu2)|done].
  simpl. rewrite Hy. simpl.
  replace (y =? MINUS_ONE) with false by (symmetry; by apply Z.eqb_neq).
  simpl. unfold array_set. rewrite !decide_True by lia. simpl.
  change (set_realize _ _) with (red_child dst S).
  rewrite assert_check_state_wf by done. simpl.
  rewrite cleanup_wf by done. simpl.
  rewrite assert_check_state_wf by (by apply wf_cleaned). done.
Qed.

Lemma realize_tail_red_reject (dst S : state_s) :
  D_of S (realize S) ≠ [] →
  realize_tail (detached dst S) (realize S) RED
    (num_species_orig S + realize S) (D_of S (realize S)) =
  Ok (false, set_operation 0 (detached dst S)).
Proof.
  intros HD. unfold realize_tail. simpl. unfold realize_red.
  destruct (D_of S (realize S)); [done|]. done.
Qed.

(** ** The component computed by the graph layer *)

Lemma adjacent_sym (g : igraph_t) (u w : Z) : adjacent g u w → adjacent g w u.
Proof.
  unfold adjacent, adjacentb. rewrite !existsb_exists.
  intros (e & He & H). exists e. split; [done|].
  by rewrite orb_comm.
Qed.

Lemma adjacent_valid (g : igraph_t) (u w : Z) :
  valid_edges g → adjacent g u w → 0 ≤ w < vcount g.
Proof.
  unfold valid_edges, adjacent, adjacentb. rewrite existsb_exists.
  intros Hval (e & He & H).
  apply list_elem_of_In in He.
  destruct (proj1 (Forall_forall _ _) Hval e He) as [H1 H2].
  apply orb_true_iff in H as [H|H]; apply andb_true_iff in H as [Ha Hb];
    apply Z.eqb_eq in Ha, Hb; by subst.
Qed.

Lemma elem_of_bfs_layer_iff (g : igraph_t) (seen : list Z) (u : Z) :
  u ∈ bfs_layer g seen ↔
  0 ≤ u < vcount g ∧ (u ∉ seen) ∧ ∃ w, w ∈ seen ∧ adjacent g u w.
Proof.
  unfold bfs_layer. rewrite list_elem_of_filter, elem_of_seqZ, existsb_exists.
  split.
  - intros ((Hn & w & Hw & Hadj) & Hu). split; [lia|]. split; [done|].
    exists w. split; [by apply list_elem_of_In|done].
  - intros (Hu & Hn & w & Hw & Hadj). split; [|lia]. split; [done|].
    exists w. split; [by apply list_elem_of_In|done].
Qed.

Lemma bfs_mono (g : igraph_t) (fuel : nat) :
  ∀ (seen : list Z) (u : Z), u ∈ seen → u ∈ bfs g fuel seen.
Proof.
  induction fuel as [|fuel IH]; intros seen u Hu; [done|].
  simpl. apply IH, elem_of_app. by left.
Qed.

Lemma bfs_fixed (g : igraph_t) (fuel : nat) (seen : list Z) :
  bfs_layer g seen = [] → bfs g fuel seen = seen.
Proof.
  intros Hl. induction fuel as [|fuel IH]; [done|].
  simpl. by rewrite Hl, app_nil_r.
Qed.

Lemma unseen_decreases (g : igraph_t) (seen : list Z) :
  bfs_layer g seen ≠ [] →
  (unseen g (seen ++ bfs_layer g seen) < unseen g seen)%nat.
Proof.
  intros Hne. unfold unseen.
  destruct (bfs_layer g seen) as [|x layer] eqn:E; [done|].
  assert (Hx : x ∈ bfs_layer g seen) by (rewrite E; apply list_elem_of_here).
  apply elem_of_bfs_layer_iff in Hx as (Hxv & Hxn & _).
  rewrite (list_filter_iff (λ u, u ∉ seen ++ x :: layer)
             (λ u, (u ∉ x :: layer) ∧ u ∉ seen)).
  - rewrite <- list_filter_filter.
    apply (length_filter_lt _ _ x).
    + apply list_elem_of_filter. split; [done|]. apply elem_of_seqZ. lia.
    + intros Hc. apply Hc, list_elem_of_here.
  - intros u. rewrite elem_of_app. tauto.
Qed.

Lemma bfs_closed (g : igraph_t) (fuel : nat) :
  ∀ seen, (unseen g seen ≤ fuel)%nat → bfs_layer g (bfs g fuel seen) = [].
Proof.
  induction fuel as [|fuel IH]; intros seen Hm.
  - simpl. unfold unseen in Hm.
    assert (Hnil : filter (λ u, u ∉ seen) (seqZ 0 (vcount g)) = [])
      by (apply length_zero_iff_nil; lia).
    destruct (bfs_layer g seen) as [|x layer] eqn:E; [done|].
    assert (Hx : x ∈ bfs_layer g seen) by (rewrite E; apply list_elem_of_here).
    apply elem_of_bfs_layer_iff in Hx as (Hxv & Hxn & _).
    exfalso. apply (filter_nil_not_elem_of _ _ x Hnil Hxn).
    apply elem_of_seqZ. lia.
  - simpl. destruct (decide (bfs_layer g seen = [])) as [Hl|Hl].
    + rewrite Hl, app_nil_r. by rewrite bfs_fixed.
    + apply IH. pose proof (unseen_decreases g seen Hl). lia.
Qed.

Lemma bfs_sound (g : igraph_t) (v : Z) (fuel : nat) :
  ∀ seen, (∀ u, u ∈ seen → rtc (adjacent g) v u) →
          ∀ u, u ∈ bfs g fuel seen → rtc (adjacent g) v u.
Proof.
  induction fuel as [|fuel IH]; intros seen Hseen u Hu; [by apply Hseen|].
  simpl in Hu. apply (IH (seen ++ bfs_layer g seen)); [|done].
  intros w Hw. apply elem_of_app in Hw as [Hw|Hw]; [by apply Hseen|].
  apply elem_of_bfs_layer_iff in Hw as (_ & _ & w' & Hw' & Hadj).
  eapply rtc_r; [by apply Hseen|]. by apply adjacent_sym.
Qed.

(** The vertices that [igraph_subcomponent] returns for [v] are exactly the
    vertices joined to [v] by a path: the fuel given to [bfs] suffices. *)
Lemma igraph_subcomponent_reachable (g : igraph_t) (v : Z) :
  0 ≤ v < vcount g → valid_edges g →
  ∃ comp, igraph_subcomponent g v = Ok comp ∧
          ∀ u, u ∈ comp ↔ rtc (adjacent g) v u.
Proof.
  intros Hv Hval. rewrite igraph_subcomponent_Ok by done.
  eexists. split; [done|]. intros u. split.
  - apply bfs_sound. intros w Hw%list_elem_of_singleton. by subst.
  - intros Hpath.
    assert (Hclosed : bfs_layer g (bfs g (Z.to_nat (vcount g)) [v]) = []).
    { apply bfs_closed. unfold unseen.
      pose proof (length_filter (λ u, u ∉ [v]) (seqZ 0 (vcount g))) as Hle.
      rewrite length_seqZ in Hle. lia. }
    revert u Hpath. apply rtc_ind_r.
    + apply bfs_mono, list_elem_of_here.
    + intros w u Hvw Hwu IH.
      destruct (decide (u ∈ bfs g (Z.to_nat (vcount g)) [v])) as [|Hn];
        [done|].
      exfalso.
      assert (Hu : u ∈ bfs_layer g (bfs g (Z.to_nat (vcount g)) [v])).
      { apply elem_of_bfs_layer_iff. split; [by eapply adjacent_valid|].
        split; [done|]. exists w. split; [done|]. by apply adjacent_sym. }
      rewrite Hclosed in Hu. by apply elem_of_nil in Hu.
Qed.

Lemma elem_of_other_ends (g : igraph_t) (v u : Z) :
  u ∈ flat_map (other_ends v) (edges g) ↔ adjacent g v u.
Proof.
  unfold adjacent, adjacentb. rewrite existsb_exists.
  rewrite list_elem_of_In, in_flat_map. split.
  - intros (e & He & Hu). exists e. split; [done|].
    unfold other_ends in Hu. apply in_app_or in Hu as [Hu|Hu].
    + destruct (e.1 =? v) eqn:E1; [|done]. destruct Hu as [<-|[]].
      cbv beta. by rewrite Z.eqb_refl.
    + destruct (e.2 =? v) eqn:E2; [|done]. destruct Hu as [<-|[]].
      cbv beta. rewrite Z.eqb_refl. by rewrite orb_true_r.
  - intros (e & He & H). exists e. split; [done|].
    unfold other_ends. apply in_or_app.
    apply orb_true_iff in H as [H|H]; apply andb_true_iff in H as [Ha Hb].
    + apply Z.eqb_eq in Hb. subst u. rewrite Ha. left. by left.
    + apply Z.eqb_eq in Ha. subst u. rewrite Hb. right. by left.
Qed.

(** The set [D] of the operator, on a well-formed state whose edges join
    vertices of the graph: the species joined by a path to the vertex of
    the character and not adjacent to it. *)
Lemma elem_of_D_of (S : state_s) (c u : Z) :
  wf_state S → valid_edges (red_black S) →
  0 ≤ c < num_characters_orig S →
  u ∈ D_of S c ↔
  0 ≤ u < num_species_orig S ∧
  rtc (adjacent (red_black S)) (num_species_orig S + c) u ∧
  ¬ adjacent (red_black S) (num_species_orig S + c) u.
Proof.
  intros Hwf Hval Hc.
  pose proof Hwf as (Hn0 & Hm0 & Hsz & Hsp & Hco & Hch & Hvc & _).
  destruct (igraph_subcomponent_reachable (red_black S)
              (num_species_orig S + c)) as (comp & Hcomp & Hreach);
    [lia|done|].
  rewrite igraph_subcomponent_Ok in Hcomp by lia. injection Hcomp as <-.
  split.
  - intros Hu. pose proof (D_of_species S c u Hwf Hc Hu) as Hsp'.
    unfold D_of, not_adjacent_species, igraph_vector_difference_sorted,
      component_of, neighbours_of in Hu.
    rewrite !list_elem_of_filter, !elem_of_igraph_vector_sort in Hu.
    destruct Hu as (_ & Hna & Hin). split; [done|]. split.
    + by apply Hreach.
    + intros Hadj. by apply Hna, elem_of_other_ends.
  - intros (Hu & Hpath & Hna).
    unfold D_of, not_adjacent_species, igraph_vector_difference_sorted,
      component_of, neighbours_of.
    rewrite !list_elem_of_filter, !elem_of_igraph_vector_sort.
    split; [lia|]. split.
    + intros Hin. by apply Hna, elem_of_other_ends.
    + by apply Hreach.
Qed.

(** ** Worked states *)

Lemma rejecting_state_reachable :
  load_instance [2; 2; 0; 1; 1; 1] ≫= realize_on 0 =
  Ok (true, rejecting_state).
Proof. vm_compute. reflexivity. Qed.

Lemma wf_rejecting_state : wf_state rejecting_state.
Proof. apply (bool_decide_unpack _). vm_compute. reflexivity. Defined.

(** ** C1: rejected realization *)

(** C1, counterexample: on [rejecting_state] the realization of character 0
    is rejected, but the child has lost the edge between the vertex of the
    character and species 0. *)
Lemma C1_counterexample : ¬ C1_statement zero_state rejecting_state.
Proof.
  intros H. destruct H as (S' & Hrun & _ & Hsame).
  - reflexivity.
  - vm_compute. discriminate.
  - assert (E : realize_character zero_state rejecting_state =
                 Ok (false,
                     State 2 2 2 2 (Some [0; 1; 1; 1]) [1; 0] [1; 1] [1; 1]
                       [RED; BLACK] 0 0 0 [] [] (Igraph 4 [(0, 3); (1, 3)])
                       (Igraph 2 []))) by (vm_compute; reflexivity).
    rewrite E in Hrun. injection Hrun as <-.
    destruct Hsame as (_ & _ & _ & _ & _ & _ & _ & _ & _ & Hedges).
    destruct (Hedges (2, 0)) as [_ Hback]. simpl in Hback.
    assert (Hin : (2, 0) ∈ [(0, 3); (1, 3)]).
    { apply Hback. do 2 apply list_elem_of_further. apply list_elem_of_here. }
    apply elem_of_cons in Hin as [Hin|Hin]; [discriminate|].
    apply elem_of_cons in Hin as [Hin|Hin]; [discriminate|].
    by apply elem_of_nil in Hin.
Qed.

Lemma shared_species_state_reachable :
  (s ← load_instance [2; 3; 0; 1; 1; 1; 1; 0];
   r ← realize_on 0 s;
   r ← realize_on 1 r.2;
   mret (set_realize 0 r.2)) = Ok shared_species_state.
Proof. vm_compute. reflexivity. Qed.

(** Only species count in [D]: on [shared_species_state] the component of
    the vertex of character 0 holds the vertex of character 2, which is
    neither a neighbour nor the vertex itself, and the realization is
    accepted as a removal. *)
Lemma character_vertices_do_not_reject :
  spec_D shared_species_state 0 = [4] ∧
  D_of shared_species_state 0 = [] ∧
  ∃ S', realize_character zero_state shared_species_state = Ok (true, S') ∧
        operation S' = 2.
Proof.
  split; [by vm_compute|]. split; [by vm_compute|].
  eexists. split; [vm_compute; reflexivity|]. done.
Qed.

(** C1, amended: on a well-formed state whose character [c = realize] is
    RED and has a species of its component that is not adjacent to it, the
    operator returns false; the child has [operation = 0], the counts, the
    arrays, [realize], the matrix and the conflict graph of the source, empty
    [tried_characters] and [character_queue], and the red-black graph of
    the source without the edges at the vertex of [c]. *)
Theorem C1_red_rejection (dst S : state_s) :
  wf_state S →
  0 ≤ realize S < num_characters_orig S →
  colors S !! Z.to_nat (realize S) = Some RED →
  D_of S (realize S) ≠ [] →
  realize_character dst S =
  Ok (false,
      State (num_species_orig S) (num_characters_orig S) (num_species S)
        (num_characters S) (matrix S) (current_states S) (species S)
        (characters S) (colors S) 0 (realize S) (realized_char dst) [] []
        (igraph_delete_incident (red_black S)
           (num_species_orig S + realize S))
        (conflict S)).
Proof.
  intros Hwf Hc Hcol HD.
  rewrite (realize_character_wf dst S RED) by done.
  by rewrite realize_tail_red_reject.
Qed.

Lemma C1_red_rejection_witness :
  wf_state rejecting_state ∧
  0 ≤ realize rejecting_state < num_characters_orig rejecting_state ∧
  colors rejecting_state !! Z.to_nat (realize rejecting_state) = Some RED ∧
  D_of rejecting_state (realize rejecting_state) ≠ [] ∧
  realize_character zero_state rejecting_state =
  Ok (false,
      State 2 2 2 2 (Some [0; 1; 1; 1]) [1; 0] [1; 1] [1; 1] [RED; BLACK] 0 0
        0 [] [] (Igraph 4 [(0, 3); (1, 3)]) (Igraph 2 [])).
Proof.
  assert (H1 : wf_state rejecting_state) by apply wf_rejecting_state.
  assert (H2 : 0 ≤ realize rejecting_state
               < num_characters_orig rejecting_state) by (simpl; lia).
  assert (H3 : colors rejecting_state !! Z.to_nat (realize rejecting_state)
               = Some RED) by reflexivity.
  assert (H4 : D_of rejecting_state (realize rejecting_state) ≠ [])
    by (vm_compute; discriminate).
  exact (conj H1 (conj H2 (conj H3 (conj H4
           (C1_red_rejection zero_state rejecting_state H1 H2 H3 H4))))).
Defined.

(** ** C3: realization of a BLACK character *)

Lemma single_state_loaded : load_instance [1; 1; 1] = Ok single_state.
Proof. vm_compute. reflexivity. Qed.

Lemma single_state_realized :
  realize_character zero_state single_state = Ok (true, single_realized).
Proof. vm_compute. reflexivity. Qed.

(** C3, counterexample: on the instance [1 1 / 1] the realization of the
    only character is accepted, but [cleanup] then removes the character,
    whose vertex has no edge left: its current state is the removed marker,
    not 1. *)
Lemma C3_counterexample : ¬ C3_statement zero_state single_state.
Proof.
  intros H. destruct H as (S' & Hrun & _ & _ & Hcur & _); [reflexivity|].
  rewrite single_state_realized in Hrun. injection Hrun as <-.
  discriminate Hcur.
Qed.

Lemma not_in_D_of (S : state_s) (c : Z) :
  wf_state S → 0 ≤ c < num_characters_orig S →
  num_species_orig S + c ∉ D_of S c.
Proof.
  intros Hwf Hc Hin. apply (D_of_species S c _ Hwf Hc) in Hin. lia.
Qed.

(** C3, amended: on a well-formed state whose character [c = realize] is
    BLACK and active, the realization is accepted.  In the child the edges
    at the vertex [v] of [c] are deleted and an edge from [v] to every
    species of [D] is added, no other edge changes, [colors[c]] is RED and
    [operation] is 1.  When [D] is not empty [current_states[c]] is 1; when
    [D] is empty the vertex is left without edges and the final [cleanup]
    removes the character: [current_states[c]] is the removed marker. *)
Theorem C3_black_realization (dst S : state_s) :
  let c := realize S in
  let v := num_species_orig S + c in
  wf_state S →
  0 ≤ c < num_characters_orig S →
  colors S !! Z.to_nat c = Some BLACK →
  characters S !! Z.to_nat c ≠ Some 0 →
  ∃ S', realize_character dst S = Ok (true, S') ∧
        wf_state S' ∧
        edges (red_black S') =
          filter (λ e, incident v e = false) (edges (red_black S))
          ++ map (λ u, (v, u)) (D_of S c) ∧
        colors S' !! Z.to_nat c = Some RED ∧
        operation S' = 1 ∧
        current_states S' !! Z.to_nat c =
          Some (if decide (D_of S c = []) then MINUS_ONE else 1).
Proof.
  intros c v Hwf Hc Hcol Hact.
  pose proof (wf_current_length S Hwf) as Hcs.
  pose proof Hwf as (Hn0 & Hm0 & Hsz & Hsp & Hco & Hch & Hvc & _).
  destruct (lookup_lt_is_Some_2 (characters S) (Z.to_nat c)) as [x Hx];
    [lia|].
  assert (Hx0 : x ≠ 0) by congruence.
  exists (cleaned (black_child dst S)).
  split; [|split; [|split; [|split; [|split]]]].
  - rewrite (realize_character_wf dst S BLACK) by done.
    by apply (realize_tail_black dst S x).
  - by apply wf_cleaned, (wf_black_child dst S x).
  - done.
  - simpl. apply list_lookup_insert_eq. fold c. lia.
  - done.
  - simpl. fold c. rewrite lookup_mark.
    rewrite list_lookup_insert_eq by lia. simpl.
    rewrite Z2Nat.id by lia.
    pose proof (isolated_after_delete (red_black S) v (D_of S c)
                  (not_in_D_of S c Hwf Hc)) as Hiso.
    destruct (decide (D_of S c = [])) as [HD|HD].
    + rewrite decide_True; [done|]. split; [lia|]. by apply Hiso.
    + rewrite decide_False; [done|]. intros [_ Hi]. by apply Hiso in Hi.
Qed.

Lemma C3_black_realization_witness :
  wf_state single_state ∧
  0 ≤ realize single_state < num_characters_orig single_state ∧
  colors single_state !! Z.to_nat (realize single_state) = Some BLACK ∧
  characters single_state !! Z.to_nat (realize single_state) ≠ Some 0 ∧
  ∃ S', realize_character zero_state single_state = Ok (true, S') ∧
        wf_state S' ∧
        edges (red_black S') = [] ∧
        colors S' !! 0%nat = Some RED ∧
        operation S' = 1 ∧
        current_states S' !! 0%nat = Some MINUS_ONE.
Proof.
  assert (H1 : wf_state single_state)
    by (apply (bool_decide_unpack _); vm_compute; reflexivity).
  assert (H2 : 0 ≤ realize single_state < num_characters_orig single_state)
    by (simpl; lia).
  assert (H3 : colors single_state !! Z.to_nat (realize single_state)
               = Some BLACK) by reflexivity.
  assert (H4 : characters single_state !! Z.to_nat (realize single_state)
               ≠ Some 0) by (simpl; discriminate).
  exact (conj H1 (conj H2 (conj H3 (conj H4
           (C3_black_realization zero_state single_state H1 H2 H3 H4))))).
Defined.

(** ** C4: removal of a RED character *)

Lemma removable_state_reachable :
  (s ← load_instance [2; 2; 0; 1; 1; 1];
   r ← realize_on 0 s;
   r ← realize_on 1 r.2;
   mret (set_realize 0 r.2)) = Ok removable_state.
Proof. vm_compute. reflexivity. Qed.

Lemma scenario6_load :
  load_instance [2; 2; 1; 0; 1; 1] = Ok scenario6_loaded.
Proof. vm_compute. reflexivity. Qed.

Lemma scenario6_first :
  realize_on 0 scenario6_loaded = Ok (true, scenario6_realized).
Proof. vm_compute. reflexivity. Qed.

Lemma scenario6_second :
  realize_on 0 scenario6_realized = Abort AssertionFailure.
Proof. vm_compute. reflexivity. Qed.

(** C4, counterexample: in scenario S6 the first realization leaves the
    vertex of character 0 without edges, so its [cleanup] already removes
    the character; the second realization then fails the assertion of
    [delete_character] instead of returning with [operation = 2]. *)
Lemma C4_counterexample : ¬ C4_statement.
Proof.
  intros [_ (S0 & S1 & S2 & H0 & H1 & _ & H2 & _)].
  rewrite scenario6_load in H0. injection H0 as <-.
  rewrite scenario6_first in H1. injection H1 as <-.
  rewrite scenario6_second in H2. discriminate H2.
Qed.

(** C4, amended.  On a well-formed state whose character [c = realize] is
    RED, active, and has no species of its component that is not adjacent
    to it, the realization is accepted: the edges at the vertex of [c] are
    deleted and none is added, [colors[c]] is RED+1, [current_states[c]] is
    the removed marker, [characters[c]] is 0 and [operation] is 2; the
    count of active characters decreases by exactly 1 when every other
    active character keeps an edge.  In scenario S6 the first realization
    of character 0 returns with [operation = 1] and one active character
    left, character 0 being already removed by [cleanup], and the second
    realization of character 0 stops on a failed assertion. *)
Theorem C4_red_removal :
  (∀ dst S,
     let c := realize S in
     let v := num_species_orig S + c in
     wf_state S →
     0 ≤ c < num_characters_orig S →
     colors S !! Z.to_nat c = Some RED →
     characters S !! Z.to_nat c ≠ Some 0 →
     D_of S c = [] →
     ∃ S', realize_character dst S = Ok (true, S') ∧
           wf_state S' ∧
           edges (red_black S') =
             filter (λ e, incident v e = false) (edges (red_black S)) ∧
           colors S' !! Z.to_nat c = Some (RED + 1) ∧
           current_states S' !! Z.to_nat c = Some MINUS_ONE ∧
           characters S' !! Z.to_nat c = Some 0 ∧
           operation S' = 2 ∧
           (others_keep_an_edge S →
            num_characters S' = num_characters S - 1)) ∧
  (load_instance [2; 2; 1; 0; 1; 1] = Ok scenario6_loaded ∧
   realize_on 0 scenario6_loaded = Ok (true, scenario6_realized) ∧
   operation scenario6_realized = 1 ∧
   num_characters scenario6_realized = 1 ∧
   characters scenario6_realized !! 0%nat = Some 0 ∧
   realize_on 0 scenario6_realized = Abort AssertionFailure).
Proof.
  split;
    [|by rewrite scenario6_load, scenario6_first, scenario6_second].
  intros dst S c v Hwf Hc Hcol Hact HD.
  pose proof (wf_current_length S Hwf) as Hcs.
  pose proof Hwf as (Hn0 & Hm0 & Hsz & Hsp & Hco & Hch & Hvc & Hn & Hm & _).
  destruct (lookup_lt_is_Some_2 (characters S) (Z.to_nat c)) as [x Hx];
    [lia|].
  assert (Hx0 : x ≠ 0) by congruence.
  pose proof (wf_red_child dst S x Hwf Hx Hx0) as Hwf'.
  exists (cleaned (red_child dst S)).
  split; [|split; [|split; [|split; [|split; [|split; [|split]]]]]].
  - rewrite (realize_character_wf dst S RED) by done.
    by apply (realize_tail_red_accept dst S x).
  - by apply wf_cleaned.
  - done.
  - simpl. apply list_lookup_insert_eq. fold c. lia.
  - simpl. fold c. rewrite lookup_mark.
    rewrite list_lookup_insert_eq by lia. simpl. by case_decide.
  - simpl. fold c. rewrite lookup_mark.
    rewrite list_lookup_insert_eq by lia. simpl. by case_decide.
  - done.
  - intros Hothers. simpl. fold c. rewrite mark_id.
    + erewrite count_ne_insert by done.
      rewrite decide_False, decide_True by done. lia.
    + intros i w Hw _ Hiso.
      destruct (decide (i = Z.to_nat c)) as [->|Hne].
      * rewrite list_lookup_insert_eq in Hw by lia. congruence.
      * rewrite list_lookup_insert_ne in Hw by done.
        destruct (decide (w = 0)) as [|Hw0]; [done|]. exfalso.
        apply (Hothers i w Hw); [fold c; lia|done|]. exact Hiso.
Qed.

Lemma C4_red_removal_witness :
  wf_state removable_state ∧
  0 ≤ realize removable_state < num_characters_orig removable_state ∧
  colors removable_state !! Z.to_nat (realize removable_state) = Some RED ∧
  characters removable_state !! Z.to_nat (realize removable_state) ≠ Some 0 ∧
  D_of removable_state (realize removable_state) = [] ∧
  others_keep_an_edge removable_state ∧
  ∃ S', realize_character zero_state removable_state = Ok (true, S') ∧
        operation S' = 2 ∧
        num_characters S' = num_characters removable_state - 1.
Proof.
  assert (H1 : wf_state removable_state)
    by (apply (bool_decide_unpack _); vm_compute; reflexivity).
  assert (H2 : 0 ≤ realize removable_state
               < num_characters_orig removable_state) by (simpl; lia).
  assert (H3 : colors removable_state !! Z.to_nat (realize removable_state)
               = Some RED) by reflexivity.
  assert (H4 : characters removable_state
                 !! Z.to_nat (realize removable_state) ≠ Some 0)
    by (simpl; discriminate).
  assert (H5 : D_of removable_state (realize removable_state) = [])
    by (vm_compute; reflexivity).
  assert (H6 : others_keep_an_edge removable_state).
  { intros [|[|c']] x Hx Hne Hx0; cbn in Hx, Hne;
      [lia|congruence|by destruct c']. }
  destruct (proj1 C4_red_removal zero_state removable_state H1 H2 H3 H4 H5)
    as (S' & Hrun & _ & _ & _ & _ & _ & Hop & Hm).
  exact (conj H1 (conj H2 (conj H3 (conj H4 (conj H5 (conj H6
           (ex_intro _ S' (conj Hrun (conj Hop (Hm H6)))))))))).
Defined.

(** ** Realizing an inactive character *)

Lemma result_bind_Ok {A B} (a : A) (f : A → result B) : Ok a ≫= f = f a.
Proof. done. Qed.

Lemma result_bind_ret {A B} (a : A) (f : A → result B) : mret a ≫= f = f a.
Proof. done. Qed.

(** Reduction of the binds whose first computation has returned. *)
Ltac ok_steps :=
  repeat (progress (cbv beta iota;
                    rewrite ?result_bind_Ok, ?result_bind_ret)).

Lemma assert_check_state_bad_current (X : state_s) :
  length (species X) = Z.to_nat (num_species_orig X) →
  length (characters X) = Z.to_nat (num_characters_orig X) →
  length (current_states X) = Z.to_nat (num_characters_orig X) →
  count_ne MINUS_ONE (current_states X) ≠ num_characters X →
  assert_check_state X = Abort AssertionFailure.
Proof.
  intros Hsp Hch Hcs Hbad. unfold assert_check_state, check_state.
  rewrite !array_prefix_all by done. simpl.
  apply Z.eqb_neq in Hbad. rewrite Hbad.
  repeat match goal with
         | |- context [if ?b then _ else _] => destruct b
         end; done.
Qed.

Lemma realize_tail_black_inactive (dst S : state_s) :
  wf_state S →
  0 ≤ realize S < num_characters_orig S →
  characters S !! Z.to_nat (realize S) = Some 0 →
  realize_tail (detached dst S) (realize S) BLACK
    (num_species_orig S + realize S) (D_of S (realize S)) =
  Abort AssertionFailure.
Proof.
  intros Hwf Hc Hx.
  pose proof (D_of_valid S _ Hwf Hc) as HD.
  pose proof (wf_current_length S Hwf) as Hcs.
  destruct Hwf as (Hn0 & Hm0 & Hsz & Hsp & Hco & Hch & Hvc & Hn & Hm & Hu1
                   & Hu2 & Hu3 & Hag).
  destruct (lookup_lt_is_Some_2 (current_states S) (Z.to_nat (realize S)))
    as [y Hy]; [lia|].
  assert (Hxy : active_agree 0 y) by (by eapply Forall2_lookup_lr).
  assert (y = MINUS_ONE) as -> by (by apply Hxy).
  unfold realize_tail. rewrite Z.eqb_refl.
  unfold realize_black.
  rewrite (igraph_add_edges_new_red _ _ _);
    [|apply valid_vertex_true; simpl; lia|done].
  simpl. unfold array_set. simpl.
  rewrite !decide_True by lia. rewrite !result_bind_Ok.
  rewrite assert_check_state_bad_current; [done|..].
  - exact Hsp.
  - exact Hch.
  - cbn [current_states set_realize set_current_states num_characters_orig
         set_colors set_operation set_red_black detached copied].
    by rewrite length_insert.
  - cbn [current_states set_realize set_current_states num_characters
         set_colors set_operation set_red_black detached copied].
    erewrite count_ne_insert by done.
    rewrite decide_True, decide_False by done.
    rewrite (count_ne_agree _ _ Hag). lia.
Qed.

Lemma realize_tail_red_inactive (dst S : state_s) :
  wf_state S →
  0 ≤ realize S < num_characters_orig S →
  characters S !! Z.to_nat (realize S) = Some 0 →
  D_of S (realize S) = [] →
  realize_tail (detached dst S) (realize S) RED
    (num_species_orig S + realize S) (D_of S (realize S)) =
  Abort AssertionFailure.
Proof.
  intros Hwf Hc Hx HD.
  destruct Hwf as (Hn0 & Hm0 & Hsz & Hsp & Hco & Hch & Hvc & _).
  unfold realize_tail. rewrite HD. simpl.
  unfold realize_red. simpl. unfold array_set. simpl.
  rewrite decide_True by lia. simpl.
  unfold delete_character. simpl.
  replace (realize S <? num_characters_orig S) with true
    by (symmetry; apply Z.ltb_lt; lia).
  simpl. unfold array_get. rewrite Hx. done.
Qed.

Lemma realize_tail_other (dst S : state_s) (color : Z) :
  wf_state S → color ≠ BLACK → color ≠ RED →
  realize_tail (detached dst S) (realize S) color
    (num_species_orig S + realize S) (D_of S (realize S)) =
  Ok (true, cleaned (set_realize (realize S) (detached dst S))).
Proof.
  intros Hwf H1 H2. unfold realize_tail.
  apply Z.eqb_neq in H1, H2. rewrite H1, H2. simpl.
  assert (Hwf' : wf_state (set_realize (realize S) (detached dst S)))
    by done.
  rewrite assert_check_state_wf by done. simpl.
  rewrite cleanup_wf by done. simpl.
  rewrite assert_check_state_wf by (by apply wf_cleaned). done.
Qed.

(** ** C10: deletions require an active target *)

(** C10: [delete_species] returns only if [species[s] > 0], and
    [delete_character] only if [characters[c] > 0] and [current_states[c]]
    is not the removed marker; deleting the same index again fails the
    assertion; and the realization of a RED character that is already
    removed, on the path that would return [operation = 2] ([D] empty),
    stops on a failed assertion instead of returning a rejection. *)
Theorem C10_deletion_requires_active :
  (∀ S S' s,
     0 ≤ s → delete_species S s = Ok S' →
     (∃ v, species S !! Z.to_nat s = Some v ∧ 0 < v) ∧
     delete_species S' s = Abort AssertionFailure) ∧
  (∀ S S' c,
     0 ≤ c → delete_character S c = Ok S' →
     (∃ v y, characters S !! Z.to_nat c = Some v ∧ 0 < v ∧
             current_states S !! Z.to_nat c = Some y ∧ y ≠ MINUS_ONE) ∧
     delete_character S' c = Abort AssertionFailure) ∧
  (∀ dst S,
     wf_state S →
     0 ≤ realize S < num_characters_orig S →
     colors S !! Z.to_nat (realize S) = Some RED →
     characters S !! Z.to_nat (realize S) = Some 0 →
     D_of S (realize S) = [] →
     realize_character dst S = Abort AssertionFailure).
Proof.
  split; [|split].
  - intros S S' s Hs H. unfold delete_species in H.
    inv_assert H. inv_bind H. inv_assert H. inv_bind H.
    injection H as <-. apply array_get_Ok in Hr.
    apply array_set_Ok in Hr0 as [Hlt ->]. apply Z.ltb_lt in Has0.
    split; [by eauto|].
    unfold delete_species. simpl. rewrite Has. simpl.
    unfold array_get. rewrite !list_lookup_insert_eq by done. reflexivity.
  - intros S S' c Hc H. unfold delete_character in H.
    inv_assert H. inv_bind H. inv_assert H. inv_bind H. inv_assert H.
    inv_bind H. inv_bind H. injection H as <-.
    apply array_get_Ok in Hr, Hr0.
    apply array_set_Ok in Hr1 as [Hlt ->].
    apply array_set_Ok in Hr2 as [Hlt' ->]. apply Z.ltb_lt in Has0.
    destruct (r0 =? MINUS_ONE) eqn:E; [discriminate|]. apply Z.eqb_neq in E.
    split; [by eauto 10|].
    unfold delete_character. simpl. rewrite Has. simpl.
    unfold array_get. rewrite !list_lookup_insert_eq by done. reflexivity.
  - intros dst S Hwf Hc Hcol Hx HD.
    rewrite (realize_character_wf dst S RED) by done.
    by apply realize_tail_red_inactive.
Qed.

Lemma C10_deletion_requires_active_witness :
  (0 ≤ 0 ∧
   delete_species scenario6_loaded 0 =
     Ok (set_num_species 1 (set_species [0; 1] scenario6_loaded)) ∧
   delete_species (set_num_species 1 (set_species [0; 1] scenario6_loaded)) 0
     = Abort AssertionFailure) ∧
  (wf_state scenario6_realized ∧
   0 ≤ realize scenario6_realized < num_characters_orig scenario6_realized ∧
   colors scenario6_realized !! Z.to_nat (realize scenario6_realized)
     = Some RED ∧
   characters scenario6_realized !! Z.to_nat (realize scenario6_realized)
     = Some 0 ∧
   D_of scenario6_realized (realize scenario6_realized) = [] ∧
   realize_character zero_state scenario6_realized = Abort AssertionFailure).
Proof.
  assert (H0 : 0 ≤ 0) by lia.
  assert (Hd : delete_species scenario6_loaded 0 =
               Ok (set_num_species 1 (set_species [0; 1] scenario6_loaded)))
    by (vm_compute; reflexivity).
  assert (H1 : wf_state scenario6_realized)
    by (apply (bool_decide_unpack _); vm_compute; reflexivity).
  assert (H2 : 0 ≤ realize scenario6_realized
               < num_characters_orig scenario6_realized) by (simpl; lia).
  assert (H3 : colors scenario6_realized
                 !! Z.to_nat (realize scenario6_realized) = Some RED)
    by reflexivity.
  assert (H4 : characters scenario6_realized
                 !! Z.to_nat (realize scenario6_realized) = Some 0)
    by reflexivity.
  assert (H5 : D_of scenario6_realized (realize scenario6_realized) = [])
    by (vm_compute; reflexivity).
  split.
  - exact (conj H0 (conj Hd
             (proj2 (proj1 C10_deletion_requires_active _ _ 0 H0 Hd)))).
  - exact (conj H1 (conj H2 (conj H3 (conj H4 (conj H5
             (proj2 (proj2 C10_deletion_requires_active)
                zero_state scenario6_realized H1 H2 H3 H4 H5)))))).
Defined.

(** ** C9: the lists of a snapshot are not read back *)

Lemma json_get_list_optional (root : gmap string json_t) (field : string)
    (l : list Z) :
  json_get_list root field true = Ok l → l = [].
Proof. unfold json_get_list. simpl. by intros [= <-]. Qed.

(** C9: whatever the snapshot document holds under [tried_characters] and
    [character_queue], a state that [read_state] produces has both lists
    empty. *)
Theorem C9_read_state_lists_null (fs : gmap string file_content)
    (filename : string) (stp S : state_s) :
  read_state fs filename stp = Ok S →
  tried_characters S = [] ∧ character_queue S = [].
Proof.
  unfold read_state. intros H.
  do 5 inv_bind H.
  apply bind_Ok in H as (tried & Htried & H).
  apply json_get_list_optional in Htried as ->.
  apply bind_Ok in H as (queue & Hqueue & H).
  apply json_get_list_optional in Hqueue as ->.
  do 10 inv_bind H. injection H as <-. done.
Qed.

Lemma C9_read_state_lists_null_witness :
  read_state snapshot_fs "s" zero_state =
    Ok (State 1 1 1 1 None [0] [1] [1] [BLACK] 0 0 0 [] []
          (Igraph 2 [(0, 1)]) (Igraph 1 [])) ∧
  snapshot_doc !! "tried_characters"%string =
    Some (JArray [JInteger 91; JInteger 92]) ∧
  snapshot_doc !! "character_queue"%string = Some (JArray [JInteger 93]) ∧
  tried_characters
    (State 1 1 1 1 None [0] [1] [1] [BLACK] 0 0 0 [] []
       (Igraph 2 [(0, 1)]) (Igraph 1 [])) = [] ∧
  character_queue
    (State 1 1 1 1 None [0] [1] [1] [BLACK] 0 0 0 [] []
       (Igraph 2 [(0, 1)]) (Igraph 1 [])) = [].
Proof.
  assert (H : read_state snapshot_fs "s" zero_state =
              Ok (State 1 1 1 1 None [0] [1] [1] [BLACK] 0 0 0 [] []
                    (Igraph 2 [(0, 1)]) (Igraph 1 [])))
    by (vm_compute; reflexivity).
  assert (H1 : snapshot_doc !! "tried_characters"%string =
               Some (JArray [JInteger 91; JInteger 92]))
    by (vm_compute; reflexivity).
  assert (H2 : snapshot_doc !! "character_queue"%string =
               Some (JArray [JInteger 93])) by (vm_compute; reflexivity).
  exact (conj H (conj H1 (conj H2
           (C9_read_state_lists_null snapshot_fs "s" zero_state _ H)))).
Defined.

(** ** C6: snapshot round trip *)

Lemma append_ne_self (s t : string) : t ≠ ""%string → (s +:+ t)%string ≠ s.
Proof.
  intros Ht. induction s as [|a s IH]; simpl; [done|].
  intros [= H]. by apply IH.
Qed.

Lemma append_inj_r (s t1 t2 : string) :
  (s +:+ t1)%string = (s +:+ t2)%string → t1 = t2.
Proof.
  induction s as [|a s IH]; simpl; [done|]. intros [= H]. by apply IH.
Qed.

Lemma json_array_round_trip (l : list Z) :
  Forall is_u32 l → json_array2array (map JInteger l) = l.
Proof.
  unfold json_array2array. induction 1 as [|x l Hx _ IH]; [done|].
  simpl. rewrite IH. f_equal. by apply u32_small.
Qed.

Lemma build_json_state_wf (S : state_s) (rbf cf : string) :
  wf_state S → matrix_readable S →
  ∃ data, build_json_state S rbf cf = Ok data ∧ snapshot_of S rbf cf data.
Proof.
  intros Hwf Hmx. pose proof (wf_current_length S Hwf) as Hcs.
  unfold build_json_state. rewrite assert_check_state_wf by done.
  rewrite result_bind_Ok.
  destruct Hwf as (Hn0 & Hm0 & Hsz & Hsp & Hco & Hch & _).
  unfold matrix_readable in Hmx. unfold array2json_array.
  rewrite !array_prefix_all by done.
  destruct (matrix S) as [mx|].
  - unfold array_prefix. rewrite decide_True by done.
    rewrite !result_bind_Ok. eexists. split; [reflexivity|].
    unfold snapshot_of. by simplify_map_eq.
  - rewrite !result_bind_Ok. eexists. split; [reflexivity|].
    unfold snapshot_of. by simplify_map_eq.
Qed.








(** ** C8: cleanup is idempotent, and replay with no character *)





(** [read_state] leaves the matrix pointer of the struct as it finds it,
    and [build_json_state] reads through it: on a struct with a stale
    pointer the snapshot is read and cleaned, and the replay stops when the
    matrix is written. *)
Lemma replay_stale_matrix :
  ∃ S, read_state snapshot_fs "s" stale_struct = Ok S ∧
       cleanup S = Ok S ∧
       replay snapshot_fs "s" "t" [] stale_struct zero_state =
       Abort OutOfBounds.
Proof.
  eexists. split; [vm_compute; reflexivity|].
  split; vm_compute; reflexivity.
Qed.




(** ** C7: what a successful search prints *)

Lemma scenario1_load :
  load_instance [2; 2; 1; 0; 0; 1] = Ok scenario1_loaded.
Proof. vm_compute. reflexivity. Qed.

Lemma for_loop_collect {A} (body : Z → list A → result (list A))
    (f : Z → A) (k : nat) :
  (∀ i out, body i out = Ok (out ++ [f i])) →
  ∀ (lo : Z) (out : list A),
    for_loop body lo k out = Ok (out ++ map f (seqZ lo (Z.of_nat k))).
Proof.
  intros Hbody. induction k as [|k IH]; intros lo out.
  - simpl. by rewrite app_nil_r.
  - cbn [for_loop]. rewrite Hbody, result_bind_Ok, IH.
    rewrite (seqZ_cons lo) by lia. cbn [map].
    rewrite <- app_assoc. cbn [app].
    by replace (Z.pred (Z.of_nat (S k))) with (Z.of_nat k) by lia.
Qed.

Lemma init_state_realized_char (stp S : state_s) (n m : Z) :
  init_state stp n m = Ok S → realized_char S = realized_char stp.
Proof.
  unfold init_state. intros H. do 2 inv_bind H. by injection H as <-.
Qed.

Lemma copy_state_realized_char (dst src d : state_s) :
  copy_state dst src = Ok d → realized_char d = realized_char dst.
Proof.
  unfold copy_state. intros H. do 9 inv_bind H. injection H as <-.
  cbn [realized_char]. by eapply init_state_realized_char.
Qed.

Lemma map_realized_char_slot_set (states : list state_s) (level : Z)
    (old new : state_s) :
  states !! Z.to_nat level = Some old →
  realized_char new = realized_char old →
  map realized_char (slot_set states level new) = map realized_char states.
Proof.
  intros Hold Heq. unfold slot_set.
  rewrite list_fmap_insert, Heq. apply list_insert_id.
  by rewrite list_lookup_fmap, Hold.
Qed.

(** [next_node] never assigns [realized_char]: every slot keeps the value
    the caller of [exhaustive_search] left in it. *)
Lemma next_node_realized_char (new_state : state_s) (states : list state_s)
    (level : Z) (node_init : state_s → list Z) (states' : list state_s)
    (level' : Z) :
  next_node new_state states level node_init = Ok (states', level') →
  map realized_char states' = map realized_char states.
Proof.
  unfold next_node. intros H.
  apply bind_Ok in H as (current & Hcur & H).
  unfold slot_get in Hcur.
  destruct (states !! Z.to_nat level) as [cur|] eqn:Hlevel; [|done].
  injection Hcur as <-.
  set (cur1 := if bool_decide (tried_characters cur = []) && no_sibling_p cur
               then set_character_queue (node_init cur) cur else cur) in H.
  assert (Hrc1 : realized_char cur1 = realized_char cur)
    by (unfold cur1; by destruct (_ && _)).
  destruct (no_sibling_p cur1).
  { injection H as <- <-. by eapply map_realized_char_slot_set. }
  set (states1 := slot_set states level _) in H.
  assert (H1 : map realized_char states1 = map realized_char states)
    by (by eapply map_realized_char_slot_set).
  apply bind_Ok in H as (r & _ & H).
  destruct (0 <? operation r.2); [|injection H as <- <-; done].
  apply bind_Ok in H as (next & Hnext & H).
  apply bind_Ok in H as (next' & Hcopy & H).
  injection H as <- <-. rewrite <- H1.
  unfold slot_get in Hnext.
  destruct (states1 !! Z.to_nat (level + 1)) as [nx|] eqn:Hnx; [|done].
  injection Hnext as <-.
  eapply map_realized_char_slot_set; [done|].
  cbn [realized_char set_tried_characters set_character_queue].
  by eapply copy_state_realized_char.
Qed.

(** C7: once the search has landed on a slot without species at [level],
    the lines it prints for [i = 0 .. level] all carry the field
    [realized_char] of that one slot, not the character realized at level
    [i] (and [next_node_realized_char]: the search never assigns that
    field).  On the instance [2 2 / 1 0 / 0 1] with the natural order the
    search succeeds at level 2 after realizing character 0 and then
    character 1 (the [realize] fields of the slots), and prints the value 0
    three times. *)
Theorem C7_solution_lines_repeat_one_slot :
  (∀ (states : list state_s) (level : Z) (st : state_s),
     0 ≤ level →
     states !! Z.to_nat level = Some st →
     solution_lines states level =
     Ok (map (λ i, (i, realized_char st)) (seqZ 0 (level + 1)))) ∧
  (∃ states,
     exhaustive_search zero_state 10
       [scenario1_loaded; zero_state; zero_state] natural_order =
     Ok (Some (states, SolutionFound [(0, 0); (1, 0); (2, 0)])) ∧
     map realize states = [0; 0; 1] ∧
     map operation states = [0; 1; 1] ∧
     map num_species states = [2; 1; 0]).
Proof.
  split.
  - intros states level st Hl Hst. unfold solution_lines, for_range.
    rewrite (for_loop_collect _ (λ i, (i, realized_char st))).
    + cbn [app]. by replace (Z.of_nat (Z.to_nat (level + 1 - 0)))
        with (level + 1) by lia.
    + intros i out. unfold slot_get. by rewrite Hst.
  - eexists. split; [vm_compute; reflexivity|]. by vm_compute.
Qed.

(** ** The instance loader *)

Lemma nested_range_invariant {A} (P : Z → A → Prop)
    (body : Z → Z → A → result A) (bound : A → Z) (n m : Z) (a : A) :
  0 ≤ n → 0 ≤ m →
  (∀ p x, P p x → bound x = m) →
  P 0 a →
  (∀ s c x, 0 ≤ s < n → 0 ≤ c < m → P (s * m + c) x →
     ∃ x', body s c x = Ok x' ∧ P (s * m + c + 1) x') →
  ∃ a', for_range 0 n
          (λ s x, for_range 0 (bound x) (λ c x, body s c x) x) a = Ok a'
        ∧ P (n * m) a'.
Proof.
  intros Hn Hm Hbound Ha Hstep.
  apply (for_range_invariant (λ s x, P (s * m) x)); [done|done|].
  intros s x Hs Hx. rewrite (Hbound _ _ Hx).
  destruct (for_range_invariant (λ c y, P (s * m + c) y)
              (λ c y, body s c y) 0 m x) as (x' & Hrun & Hx'); [done| | |].
  - by replace (s * m + 0) with (s * m) by lia.
  - intros c y Hc Hy. destruct (Hstep s c y Hs Hc Hy) as (y' & Hy' & HP).
    exists y'. split; [done|].
    by replace (s * m + (c + 1)) with (s * m + c + 1) by lia.
  - exists x'. split; [done|].
    by replace ((s + 1) * m) with (s * m + m) by lia.
Qed.

Lemma fill_matrix_step (cells : list Z) (p total : nat) (x : Z) :
  cells !! p = Some x → (p < total)%nat →
  <[p := x]> (take p cells ++ replicate (total - p) 0) =
  take (S p) cells ++ replicate (total - S p) 0.
Proof.
  intros Hx Hp.
  assert (Hlen : length (take p cells) = p).
  { apply length_take_le. apply lookup_lt_Some in Hx. lia. }
  rewrite insert_app_r_alt by lia. rewrite Hlen, Nat.sub_diag.
  replace (total - p)%nat with (S (total - S p)) by lia.
  rewrite (take_S_r _ _ _ Hx), <- app_assoc. done.
Qed.

Lemma feof_followed (l rest : list Z) (pad : bool) :
  rest ≠ [] ∨ pad = true → feof (Stream (l ++ rest) pad) = false.
Proof.
  intros H. unfold feof. cbn [pending padded].
  destruct (l ++ rest) as [|x l'] eqn:E; [|done].
  apply app_eq_nil in E as [_ ->]. by destruct H as [?| ->].
Qed.

Lemma fill_loop (stp : state_s) (n m : Z) (cells rest : list Z) (pad : bool) :
  0 ≤ n → 0 ≤ m → n * m < 4294967296 →
  length cells = Z.to_nat (n * m) →
  Forall is_u32 cells →
  rest ≠ [] ∨ pad = true →
  for_range 0 n (λ s st, for_range 0 m (λ c st, fill_body s c st) st)
    (Fill (Stream (cells ++ rest) pad)
       (loading stp n m (replicate (Z.to_nat (n * m)) 0) [] []) false) =
  Ok (Fill (Stream rest pad) (loading stp n m cells [] []) false).
Proof.
  intros Hn Hm Hnm Hlen Hu32 Hend.
  set (P := λ (p : Z) (st : fill_state),
    st = Fill (Stream (drop (Z.to_nat p) cells ++ rest) pad)
           (loading stp n m
              (take (Z.to_nat p) cells
               ++ replicate (Z.to_nat (n * m) - Z.to_nat p) 0) [] [])
           false).
  destruct (nested_range_invariant P fill_body (λ _, m) n m
              (Fill (Stream (cells ++ rest) pad)
                 (loading stp n m (replicate (Z.to_nat (n * m)) 0) [] [])
                 false)) as (st & Hrun & HP); [done|done|done| | |].
  - unfold P. simpl. by rewrite Nat.sub_0_r.
  - intros s c st Hs Hc ->.
    assert (Hp : 0 ≤ s * m + c < n * m) by nia.
    destruct (lookup_lt_is_Some_2 cells (Z.to_nat (s * m + c))) as [x Hx];
      [lia|].
    pose proof (Forall_lookup_1 _ _ _ _ Hu32 Hx) as Hx32.
    unfold fill_body. cbn [fill_eof fill_stream fill_stp].
    unfold fscanf_u32. cbn [pending padded].
    rewrite (drop_S _ _ _ Hx). cbn [app].
    rewrite feof_followed by done. rewrite (u32_small x) by done.
    unfold matrix_set_value. cbn [matrix loading num_characters].
    replace (c + m * s) with (s * m + c) by lia.
    rewrite u32_small by lia. unfold array_set.
    rewrite decide_True
      by (rewrite length_app, length_take_le, length_replicate; lia).
    ok_steps. eexists. split; [reflexivity|]. unfold P.
    replace (Z.to_nat (s * m + c + 1)) with (S (Z.to_nat (s * m + c)))
      by lia.
    rewrite fill_matrix_step by (done || lia). done.
  - rewrite Hrun. rewrite HP. rewrite drop_ge, take_ge by lia.
    rewrite Nat.sub_diag. simpl. by rewrite app_nil_r.
Qed.

Lemma index_inj (m s c s' c' : Z) :
  0 ≤ c < m → 0 ≤ c' < m → s * m + c = s' * m + c' → s = s' ∧ c = c'.
Proof.
  intros Hc Hc' Heq.
  assert (s = s') as ->; [|lia].
  destruct (Z.lt_trichotomy s s') as [H|[H|H]]; [|done|]; nia.
Qed.

Lemma igraph_add_edge_Ok (g : igraph_t) (u v : Z) :
  0 ≤ u < vcount g → 0 ≤ v < vcount g →
  igraph_add_edge g u v = Ok (Igraph (vcount g) (edges g ++ [(u, v)])).
Proof.
  intros Hu Hv. unfold igraph_add_edge, igraph_add_edges.
  cbn [length Nat.even forallb pair_up].
  rewrite (proj2 (valid_vertex_true g u) Hu).
  by rewrite (proj2 (valid_vertex_true g v) Hv).
Qed.

Lemma matrix_get_value_loading (stp : state_s) (n m : Z) (cells : list Z)
    (rb cg : list (Z * Z)) (s c : Z) :
  0 ≤ s < n → 0 ≤ c < m → n * m < 4294967296 →
  length cells = Z.to_nat (n * m) →
  ∃ v, matrix_get_value (loading stp n m cells rb cg) s c = Ok v ∧
       cell cells m s c = Some v.
Proof.
  intros Hs Hc Hnm Hlen.
  assert (Hp : 0 ≤ s * m + c < n * m) by nia.
  destruct (lookup_lt_is_Some_2 cells (Z.to_nat (s * m + c))) as [v Hv];
    [lia|].
  exists v. split; [|done].
  unfold matrix_get_value. cbn [matrix loading num_characters].
  replace (c + m * s) with (s * m + c) by lia.
  rewrite u32_small by lia. unfold array_get. by rewrite Hv.
Qed.

Lemma red_black_loop (stp : state_s) (n m : Z) (cells : list Z) :
  0 ≤ n → 0 ≤ m → n + m < 2147483648 → n * m < 4294967296 →
  length cells = Z.to_nat (n * m) →
  ∃ es,
    for_range 0 n
      (λ s st, for_range 0 (num_characters st)
                 (λ c st, red_black_body s c st) st)
      (loading stp n m cells [] []) =
    Ok (loading stp n m cells es []) ∧
    red_black_upto cells n m (n * m) es.
Proof.
  intros Hn Hm Hsz Hnm Hlen.
  set (P := λ (p : Z) (st : state_s),
    ∃ es, st = loading stp n m cells es [] ∧ red_black_upto cells n m p es).
  destruct (nested_range_invariant P red_black_body num_characters n m
              (loading stp n m cells [] [])) as (st & Hrun & es & -> & Hes);
    [done|done| | | |by eauto].
  - by intros p x (es & -> & _).
  - exists []. split; [done|]. intros e. split.
    + intros He. by apply elem_of_nil in He.
    + intros (s & c & Hs & Hc & Hp & _). nia.
  - intros s c st Hs Hc (es & -> & Hes).
    destruct (matrix_get_value_loading stp n m cells es [] s c)
      as (v & Hget & Hv); [done..|].
    unfold red_black_body. rewrite Hget. ok_steps.
    destruct (v =? 1) eqn:Ev.
    + apply Z.eqb_eq in Ev as ->.
      cbn [red_black loading num_species].
      rewrite vertex_id_small by lia.
      rewrite igraph_add_edge_Ok by (simpl; lia). ok_steps.
      eexists. split; [reflexivity|].
      exists (es ++ [(s, c + n)]). split; [done|].
      intros e. rewrite elem_of_app, list_elem_of_singleton, (Hes e).
      split.
      * intros [(s' & c' & H1 & H2 & H3 & H4 & H5)| ->].
        -- exists s', c'. repeat split; try done; lia.
        -- exists s, c. repeat split; try done; lia.
      * intros (s' & c' & H1 & H2 & H3 & H4 & H5).
        destruct (decide (s' * m + c' = s * m + c)) as [Heq|Hne].
        -- apply index_inj in Heq as [-> ->]; [|done..]. by right.
        -- left. exists s', c'. repeat split; try done; lia.
    + apply Z.eqb_neq in Ev. eexists. split; [reflexivity|].
      exists es. split; [done|].
      intros e. rewrite (Hes e). split.
      * intros (s' & c' & H1 & H2 & H3 & H4 & H5).
        exists s', c'. repeat split; try done; lia.
      * intros (s' & c' & H1 & H2 & H3 & H4 & H5).
        destruct (decide (s' * m + c' = s * m + c)) as [Heq|Hne].
        -- apply index_inj in Heq as [-> ->]; [|done..]. congruence.
        -- exists s', c'. repeat split; try done; lia.
Qed.

Lemma occurs_succ_here (cells : list Z) (m c1 c2 s a b : Z) :
  0 ≤ s → cell cells m s c1 = Some a → cell cells m s c2 = Some b →
  occurs cells m c1 c2 (s + 1) a b.
Proof. intros Hs Ha Hb. exists s. split; [lia|done]. Qed.

Lemma occurs_succ_other (cells : list Z) (m c1 c2 s a b a' b' : Z) :
  cell cells m s c1 = Some a → cell cells m s c2 = Some b →
  (a', b') ≠ (a, b) →
  occurs cells m c1 c2 (s + 1) a' b' ↔ occurs cells m c1 c2 s a' b'.
Proof.
  intros Ha Hb Hne. split.
  - intros (s' & Hs' & Ha' & Hb').
    destruct (decide (s' = s)) as [->|Hs]; [congruence|].
    exists s'. split; [lia|done].
  - intros (s' & Hs' & Ha' & Hb'). exists s'. split; [lia|done].
Qed.

Lemma flag_set (cells : list Z) (m c1 c2 s a b : Z) (x : Z) :
  0 ≤ s → cell cells m s c1 = Some a → cell cells m s c2 = Some b →
  flag 1 (occurs cells m c1 c2 (s + 1) a b).
Proof. intros. left. split; [done|]. by apply occurs_succ_here. Qed.

Lemma flag_keep (cells : list Z) (m c1 c2 s a b a' b' : Z) (x : Z) :
  cell cells m s c1 = Some a → cell cells m s c2 = Some b →
  (a', b') ≠ (a, b) →
  flag x (occurs cells m c1 c2 s a' b') →
  flag x (occurs cells m c1 c2 (s + 1) a' b').
Proof.
  intros Ha Hb Hne. unfold flag.
  by rewrite (occurs_succ_other cells m c1 c2 s a b a' b').
Qed.

Lemma conflict_states_loop (stp : state_s) (n m : Z) (cells : list Z)
    (rb cg : list (Z * Z)) (c1 c2 : Z) :
  0 ≤ n → 0 ≤ c1 < m → 0 ≤ c2 < m → n * m < 4294967296 →
  length cells = Z.to_nat (n * m) →
  Forall binary cells →
  ∃ x00 x01 x10 x11,
    for_range 0 n (conflict_states_body (loading stp n m cells rb cg) c1 c2)
      [0; 0; 0; 0] = Ok [x00; x01; x10; x11] ∧
    flag x00 (occurs cells m c1 c2 n 0 0) ∧
    flag x01 (occurs cells m c1 c2 n 0 1) ∧
    flag x10 (occurs cells m c1 c2 n 1 0) ∧
    flag x11 (occurs cells m c1 c2 n 1 1).
Proof.
  intros Hn Hc1 Hc2 Hnm Hlen Hbin.
  set (T := λ (s : Z) (states : list Z),
    ∃ x00 x01 x10 x11,
      states = [x00; x01; x10; x11] ∧
      flag x00 (occurs cells m c1 c2 s 0 0) ∧
      flag x01 (occurs cells m c1 c2 s 0 1) ∧
      flag x10 (occurs cells m c1 c2 s 1 0) ∧
      flag x11 (occurs cells m c1 c2 s 1 1)).
  destruct (for_range_invariant T
              (conflict_states_body (loading stp n m cells rb cg) c1 c2)
              0 n [0; 0; 0; 0])
    as (states & Hrun & x00 & x01 & x10 & x11 & -> & F);
    [done| | |by eauto 10].
  - exists 0, 0, 0, 0. split; [done|].
    repeat split; right; (split; [done|]); intros (s' & Hs' & _); lia.
  - intros s states Hs (x00 & x01 & x10 & x11 & -> & F00 & F01 & F10 & F11).
    destruct (matrix_get_value_loading stp n m cells rb cg s c1)
      as (a & Hga & Ha); [done..|].
    destruct (matrix_get_value_loading stp n m cells rb cg s c2)
      as (b & Hgb & Hb); [done..|].
    assert (Hba : binary a)
      by (eapply (Forall_lookup_1 _ _ _ _ Hbin); exact Ha).
    assert (Hbb : binary b)
      by (eapply (Forall_lookup_1 _ _ _ _ Hbin); exact Hb).
    unfold conflict_states_body. rewrite Hga, Hgb. ok_steps.
    destruct Hba as [-> | ->], Hbb as [-> | ->];
      cbn; (eexists; split; [reflexivity|]);
      eexists _, _, _, _; (split; [reflexivity|]);
      repeat split;
      first [ by eapply (flag_set cells m c1 c2 s _ _ 0); [lia|done..]
            | by eapply (flag_keep cells m c1 c2 s _ _ _ _ _ Ha Hb) ].
Qed.

Lemma flags_sum (x00 x01 x10 x11 : Z) (P00 P01 P10 P11 : Prop) :
  flag x00 P00 → flag x01 P01 → flag x10 P10 → flag x11 P11 →
  (foldr Z.add 0 [x00; x01; x10; x11] =? 4) = true ↔
  P00 ∧ P01 ∧ P10 ∧ P11.
Proof.
  unfold flag. cbn [foldr]. rewrite Z.eqb_eq.
  intros [[-> ?]|[-> ?]] [[-> ?]|[-> ?]] [[-> ?]|[-> ?]] [[-> ?]|[-> ?]];
    split; (lia || tauto).
Qed.

Lemma conflict_body_loading (stp : state_s) (n m : Z) (cells : list Z)
    (rb cg : list (Z * Z)) (c1 c2 : Z) :
  0 ≤ n → 0 ≤ c1 < m → 0 ≤ c2 < m → n * m < 4294967296 →
  length cells = Z.to_nat (n * m) →
  Forall binary cells →
  ∃ cg',
    conflict_body c1 c2 (loading stp n m cells rb cg) =
    Ok (loading stp n m cells rb cg') ∧
    ((four_states cells n m c1 c2 ∧ cg' = cg ++ [(c1, c2)]) ∨
     (¬ four_states cells n m c1 c2 ∧ cg' = cg)).
Proof.
  intros Hn Hc1 Hc2 Hnm Hlen Hbin.
  destruct (conflict_states_loop stp n m cells rb cg c1 c2)
    as (x00 & x01 & x10 & x11 & Hrun & F00 & F01 & F10 & F11); [done..|].
  pose proof (flags_sum _ _ _ _ _ _ _ _ F00 F01 F10 F11) as Hsum.
  unfold conflict_body. cbn [num_species loading].
  rewrite Hrun. ok_steps.
  destruct (foldr Z.add 0 [x00; x01; x10; x11] =? 4) eqn:E.
  - cbn [conflict loading].
    rewrite igraph_add_edge_Ok by (simpl; lia). ok_steps.
    eexists. split; [reflexivity|]. left. split; [|done]. by apply Hsum.
  - eexists. split; [reflexivity|]. right. split; [|done].
    intros Hf. apply Hsum in Hf. congruence.
Qed.

Ltac pick_pair a b :=
  exists a, b; split; [lia|split; [lia|split; [lia|by split]]].

Lemma conflict_loop (stp : state_s) (n m : Z) (cells : list Z)
    (rb : list (Z * Z)) :
  0 ≤ n → 0 ≤ m → n * m < 4294967296 →
  length cells = Z.to_nat (n * m) →
  Forall binary cells →
  ∃ cg,
    for_range 0 m (λ c1 st,
        for_range (c1 + 1) (num_characters st)
          (λ c2 st, conflict_body c1 c2 st) st)
      (loading stp n m cells rb []) =
    Ok (loading stp n m cells rb cg) ∧
    conflict_upto cells n m m (m + 1) cg.
Proof.
  intros Hn Hm Hnm Hlen Hbin.
  set (Q := λ (c1 : Z) (st : state_s),
    ∃ cg, st = loading stp n m cells rb cg ∧
          conflict_upto cells n m c1 (c1 + 1) cg).
  destruct (for_range_invariant Q
              (λ c1 st,
                 for_range (c1 + 1) (num_characters st)
                   (λ c2 st, conflict_body c1 c2 st) st)
              0 m (loading stp n m cells rb []))
    as (st & Hrun & cg & -> & Hcg); [done| | |by eauto].
  - exists []. split; [done|]. intros e. split.
    + intros He. by apply elem_of_nil in He.
    + intros (a & b & Ha & Hb & Hlt & _). lia.
  - intros c1 st Hc1 (cg & -> & Hcg). cbn [num_characters loading].
    set (R := λ (c2 : Z) (st : state_s),
      ∃ cg, st = loading stp n m cells rb cg ∧
            conflict_upto cells n m c1 c2 cg).
    destruct (for_range_invariant R (λ c2 st, conflict_body c1 c2 st)
                (c1 + 1) m (loading stp n m cells rb cg))
      as (st & Hrun & cg' & -> & Hcg'); [lia|by exists cg| |].
    + intros c2 st Hc2 (cg0 & -> & Hcg0).
      destruct (conflict_body_loading stp n m cells rb cg0 c1 c2)
        as (cg1 & Hbody & Hcase); [done||lia..|].
      exists (loading stp n m cells rb cg1). split; [done|].
      exists cg1. split; [done|]. intros e.
      destruct Hcase as [[Hfour ->]|[Hfour ->]].
      * rewrite elem_of_app, list_elem_of_singleton, (Hcg0 e). split.
        -- intros [(a & b & H1 & H2 & H3 & H4 & H5)| ->].
           ++ pick_pair a b.
           ++ pick_pair c1 c2.
        -- intros (a & b & H1 & H2 & H3 & H4 & H5).
           destruct (decide (a = c1 ∧ b = c2)) as [[-> ->]|Hne];
             [by right|].
           left. pick_pair a b.
      * rewrite (Hcg0 e). split.
        -- intros (a & b & H1 & H2 & H3 & H4 & H5).
           pick_pair a b.
        -- intros (a & b & H1 & H2 & H3 & H4 & H5).
           destruct (decide (a = c1 ∧ b = c2)) as [[-> ->]|Hne]; [done|].
           pick_pair a b.
    + exists (loading stp n m cells rb cg'). split; [done|].
      exists cg'. split; [done|]. intros e. rewrite (Hcg' e). split.
      * intros (a & b & H1 & H2 & H3 & H4 & H5).
        pick_pair a b.
      * intros (a & b & H1 & H2 & H3 & H4 & H5).
        pick_pair a b.
Qed.

Lemma count_ne_replicate (x v : Z) (k : nat) :
  v ≠ x → count_ne x (replicate k v) = Z.of_nat k.
Proof.
  intros Hv. induction k as [|k IH]; [done|].
  rewrite replicate_S, count_ne_cons, IH, decide_False by done. lia.
Qed.

Lemma wf_loading (stp : state_s) (n m : Z) (mx : list Z)
    (rb cg : list (Z * Z)) :
  0 ≤ n → 0 ≤ m → n + m < 2147483648 →
  wf_state (loading stp n m mx rb cg).
Proof.
  intros Hn Hm Hsz. unfold wf_state, loading. simpl.
  rewrite !length_replicate, !count_ne_replicate by done.
  repeat split; try done; try lia.
  - apply Forall_replicate, is_u32_1.
  - apply Forall_replicate, is_u32_1.
  - apply Forall_replicate, is_u32_0.
  - apply Forall2_replicate. unfold active_agree, MINUS_ONE. lia.
Qed.

Lemma binary_is_u32 (x : Z) : binary x → is_u32 x.
Proof. unfold binary, is_u32. lia. Qed.

Lemma loader_builds_graphs_holds : loader_builds_graphs followed.
Proof.
  intros fs props stp n m cells rest pad Hfile Hfs Hn Hm Hsz Hnm Hlen Hbin
    Hend.
  destruct (red_black_loop stp n m cells) as (rb & Hrb & Hrbs); [done..|].
  destruct (conflict_loop stp n m cells rb) as (cg & Hcg & Hcgs); [done..|].
  exists (loading stp n m cells rb cg).
  split; [|split; [by apply wf_loading|]].
  - unfold read_instance_from_filename. rewrite Hfile, Hfs.
    cbn [pending padded]. ok_steps.
    cbn [schema_num_species schema_num_characters file filename default id].
    rewrite (u32_small n), (u32_small m) by lia.
    unfold init_state.
    rewrite vertex_id_small by lia.
    rewrite to_igraph_integer_small by lia.
    unfold igraph_empty.
    replace (0 <=? n + m) with true by (symmetry; apply Z.leb_le; lia).
    replace (0 <=? m) with true by (symmetry; apply Z.leb_le; lia).
    ok_steps. rewrite u32_small by lia.
    change (set_matrix _ _)
      with (loading stp n m (replicate (Z.to_nat (n * m)) 0) [] []).
    cbn [num_species num_characters loading].
    rewrite fill_loop
      by (done || by eapply Forall_impl; [done|apply binary_is_u32]).
    ok_steps.
    cbn [fill_eof fill_stp fill_stream num_species num_characters loading].
    rewrite Hrb. ok_steps. cbn [num_characters loading].
    rewrite Hcg. ok_steps.
    rewrite assert_check_state_wf by (by apply wf_loading).
    by ok_steps.
  - repeat split; try done.
    + intros (s & c & H1 & H2 & H3 & H4 & ->)%Hrbs.
      exists s, c. split; [nia|]. split; [done|]. split; [done|].
      f_equal. lia.
    + intros (s & c & H1 & H2 & H3 & ->). apply Hrbs.
      exists s, c. split; [lia|]. split; [done|]. split; [nia|].
      split; [done|]. f_equal. lia.
    + intros (a & b & H1 & H2 & H3 & H4 & ->)%Hcgs.
      exists a, b. split; [lia|]. split; [lia|]. by split.
    + intros (a & b & H1 & H2 & H3 & ->). apply Hcgs. pick_pair a b.
Qed.

(** ** C5: the graphs built by the loader *)

Lemma triangle_load :
  load_instance [3; 3; 1; 1; 0; 1; 0; 1; 0; 1; 1] = Ok triangle_loaded.
Proof. vm_compute. reflexivity. Qed.

(** C5, counterexample: on the instance of scenario S2 every pair of
    columns shows only three of the four pairs of states (no species has 0
    on both columns), so the loader adds no conflict edge. *)
Lemma C5_counterexample : ¬ C5_statement.
Proof.
  intros [_ (S & Hload & Hedges)].
  rewrite triangle_load in Hload. injection Hload as <-.
  destruct (Hedges (0, 1)) as [_ Hin].
  assert (H : (0, 1) ∈ edges (conflict triangle_loaded))
    by apply Hin, list_elem_of_here.
  by apply elem_of_nil in H.
Qed.

(** C5, amended: for every well-formed instance file in which the last
    cell of the matrix is followed by white space or by further integers,
    the loader succeeds and builds the red-black graph with an edge between
    species [s] and vertex [n + c] exactly when the cell of row [s] and
    column [c] is 1, and the conflict graph with an edge [(c1, c2)],
    [c1 < c2], exactly when the four pairs of states all occur on the two
    columns.  On the instance [3 3 / 1 1 0 / 1 0 1 / 0 1 1] the conflict
    graph has no edge. *)
Theorem C5_loader_graphs :
  (∀ (fs : gmap string file_content) (global_props : instances_schema_s)
     (stp : state_s) (n m : Z) (cells rest : list Z) (pad : bool),
     file global_props = None →
     fs !! filename global_props =
       Some (TextFile (Stream (n :: m :: cells ++ rest) pad)) →
     0 ≤ n → 0 ≤ m → n + m < 2147483648 → n * m < 4294967296 →
     length cells = Z.to_nat (n * m) →
     Forall binary cells →
     rest ≠ [] ∨ pad = true →
     ∃ S,
       read_instance_from_filename fs global_props stp =
       Ok (Schema (Some (Stream rest pad)) (filename global_props) n m,
           true, S) ∧
       wf_state S ∧
       num_species_orig S = n ∧ num_characters_orig S = m ∧
       matrix S = Some cells ∧
       colors S = replicate (Z.to_nat m) BLACK ∧
       vcount (red_black S) = n + m ∧ vcount (conflict S) = m ∧
       (∀ e, e ∈ edges (red_black S) ↔
             ∃ s c, 0 ≤ s < n ∧ 0 ≤ c < m ∧
                    cell cells m s c = Some 1 ∧ e = (s, n + c)) ∧
       (∀ e, e ∈ edges (conflict S) ↔
             ∃ c1 c2, 0 ≤ c1 < c2 ∧ c2 < m ∧
                      four_states cells n m c1 c2 ∧ e = (c1, c2))) ∧
  load_instance [3; 3; 1; 1; 0; 1; 0; 1; 0; 1; 1] = Ok triangle_loaded ∧
  edges (conflict triangle_loaded) = [].
Proof.
  split; [exact loader_builds_graphs_holds|].
  split; [apply triangle_load|done].
Qed.

Lemma C5_loader_graphs_witness :
  file (Schema None "instance.txt" 0 0) = None ∧
  instance_fs [3; 3; 1; 1; 0; 1; 0; 1; 0; 1; 1]
    !! filename (Schema None "instance.txt" 0 0) =
    Some (TextFile
            (Stream (3 :: 3 :: [1; 1; 0; 1; 0; 1; 0; 1; 1] ++ []) true)) ∧
  0 ≤ 3 ∧ 3 + 3 < 2147483648 ∧ 3 * 3 < 4294967296 ∧
  length [1; 1; 0; 1; 0; 1; 0; 1; 1] = Z.to_nat (3 * 3) ∧
  Forall binary [1; 1; 0; 1; 0; 1; 0; 1; 1] ∧
  ([] ≠ @nil Z ∨ true = true) ∧
  ∃ S,
    read_instance_from_filename
      (instance_fs [3; 3; 1; 1; 0; 1; 0; 1; 0; 1; 1])
      (Schema None "instance.txt" 0 0) zero_state =
    Ok (Schema (Some (Stream [] true)) "instance.txt" 3 3, true, S) ∧
    (∀ e, e ∈ edges (red_black S) ↔
          ∃ s c, 0 ≤ s < 3 ∧ 0 ≤ c < 3 ∧
                 cell [1; 1; 0; 1; 0; 1; 0; 1; 1] 3 s c = Some 1 ∧
                 e = (s, 3 + c)).
Proof.
  assert (H1 : file (Schema None "instance.txt" 0 0) = None) by reflexivity.
  assert (H2 : instance_fs [3; 3; 1; 1; 0; 1; 0; 1; 0; 1; 1]
                 !! filename (Schema None "instance.txt" 0 0) =
               Some (TextFile
                       (Stream (3 :: 3 :: [1; 1; 0; 1; 0; 1; 0; 1; 1] ++ [])
                          true)))
    by (vm_compute; reflexivity).
  assert (H3 : 0 ≤ 3) by lia.
  assert (H4 : 3 + 3 < 2147483648) by lia.
  assert (H5 : 3 * 3 < 4294967296) by lia.
  assert (H6 : length [1; 1; 0; 1; 0; 1; 0; 1; 1] = Z.to_nat (3 * 3))
    by reflexivity.
  assert (H7 : Forall binary [1; 1; 0; 1; 0; 1; 0; 1; 1])
    by (repeat constructor; unfold binary; lia).
  assert (H8 : [] ≠ @nil Z ∨ true = true) by (by right).
  destruct (proj1 C5_loader_graphs _ _ zero_state 3 3 _ [] true H1 H2 H3 H3
              H4 H5 H6 H7 H8)
    as (S & Hrun & _ & _ & _ & _ & _ & _ & _ & Hrb & _).
  exact (conj H1 (conj H2 (conj H3 (conj H4 (conj H5 (conj H6 (conj H7
           (conj H8 (ex_intro _ S (conj Hrun Hrb)))))))))).
Defined.

(** ** C2: removed characters *)

(** C2, counterexample: after the accepted realization of the only
    character of the instance [1 1 / 1], [cleanup] has removed the
    character ([current_states] holds the removed marker and [characters]
    holds 0) while its colour is RED, not RED+1. *)
Lemma C2_counterexample : ¬ C2_statement zero_state single_state.
Proof.
  intros H.
  destruct (H single_realized single_state_realized
              0%nat RED MINUS_ONE 0 eq_refl eq_refl eq_refl)
    as [[_ Hc] _].
  specialize (Hc eq_refl). discriminate Hc.
Qed.

Lemma removal_consistent_wf (S : state_s) :
  wf_state S → removed_marked S → removal_consistent S.
Proof.
  intros Hwf Hrm c col y x Hcol Hy Hx.
  destruct Hwf as (_ & _ & _ & _ & _ & _ & _ & _ & _ & _ & _ & _ & Hag).
  split.
  - by eapply (Forall2_lookup_lr _ _ _ _ _ _ Hrm).
  - pose proof (Forall2_lookup_lr _ _ _ _ _ _ Hag Hx Hy) as Hxy.
    unfold active_agree in Hxy. tauto.
Qed.

Lemma removed_marked_cleaned (X : state_s) :
  removed_marked X → removed_marked (cleaned X).
Proof.
  unfold removed_marked. intros Hrm. simpl.
  apply Forall2_same_length_lookup. split.
  - rewrite length_mark. by eapply Forall2_length.
  - intros i col y Hcol. rewrite lookup_mark.
    destruct (current_states X !! i) as [w|] eqn:E; [|done]. simpl.
    intros [= <-]. case_decide; [done|].
    by eapply (Forall2_lookup_lr _ _ _ _ _ _ Hrm).
Qed.

Lemma removed_marked_all_black (S : state_s) :
  wf_state S →
  colors S = replicate (Z.to_nat (num_characters_orig S)) BLACK →
  removed_marked S.
Proof.
  intros Hwf Hco. pose proof (wf_current_length S Hwf) as Hcs.
  unfold removed_marked. rewrite Hco.
  apply Forall2_replicate_l; [done|].
  apply Forall_forall. intros y _ Hc. discriminate Hc.
Qed.

(** C2, amended: a well-formed state whose characters are all BLACK, as
    the loader produces it, is a well-formed state in which the colour
    RED+1 implies the removed marker; every accepted realization and every
    cleanup on such a state produce such a state again; there, for every
    character, [current_states[c] == -1] and [characters[c] == 0] are
    equivalent, and [colors[c] == RED+1] implies both.  (A character
    removed by [cleanup] keeps its colour.) *)
Theorem C2_removal_invariant :
  (∀ S,
     wf_state S →
     colors S = replicate (Z.to_nat (num_characters_orig S)) BLACK →
     removed_marked S ∧ removal_consistent S) ∧
  (∀ dst S S',
     wf_state S → removed_marked S →
     0 ≤ realize S < num_characters_orig S →
     realize_character dst S = Ok (true, S') →
     wf_state S' ∧ removed_marked S' ∧ removal_consistent S') ∧
  (∀ S, wf_state S → removed_marked S →
     ∃ S', cleanup S = Ok S' ∧
           wf_state S' ∧ removed_marked S' ∧ removal_consistent S').
Proof.
  split; [|split].
  - intros S Hwf Hco.
    pose proof (removed_marked_all_black S Hwf Hco) as Hrm.
    split; [done|]. by apply removal_consistent_wf.
  - intros dst S S' Hwf Hrm Hc Hrun.
    assert (Hgoal : wf_state S' ∧ removed_marked S');
      [|destruct Hgoal; split; [done|split; [done|]];
        by apply removal_consistent_wf].
    pose proof (wf_current_length S Hwf) as Hcs.
    pose proof Hwf as (Hn0 & Hm0 & Hsz & Hsp & Hco & Hch & Hvc & _).
    destruct (lookup_lt_is_Some_2 (colors S) (Z.to_nat (realize S)))
      as [color Hcol]; [lia|].
    destruct (lookup_lt_is_Some_2 (characters S) (Z.to_nat (realize S)))
      as [x Hx]; [lia|].
    rewrite (realize_character_wf dst S color) in Hrun by done.
    destruct (decide (color = BLACK)) as [->|Hnb];
      [|destruct (decide (color = RED)) as [->|Hnr]].
    + destruct (decide (x = 0)) as [->|Hx0].
      { by rewrite realize_tail_black_inactive in Hrun. }
      rewrite (realize_tail_black dst S x) in Hrun by done.
      injection Hrun as <-. split.
      * by apply wf_cleaned, (wf_black_child dst S x).
      * apply removed_marked_cleaned. unfold removed_marked. simpl.
        apply Forall2_insert; [done|]. unfold RED. lia.
    + destruct (decide (D_of S (realize S) = [])) as [HD|HD]; last first.
      { by rewrite realize_tail_red_reject in Hrun. }
      destruct (decide (x = 0)) as [->|Hx0].
      { by rewrite realize_tail_red_inactive in Hrun. }
      rewrite (realize_tail_red_accept dst S x) in Hrun by done.
      injection Hrun as <-. split.
      * by apply wf_cleaned, (wf_red_child dst S x).
      * apply removed_marked_cleaned. unfold removed_marked. simpl.
        by apply Forall2_insert.
    + rewrite realize_tail_other in Hrun by done.
      injection Hrun as <-. split.
      * by apply wf_cleaned.
      * by apply removed_marked_cleaned.
  - intros S Hwf Hrm. exists (cleaned S).
    split; [by apply cleanup_wf|].
    split; [by apply wf_cleaned|].
    split; [by apply removed_marked_cleaned|].
    apply removal_consistent_wf;
      [by apply wf_cleaned|by apply removed_marked_cleaned].
Qed.

Lemma C2_removal_invariant_witness :
  wf_state single_state ∧ removed_marked single_state ∧
  0 ≤ realize single_state < num_characters_orig single_state ∧
  ∃ S', realize_character zero_state single_state = Ok (true, S') ∧
        colors S' = [RED] ∧ current_states S' = [MINUS_ONE] ∧
        characters S' = [0] ∧
        wf_state S' ∧ removed_marked S' ∧ removal_consistent S'.
Proof.
  assert (H1 : wf_state single_state)
    by (apply (bool_decide_unpack _); vm_compute; reflexivity).
  assert (H2 : removed_marked single_state)
    by (apply (bool_decide_unpack _); vm_compute; reflexivity).
  assert (H3 : 0 ≤ realize single_state < num_characters_orig single_state)
    by (simpl; lia).
  assert (H4 : realize_character zero_state single_state =
               Ok (true, single_realized)) by apply single_state_realized.
  exact (conj H1 (conj H2 (conj H3 (ex_intro _ _
           (conj H4 (conj eq_refl (conj eq_refl (conj eq_refl
              (proj1 (proj2 C2_removal_invariant) zero_state single_state _
                 H1 H2 H3 H4))))))))).
Defined.

(** ** The error code of [check_state] *)

Lemma mask_bits (b0 b1 b2 b3 b4 : bool) :
  let err := (if b0 then 1 else 0) + (if b1 then 2 else 0)
             + (if b2 then 0 else 4) + (if b3 then 0 else 8)
             + (if b4 then 0 else 16) in
  0 ≤ err < 32 ∧
  Z.testbit err 0 = b0 ∧ Z.testbit err 1 = b1 ∧
  Z.testbit err 2 = negb b2 ∧ Z.testbit err 3 = negb b3 ∧
  Z.testbit err 4 = negb b4.
Proof. destruct b0, b1, b2, b3, b4; vm_compute; intuition congruence. Qed.

Lemma check_state_Ok (S : state_s) (err : Z) :
  check_state S = Ok err →
  err =
  (if (num_species S =? MINUS_ONE)
      || (num_species_orig S <? num_species S) then 1 else 0)
  + (if (num_characters S =? MINUS_ONE)
        || (num_characters_orig S <? num_characters S) then 2 else 0)
  + (if count_ne 0 (take (Z.to_nat (num_species_orig S)) (species S))
        =? num_species S then 0 else 4)
  + (if count_ne 0 (take (Z.to_nat (num_characters_orig S)) (characters S))
        =? num_characters S then 0 else 8)
  + (if count_ne MINUS_ONE
          (take (Z.to_nat (num_characters_orig S)) (current_states S))
        =? num_characters S then 0 else 16).
Proof.
  unfold check_state. intros H.
  apply bind_Ok in H as (sp & Hsp & H).
  apply bind_Ok in H as (ch & Hch & H).
  apply bind_Ok in H as (cs & Hcs & H).
  apply array_prefix_Ok in Hsp as [_ ->].
  apply array_prefix_Ok in Hch as [_ ->].
  apply array_prefix_Ok in Hcs as [_ ->].
  by injection H as <-.
Qed.

(** X1 ([check_state]): the value returned is a bit mask below 32.  Bit 0
    tells that [num_species] is [-1] or exceeds [num_species_orig], bit 1
    the same for the characters, bit 2 that the number of non-zero cells of
    [species] is not [num_species], bit 3 that the number of non-zero cells
    of [characters] is not [num_characters], bit 4 that the number of cells
    of [current_states] other than [-1] is not [num_characters]. *)
Theorem check_state_bit_mask (S : state_s) (err : Z) :
  check_state S = Ok err →
  0 ≤ err < 32 ∧
  (Z.testbit err 0 = true ↔
     num_species S = MINUS_ONE ∨ num_species_orig S < num_species S) ∧
  (Z.testbit err 1 = true ↔
     num_characters S = MINUS_ONE ∨
     num_characters_orig S < num_characters S) ∧
  (Z.testbit err 2 = true ↔
     count_ne 0 (take (Z.to_nat (num_species_orig S)) (species S))
     ≠ num_species S) ∧
  (Z.testbit err 3 = true ↔
     count_ne 0 (take (Z.to_nat (num_characters_orig S)) (characters S))
     ≠ num_characters S) ∧
  (Z.testbit err 4 = true ↔
     count_ne MINUS_ONE
       (take (Z.to_nat (num_characters_orig S)) (current_states S))
     ≠ num_characters S).
Proof.
  intros H. apply check_state_Ok in H. rewrite H. clear H.
  match goal with
  | |- context [(if ?b0 then 1 else 0) + (if ?b1 then 2 else 0)
                + (if ?b2 then 0 else 4) + (if ?b3 then 0 else 8)
                + (if ?b4 then 0 else 16)] =>
      destruct (mask_bits b0 b1 b2 b3 b4) as (Hr & -> & -> & -> & -> & ->)
  end.
  split; [done|].
  rewrite !orb_true_iff, !negb_true_iff, !Z.eqb_eq, !Z.ltb_lt, !Z.eqb_neq.
  done.
Qed.

Lemma check_state_bit_mask_witness :
  check_state (set_num_species 3 scenario6_loaded) = Ok 5 ∧
  0 ≤ 5 < 32 ∧
  Z.testbit 5 0 = true ∧ Z.testbit 5 1 = false ∧ Z.testbit 5 2 = true.
Proof.
  assert (H : check_state (set_num_species 3 scenario6_loaded) = Ok 5)
    by (vm_compute; reflexivity).
  pose proof (check_state_bit_mask _ _ H) as (Hr & _).
  split; [exact H|]. split; [exact Hr|]. vm_compute. done.
Defined.

(** X2 ([check_state]): the arrays enter the result only through the three
    counts.  Rearranging the cells of [species], [characters] or
    [current_states] leaves the error code as it is; in particular the
    function does not compare [characters[c]] with [current_states[c]]
    index by index. *)
Theorem check_state_counts_only (S : state_s) (sp ch cs : list Z) :
  length (species S) = Z.to_nat (num_species_orig S) →
  length (characters S) = Z.to_nat (num_characters_orig S) →
  length (current_states S) = Z.to_nat (num_characters_orig S) →
  species S ≡ₚ sp → characters S ≡ₚ ch → current_states S ≡ₚ cs →
  check_state (set_current_states cs (set_characters ch (set_species sp S)))
  = check_state S.
Proof.
  intros Hsp Hch Hcs Psp Pch Pcs. unfold check_state.
  cbn [species characters current_states num_species_orig
       num_characters_orig num_species num_characters set_current_states
       set_characters set_species].
  rewrite !array_prefix_all
    by (rewrite <- ?Psp, <- ?Pch, <- ?Pcs; assumption).
  rewrite !result_bind_Ok. unfold count_ne.
  by rewrite <- Psp, <- Pch, <- Pcs.
Qed.

Lemma check_state_counts_only_witness :
  check_state (set_current_states [0; MINUS_ONE]
                 (set_characters [0; 1] (set_species [0; 1]
                    scenario6_realized))) =
  check_state scenario6_realized.
Proof.
  apply check_state_counts_only; try reflexivity. apply perm_swap.
Defined.

(** ** Comparing and copying states *)

Lemma cmp_bits (b0 b1 b2 b3 b4 b5 b6 : bool) :
  let r := (if b0 then 0 else 1) + (if b1 then 0 else 2)
           + (if b2 then 0 else 4) + (if b3 then 0 else 8)
           + (if b4 then 0 else 16) + (if b5 then 0 else 32)
           + (if b6 then 0 else 64) in
  0 ≤ r < 128 ∧
  (r = 0 ↔ b0 = true ∧ b1 = true ∧ b2 = true ∧ b3 = true ∧ b4 = true ∧
           b5 = true ∧ b6 = true).
Proof.
  destruct b0, b1, b2, b3, b4, b5, b6; vm_compute; intuition congruence.
Qed.

(** X3 ([state_cmp]): the value returned is below 128, and it is 0 exactly
    when the two states have the same four counts and the same first
    [num_characters_orig] cells of [current_states] and [characters] and the
    same first [num_species_orig] cells of [species].  The colours,
    [operation], [realize], the matrix, the two lists and the two graphs
    are not compared. *)
Theorem state_cmp_zero_iff (S1 S2 : state_s) (r : Z) :
  state_cmp S1 S2 = Ok r →
  0 ≤ r < 128 ∧
  (r = 0 ↔
   num_characters S1 = num_characters S2 ∧
   num_species S1 = num_species S2 ∧
   num_characters_orig S1 = num_characters_orig S2 ∧
   num_species_orig S1 = num_species_orig S2 ∧
   take (Z.to_nat (num_characters_orig S2)) (current_states S1) =
   take (Z.to_nat (num_characters_orig S2)) (current_states S2) ∧
   take (Z.to_nat (num_species_orig S2)) (species S1) =
   take (Z.to_nat (num_species_orig S2)) (species S2) ∧
   take (Z.to_nat (num_characters_orig S2)) (characters S1) =
   take (Z.to_nat (num_characters_orig S2)) (characters S2)).
Proof.
  unfold state_cmp. intros H.
  apply bind_Ok in H as (cs1 & Hcs1 & H).
  apply bind_Ok in H as (cs2 & Hcs2 & H).
  apply bind_Ok in H as (sp1 & Hsp1 & H).
  apply bind_Ok in H as (sp2 & Hsp2 & H).
  apply bind_Ok in H as (ch1 & Hch1 & H).
  apply bind_Ok in H as (ch2 & Hch2 & H).
  apply array_prefix_Ok in Hcs1 as [_ ->], Hcs2 as [_ ->].
  apply array_prefix_Ok in Hsp1 as [_ ->], Hsp2 as [_ ->].
  apply array_prefix_Ok in Hch1 as [_ ->], Hch2 as [_ ->].
  injection H as <-.
  match goal with
  | |- context [(if ?b0 then 0 else 1) + (if ?b1 then 0 else 2)
                + (if ?b2 then 0 else 4) + (if ?b3 then 0 else 8)
                + (if ?b4 then 0 else 16) + (if ?b5 then 0 else 32)
                + (if ?b6 then 0 else 64)] =>
      destruct (cmp_bits b0 b1 b2 b3 b4 b5 b6) as (Hr & ->)
  end.
  split; [done|].
  by rewrite !Z.eqb_eq, !bool_decide_eq_true.
Qed.

Lemma state_cmp_zero_iff_witness :
  state_cmp (set_colors [RED; RED] scenario6_loaded) scenario6_loaded = Ok 0 ∧
  0 ≤ 0 < 128.
Proof.
  assert (H : state_cmp (set_colors [RED; RED] scenario6_loaded)
                scenario6_loaded = Ok 0) by (vm_compute; reflexivity).
  split; [exact H|]. exact (proj1 (state_cmp_zero_iff _ _ _ H)).
Defined.

Lemma init_state_value (stp : state_s) (n m : Z) :
  0 ≤ n → 0 ≤ m → n + m < 2147483648 →
  init_state stp n m =
  Ok (State n m n m (matrix stp) (replicate (Z.to_nat m) 0)
        (replicate (Z.to_nat n) 1) (replicate (Z.to_nat m) 1)
        (replicate (Z.to_nat m) BLACK) 0 0 (realized_char stp) [] []
        (Igraph (n + m) []) (Igraph m [])).
Proof.
  intros Hn Hm Hsz. unfold init_state.
  rewrite vertex_id_small by lia.
  rewrite to_igraph_integer_small by lia.
  unfold igraph_empty.
  destruct (0 <=? n + m) eqn:E1; [|apply Z.leb_gt in E1; lia].
  destruct (0 <=? m) eqn:E2; [|apply Z.leb_gt in E2; lia].
  done.
Qed.

Lemma wf_init_state (stp : state_s) (n m : Z) :
  0 ≤ n → 0 ≤ m → n + m < 2147483648 →
  wf_state (State n m n m (matrix stp) (replicate (Z.to_nat m) 0)
              (replicate (Z.to_nat n) 1) (replicate (Z.to_nat m) 1)
              (replicate (Z.to_nat m) BLACK) 0 0 (realized_char stp) [] []
              (Igraph (n + m) []) (Igraph m [])).
Proof.
  intros Hn Hm Hsz.
  apply (wf_loading stp n m (default [] (matrix stp)) [] []) in Hsz as Hwf;
    [|done..].
  exact Hwf.
Qed.

(** X4 ([init_state]): for counts [n], [m] whose sum fits a signed 32-bit
    integer, the initialised struct passes [check_state]: all [n] species
    and all [m] characters are active, every character is BLACK with
    current state 0, both lists are empty, [operation] and [realize] are 0,
    the red-black graph has [n + m] vertices and the conflict graph [m], both
    without edges.  The matrix pointer is not touched. *)
Theorem init_state_passes_check (stp : state_s) (n m : Z) :
  0 ≤ n → 0 ≤ m → n + m < 2147483648 →
  ∃ S, init_state stp n m = Ok S ∧
       check_state S = Ok 0 ∧
       num_species S = n ∧ num_characters S = m ∧
       count_ne 0 (species S) = n ∧ count_ne 0 (characters S) = m ∧
       Forall (λ x, x = 1) (species S) ∧
       Forall (λ x, x = 1) (characters S) ∧
       Forall (λ x, x = 0) (current_states S) ∧
       Forall (λ x, x = BLACK) (colors S) ∧
       length (colors S) = Z.to_nat m ∧
       operation S = 0 ∧ realize S = 0 ∧
       tried_characters S = [] ∧ character_queue S = [] ∧
       red_black S = Igraph (n + m) [] ∧ conflict S = Igraph m [] ∧
       matrix S = matrix stp.
Proof.
  intros Hn Hm Hsz. eexists. split; [by apply init_state_value|].
  pose proof (wf_init_state stp n m Hn Hm Hsz) as Hwf.
  split; [by apply check_state_wf|].
  cbn [num_species num_characters species characters current_states colors
       operation realize tried_characters character_queue red_black conflict
       matrix].
  rewrite !count_ne_replicate by done. rewrite !Z2Nat.id by done.
  rewrite length_replicate.
  repeat split; try done; by apply Forall_replicate.
Qed.

Lemma init_state_passes_check_witness :
  0 ≤ 2 ∧ 0 ≤ 3 ∧ 2 + 3 < 2147483648 ∧
  ∃ S, init_state scenario6_realized 2 3 = Ok S ∧ check_state S = Ok 0 ∧
       red_black S = Igraph 5 [].
Proof.
  split; [lia|]. split; [lia|]. split; [lia|].
  destruct (init_state_passes_check scenario6_realized 2 3) as (S & H);
    [lia..|].
  exists S. split; [apply H|]. split; apply H.
Defined.

(** X5 ([copy_state], [full_copy_state]): copying a well-formed state
    succeeds.  The copy has the counts, the arrays, the colours,
    [operation], [realize], the matrix pointer and both graphs of the
    source, it compares equal to the source under [state_cmp] in both
    directions, and its two lists are empty; [full_copy_state] gives the
    same struct with the two lists of the source. *)
Theorem copy_state_copies (dst S : state_s) :
  wf_state S →
  ∃ d, copy_state dst S = Ok d ∧
       full_copy_state dst S =
         Ok (set_tried_characters (tried_characters S)
               (set_character_queue (character_queue S) d)) ∧
       state_cmp d S = Ok 0 ∧ state_cmp S d = Ok 0 ∧
       wf_state d ∧
       num_species_orig d = num_species_orig S ∧
       num_characters_orig d = num_characters_orig S ∧
       num_species d = num_species S ∧
       num_characters d = num_characters S ∧
       matrix d = matrix S ∧
       current_states d = current_states S ∧
       species d = species S ∧
       characters d = characters S ∧
       colors d = colors S ∧
       operation d = operation S ∧
       realize d = realize S ∧
       red_black d = red_black S ∧
       conflict d = conflict S ∧
       tried_characters d = [] ∧ character_queue d = [] ∧
       realized_char d = realized_char dst.
Proof.
  intros Hwf. exists (copied dst S).
  split; [by apply copy_state_wf|].
  split; [unfold full_copy_state; by rewrite copy_state_wf|].
  split; [by apply state_cmp_same_arrays|].
  split; [by apply state_cmp_same_arrays; [apply wf_copied|..]|].
  split; [by apply wf_copied|]. done.
Qed.

Lemma copy_state_copies_witness :
  wf_state rejecting_state ∧
  ∃ d, copy_state zero_state rejecting_state = Ok d ∧
       colors d = colors rejecting_state.
Proof.
  assert (Hwf : wf_state rejecting_state) by exact wf_rejecting_state.
  split; [exact Hwf|].
  destruct (copy_state_copies zero_state rejecting_state Hwf) as (d & H).
  exists d. split; apply H.
Defined.

Lemma assert_check_state_fails (S : state_s) (err : Z) :
  check_state S = Ok err → err ≠ 0 →
  assert_check_state S = Abort AssertionFailure.
Proof.
  intros H Hne. unfold assert_check_state. rewrite H, result_bind_Ok.
  by destruct (Z.eqb_spec err 0).
Qed.

(** X6 ([copy_state], [realize_character]): a source that [check_state]
    flags with a non-zero code is refused.  Both functions stop on the
    failed assertion before anything is produced. *)
Theorem flagged_source_is_refused (dst S : state_s) (err : Z) :
  check_state S = Ok err → err ≠ 0 →
  copy_state dst S = Abort AssertionFailure ∧
  full_copy_state dst S = Abort AssertionFailure ∧
  realize_character dst S = Abort AssertionFailure.
Proof.
  intros H Hne.
  assert (Hc : copy_state dst S = Abort AssertionFailure).
  { unfold copy_state. by rewrite (assert_check_state_fails S err). }
  split; [done|].
  split; [unfold full_copy_state; by rewrite Hc|].
  unfold realize_character. by rewrite Hc.
Qed.

Lemma flagged_source_is_refused_witness :
  check_state (set_num_species 3 scenario6_loaded) = Ok 5 ∧ 5 ≠ 0 ∧
  realize_character zero_state (set_num_species 3 scenario6_loaded) =
  Abort AssertionFailure.
Proof.
  assert (H : check_state (set_num_species 3 scenario6_loaded) = Ok 5)
    by (vm_compute; reflexivity).
  assert (Hne : 5 ≠ 0) by lia.
  split; [exact H|]. split; [exact Hne|].
  exact (proj2 (proj2 (flagged_source_is_refused zero_state _ 5 H Hne))).
Defined.

(** ** Deleting a species or a character *)

(** X7 ([delete_species]): deleting an active species of a well-formed
    state succeeds and gives a well-formed state that passes
    [check_state].  The flag of the species is cleared and [num_species]
    goes down by one; the other flags, the characters, the colours and both
    graphs are left as they are, so the edges of the deleted species stay in
    the red-black graph. *)
Theorem delete_species_keeps_invariant (S : state_s) (s x : Z) :
  wf_state S → 0 ≤ s →
  species S !! Z.to_nat s = Some x → x ≠ 0 →
  ∃ S', delete_species S s = Ok S' ∧
        wf_state S' ∧ check_state S' = Ok 0 ∧
        num_species S' = num_species S - 1 ∧
        species S' = <[Z.to_nat s := 0]> (species S) ∧
        num_characters S' = num_characters S ∧
        characters S' = characters S ∧
        current_states S' = current_states S ∧
        colors S' = colors S ∧
        red_black S' = red_black S ∧ conflict S' = conflict S.
Proof.
  intros Hwf Hs Hx Hx0.
  destruct Hwf as (Hn0 & Hm0 & Hsz & Hsp & Hco & Hch & Hvc & Hn & Hm & Hu1
                   & Hu2 & Hu3 & Hag).
  pose proof (lookup_lt_Some _ _ _ Hx) as Hlt.
  assert (Hpos : (0 <? x) = true).
  { apply is_u32_nonzero_pos; [|done].
    exact (Forall_lookup_1 _ _ _ _ Hu1 Hx). }
  assert (Hc : count_ne 0 (<[Z.to_nat s := 0]> (species S)) =
               num_species S - 1).
  { erewrite count_ne_insert by done.
    rewrite decide_False, decide_True by done. lia. }
  pose proof (count_ne_bounds 0 (<[Z.to_nat s := 0]> (species S))) as Hb.
  rewrite length_insert in Hb.
  assert (Hwf' : wf_state
            (set_num_species (num_species S - 1)
               (set_species (<[Z.to_nat s := 0]> (species S)) S))).
  { unfold wf_state. simpl. rewrite length_insert.
    repeat split; try done. apply Forall_insert; [done|apply is_u32_0]. }
  eexists. split.
  - unfold delete_species.
    replace (s <? num_species_orig S) with true
      by (symmetry; apply Z.ltb_lt; lia).
    cbn [assert]. rewrite result_bind_Ok.
    rewrite (proj2 (array_get_Ok _ _ _) Hx), result_bind_Ok.
    rewrite Hpos. cbn [assert]. rewrite result_bind_Ok.
    rewrite (proj2 (array_set_Ok _ _ _ _) (conj Hlt eq_refl)), result_bind_Ok.
    rewrite u32_small by lia. reflexivity.
  - split; [done|]. split; [by apply check_state_wf|]. done.
Qed.

Lemma delete_species_keeps_invariant_witness :
  wf_state scenario6_loaded ∧ 0 ≤ 0 ∧
  species scenario6_loaded !! Z.to_nat 0 = Some 1 ∧ 1 ≠ 0 ∧
  ∃ S', delete_species scenario6_loaded 0 = Ok S' ∧
        check_state S' = Ok 0 ∧ red_black S' = red_black scenario6_loaded.
Proof.
  assert (Hwf : wf_state scenario6_loaded)
    by (apply (bool_decide_unpack _); vm_compute; reflexivity).
  assert (H0 : 0 ≤ 0) by lia.
  assert (Hx : species scenario6_loaded !! Z.to_nat 0 = Some 1)
    by reflexivity.
  assert (Hne : 1 ≠ 0) by lia.
  split; [exact Hwf|]. split; [exact H0|]. split; [exact Hx|].
  split; [exact Hne|].
  destruct (delete_species_keeps_invariant _ 0 1 Hwf H0 Hx Hne) as (S' & H).
  exists S'. split; [apply H|]. split; apply H.
Defined.

(** X8 ([delete_character]): deleting an active character of a well-formed
    state succeeds and gives a well-formed state that passes
    [check_state].  The flag is cleared, the current state becomes [-1] and
    [num_characters] goes down by one; the colour of the character, the
    species and both graphs are left as they are. *)
Theorem delete_character_keeps_invariant (S : state_s) (c x : Z) :
  wf_state S → 0 ≤ c →
  characters S !! Z.to_nat c = Some x → x ≠ 0 →
  ∃ S', delete_character S c = Ok S' ∧
        wf_state S' ∧ check_state S' = Ok 0 ∧
        num_characters S' = num_characters S - 1 ∧
        characters S' = <[Z.to_nat c := 0]> (characters S) ∧
        current_states S' =
          <[Z.to_nat c := MINUS_ONE]> (current_states S) ∧
        colors S' = colors S ∧
        num_species S' = num_species S ∧
        species S' = species S ∧
        red_black S' = red_black S ∧ conflict S' = conflict S.
Proof.
  intros Hwf Hc Hx Hx0. pose proof (wf_current_length S Hwf) as Hcs.
  destruct Hwf as (Hn0 & Hm0 & Hsz & Hsp & Hco & Hch & Hvc & Hn & Hm & Hu1
                   & Hu2 & Hu3 & Hag).
  pose proof (lookup_lt_Some _ _ _ Hx) as Hlt.
  assert (Hlt' : (Z.to_nat c < length (current_states S))%nat) by lia.
  destruct (lookup_lt_is_Some_2 _ _ Hlt') as [y Hy].
  assert (Hy1 : y ≠ MINUS_ONE).
  { intros ->. apply Hx0. by apply (Forall2_lookup_lr _ _ _ _ _ _ Hag Hx Hy). }
  assert (Hpos : (0 <? x) = true).
  { apply is_u32_nonzero_pos; [|done].
    exact (Forall_lookup_1 _ _ _ _ Hu2 Hx). }
  assert (Hcnt : count_ne 0 (<[Z.to_nat c := 0]> (characters S)) =
                 num_characters S - 1).
  { erewrite count_ne_insert by done.
    rewrite decide_False, decide_True by done. lia. }
  pose proof (count_ne_bounds 0 (<[Z.to_nat c := 0]> (characters S))) as Hb.
  rewrite length_insert in Hb.
  assert (Hwf' : wf_state
            (set_num_characters (num_characters S - 1)
               (set_current_states
                  (<[Z.to_nat c := MINUS_ONE]> (current_states S))
                  (set_characters (<[Z.to_nat c := 0]> (characters S)) S)))).
  { unfold wf_state. simpl. rewrite !length_insert.
    repeat split; try done.
    - apply Forall_insert; [done|apply is_u32_0].
    - apply Forall_insert; [done|apply is_u32_MINUS_ONE].
    - by apply Forall2_insert. }
  eexists. split.
  - unfold delete_character.
    replace (c <? num_characters_orig S) with true
      by (symmetry; apply Z.ltb_lt; lia).
    cbn [assert]. rewrite result_bind_Ok.
    rewrite (proj2 (array_get_Ok _ _ _) Hx), result_bind_Ok.
    rewrite Hpos. cbn [assert]. rewrite result_bind_Ok.
    rewrite (proj2 (array_get_Ok _ _ _) Hy), result_bind_Ok.
    replace (y =? MINUS_ONE) with false by (symmetry; by apply Z.eqb_neq).
    cbn [negb assert]. rewrite result_bind_Ok.
    rewrite (proj2 (array_set_Ok _ _ _ _) (conj Hlt eq_refl)), result_bind_Ok.
    rewrite (proj2 (array_set_Ok _ _ _ _) (conj Hlt' eq_refl)), result_bind_Ok.
    rewrite u32_small by lia. reflexivity.
  - split; [done|]. split; [by apply check_state_wf|]. done.
Qed.

Lemma delete_character_keeps_invariant_witness :
  wf_state scenario6_loaded ∧ 0 ≤ 1 ∧
  characters scenario6_loaded !! Z.to_nat 1 = Some 1 ∧ 1 ≠ 0 ∧
  ∃ S', delete_character scenario6_loaded 1 = Ok S' ∧
        check_state S' = Ok 0 ∧ colors S' = colors scenario6_loaded.
Proof.
  assert (Hwf : wf_state scenario6_loaded)
    by (apply (bool_decide_unpack _); vm_compute; reflexivity).
  assert (H0 : 0 ≤ 1) by lia.
  assert (Hx : characters scenario6_loaded !! Z.to_nat 1 = Some 1)
    by reflexivity.
  assert (Hne : 1 ≠ 0) by lia.
  split; [exact Hwf|]. split; [exact H0|]. split; [exact Hx|].
  split; [exact Hne|].
  destruct (delete_character_keeps_invariant _ 1 1 Hwf H0 Hx Hne)
    as (S' & H).
  exists S'. split; [apply H|]. split; apply H.
Defined.

(** ** What [cleanup] removes *)

Lemma lookup_mark_in (bound : Z) (iso : Z → Prop) `{!∀ z, Decision (iso z)}
    (x : Z) (l : list Z) (i : nat) (v : Z) :
  length l = Z.to_nat bound → l !! i = Some v →
  mark bound iso x l !! i = Some (if decide (iso (Z.of_nat i)) then x else v).
Proof.
  intros Hlen Hv. pose proof (lookup_lt_Some _ _ _ Hv) as Hlt.
  rewrite lookup_mark, Hv. simpl. f_equal.
  destruct (decide (iso (Z.of_nat i))) as [Hi|Hi].
  - rewrite decide_True; [done|]. split; [lia|done].
  - rewrite decide_False; [done|]. by intros [_ ?].
Qed.

Lemma count_ne_zero_iff (x : Z) (l : list Z) :
  count_ne x l = 0 ↔ Forall (λ v, v = x) l.
Proof.
  induction l as [|v l IH].
  - split; [by constructor|done].
  - rewrite count_ne_cons, Forall_cons.
    pose proof (count_ne_bounds x l) as Hb.
    destruct (decide (v = x)) as [->|Hne].
    + rewrite <- IH. split; [intros; split; [done|lia]|intros [_ ?]; lia].
    + split; [lia|by intros [? _]].
Qed.

(** X9 ([cleanup]): on a well-formed state the clean-up succeeds and
    deactivates exactly the isolated vertices.  Afterwards the flag of a
    species or character is 0 when no edge of the red-black graph touches
    its vertex and is unchanged otherwise, and the current state of a
    character without edges is [-1]; the result is well formed and passes
    [check_state].  The graphs, the colours, the matrix, [operation],
    [realize] and the two lists are not changed. *)
Theorem cleanup_removes_isolated (S : state_s) :
  wf_state S →
  ∃ S', cleanup S = Ok S' ∧ wf_state S' ∧ check_state S' = Ok 0 ∧
    red_black S' = red_black S ∧ conflict S' = conflict S ∧
    colors S' = colors S ∧ matrix S' = matrix S ∧
    operation S' = operation S ∧ realize S' = realize S ∧
    tried_characters S' = tried_characters S ∧
    character_queue S' = character_queue S ∧
    num_species_orig S' = num_species_orig S ∧
    num_characters_orig S' = num_characters_orig S ∧
    (∀ (s : nat) (x : Z), species S !! s = Some x →
       species S' !! s =
       Some (if decide (isolated (red_black S) (Z.of_nat s)) then 0 else x)) ∧
    (∀ (c : nat) (x : Z), characters S !! c = Some x →
       characters S' !! c =
       Some (if decide (isolated (red_black S)
                          (num_species_orig S + Z.of_nat c))
             then 0 else x)) ∧
    (∀ (c : nat) (y : Z), current_states S !! c = Some y →
       current_states S' !! c =
       Some (if decide (isolated (red_black S)
                          (num_species_orig S + Z.of_nat c))
             then MINUS_ONE else y)).
Proof.
  intros Hwf. pose proof (wf_current_length S Hwf) as Hcs.
  exists (cleaned S). split; [by apply cleanup_wf|].
  pose proof (wf_cleaned S Hwf) as Hwf'.
  split; [done|]. split; [by apply check_state_wf|].
  destruct Hwf as (Hn0 & Hm0 & Hsz & Hsp & Hco & Hch & _).
  do 10 (split; [done|]).
  unfold cleaned; cbn [species characters current_states].
  split; [|split].
  - intros s x Hx.
    by rewrite (lookup_mark_in _ (species_isolated S) 0 _ s x).
  - intros c x Hx.
    by rewrite (lookup_mark_in _ (character_isolated S) 0 _ c x).
  - intros c y Hy.
    by rewrite (lookup_mark_in _ (character_isolated S) MINUS_ONE _ c y).
Qed.

Lemma cleanup_removes_isolated_witness :
  wf_state scenario6_realized ∧
  ∃ S', cleanup scenario6_realized = Ok S' ∧ check_state S' = Ok 0 ∧
        red_black S' = red_black scenario6_realized.
Proof.
  assert (Hwf : wf_state scenario6_realized)
    by (apply (bool_decide_unpack _); vm_compute; reflexivity).
  split; [exact Hwf|].
  destruct (cleanup_removes_isolated _ Hwf) as (S' & H).
  exists S'. split; [apply H|]. split; apply H.
Defined.

Lemma mark_fixed_iff (bound : Z) (iso : Z → Prop) `{!∀ z, Decision (iso z)}
    (x : Z) (l : list Z) :
  length l = Z.to_nat bound →
  mark bound iso x l = l ↔
  ∀ (i : nat) (v : Z), l !! i = Some v → iso (Z.of_nat i) → v = x.
Proof.
  intros Hlen. split.
  - intros Hfix i v Hv Hi.
    pose proof (lookup_mark_in bound iso x l i v Hlen Hv) as Hm.
    rewrite Hfix, Hv, decide_True in Hm by done. congruence.
  - intros Hall. apply mark_id. intros i v Hv _ Hi. by eapply Hall.
Qed.

(** X10 ([cleanup]): a well-formed state is left exactly as it is by the
    clean-up if and only if every active species and every active character
    has an edge in the red-black graph. *)
Theorem cleanup_fixed_point_iff (S : state_s) :
  wf_state S → cleanup S = Ok S ↔ no_isolated_active S.
Proof.
  intros Hwf. rewrite cleanup_wf by done.
  pose proof (wf_current_length S Hwf) as Hcs.
  destruct Hwf as (Hn0 & Hm0 & Hsz & Hsp & Hco & Hch & Hvc & Hn & Hm & Hu1
                   & Hu2 & Hu3 & Hag).
  pose proof (mark_fixed_iff (num_species_orig S) (species_isolated S) 0
                (species S) Hsp) as Fsp.
  pose proof (mark_fixed_iff (num_characters_orig S) (character_isolated S) 0
                (characters S) Hch) as Fch.
  pose proof (mark_fixed_iff (num_characters_orig S) (character_isolated S)
                MINUS_ONE (current_states S) Hcs) as Fcs.
  split.
  - intros [= Hcl]. destruct S; unfold cleaned in Hcl; simpl in *.
    injection Hcl as _ _ E3 E1 E2. split.
    + intros s x Hx Hx0 Hiso. apply Hx0.
      by apply (proj1 Fsp E1 s x).
    + intros c x Hx Hx0 Hiso. apply Hx0.
      by apply (proj1 Fch E2 c x).
  - intros [Hs Hc].
    assert (E1 : mark (num_species_orig S) (species_isolated S) 0 (species S)
                 = species S).
    { apply Fsp. intros s x Hx Hiso. destruct (decide (x = 0)); [done|].
      by destruct (Hs s x). }
    assert (E2 : mark (num_characters_orig S) (character_isolated S) 0
                   (characters S) = characters S).
    { apply Fch. intros c x Hx Hiso. destruct (decide (x = 0)); [done|].
      by destruct (Hc c x). }
    assert (E3 : mark (num_characters_orig S) (character_isolated S)
                   MINUS_ONE (current_states S) = current_states S).
    { apply Fcs. intros c y Hy Hiso.
      destruct (lookup_lt_is_Some_2 (characters S) c) as [x Hx].
      { apply lookup_lt_Some in Hy. lia. }
      apply (Forall2_lookup_lr _ _ _ _ _ _ Hag Hx Hy).
      destruct (decide (x = 0)); [done|]. by destruct (Hc c x). }
    unfold cleaned. rewrite E1, E2, E3, Hn, Hm. by destruct S.
Qed.

Lemma cleanup_fixed_point_iff_witness :
  wf_state scenario6_loaded ∧
  (cleanup scenario6_loaded = Ok scenario6_loaded ↔
   no_isolated_active scenario6_loaded).
Proof.
  assert (Hwf : wf_state scenario6_loaded)
    by (apply (bool_decide_unpack _); vm_compute; reflexivity).
  split; [exact Hwf|]. exact (cleanup_fixed_point_iff _ Hwf).
Defined.

(** X11 ([cleanup], the test [num_species == 0] of [exhaustive_search]):
    after the clean-up of a well-formed state, [num_species] is 0 exactly
    when every species that was active has no edge, and [num_characters] is
    0 exactly when every character that was active has no edge.  On a state
    whose red-black graph has no edge both counts become 0. *)
Theorem cleanup_counts_zero_iff (S : state_s) :
  wf_state S →
  ∃ S', cleanup S = Ok S' ∧
    (num_species S' = 0 ↔
     ∀ (s : nat) (x : Z), species S !! s = Some x → x ≠ 0 →
       isolated (red_black S) (Z.of_nat s)) ∧
    (num_characters S' = 0 ↔
     ∀ (c : nat) (x : Z), characters S !! c = Some x → x ≠ 0 →
       isolated (red_black S) (num_species_orig S + Z.of_nat c)) ∧
    (edges (red_black S) = [] →
     num_species S' = 0 ∧ num_characters S' = 0).
Proof.
  intros Hwf. exists (cleaned S). split; [by apply cleanup_wf|].
  destruct Hwf as (Hn0 & Hm0 & Hsz & Hsp & Hco & Hch & _).
  unfold cleaned; cbn [num_species num_characters].
  rewrite !count_ne_zero_iff, !Forall_lookup.
  assert (A1 : (∀ (i : nat) (v : Z),
                  mark (num_species_orig S) (species_isolated S) 0 (species S)
                    !! i = Some v → v = 0) ↔
               ∀ (s : nat) (x : Z), species S !! s = Some x → x ≠ 0 →
                 isolated (red_black S) (Z.of_nat s)).
  { split.
    - intros Hall s x Hx Hx0.
      pose proof (lookup_mark_in _ (species_isolated S) 0 _ s x Hsp Hx) as Hl.
      apply Hall in Hl. by case_decide.
    - intros Hall i v Hv.
      destruct (lookup_lt_is_Some_2 (species S) i) as [x Hx].
      { apply lookup_lt_Some in Hv. by rewrite length_mark in Hv. }
      rewrite (lookup_mark_in _ (species_isolated S) 0 _ i x Hsp Hx) in Hv.
      injection Hv as <-. case_decide as Hiso; [done|].
      destruct (decide (x = 0)); [done|]. destruct Hiso. by apply (Hall i x). }
  assert (A2 : (∀ (i : nat) (v : Z),
                  mark (num_characters_orig S) (character_isolated S) 0
                    (characters S) !! i = Some v → v = 0) ↔
               ∀ (c : nat) (x : Z), characters S !! c = Some x → x ≠ 0 →
                 isolated (red_black S) (num_species_orig S + Z.of_nat c)).
  { split.
    - intros Hall c x Hx Hx0.
      pose proof (lookup_mark_in _ (character_isolated S) 0 _ c x Hch Hx)
        as Hl.
      apply Hall in Hl. by case_decide.
    - intros Hall i v Hv.
      destruct (lookup_lt_is_Some_2 (characters S) i) as [x Hx].
      { apply lookup_lt_Some in Hv. by rewrite length_mark in Hv. }
      rewrite (lookup_mark_in _ (character_isolated S) 0 _ i x Hch Hx) in Hv.
      injection Hv as <-. case_decide as Hiso; [done|].
      destruct (decide (x = 0)); [done|]. destruct Hiso. by apply (Hall i x). }
  split; [done|]. split; [done|].
  intros He. split.
  - apply A1. intros s x _ _. unfold isolated. by rewrite He.
  - apply A2. intros c x _ _. unfold isolated. by rewrite He.
Qed.

Lemma cleanup_counts_zero_iff_witness :
  wf_state single_realized ∧
  ∃ S', cleanup single_realized = Ok S' ∧
        num_species S' = 0 ∧ num_characters S' = 0.
Proof.
  assert (Hwf : wf_state single_realized)
    by (apply (bool_decide_unpack _); vm_compute; reflexivity).
  split; [exact Hwf|].
  destruct (cleanup_counts_zero_iff _ Hwf) as (S' & Hc & _ & _ & Hz).
  exists S'. split; [exact Hc|]. apply Hz. reflexivity.
Defined.

(** ** The outcomes of a realization *)

(** The four ways [realize_character] returns on a well-formed state. *)
Lemma realize_character_cases (dst S S' : state_s) (b : bool) (color : Z) :
  wf_state S →
  0 ≤ realize S < num_characters_orig S →
  colors S !! Z.to_nat (realize S) = Some color →
  realize_character dst S = Ok (b, S') →
  (color = BLACK ∧ b = true ∧ S' = cleaned (black_child dst S) ∧
   wf_state (black_child dst S)) ∨
  (color = RED ∧ D_of S (realize S) = [] ∧ b = true ∧
   S' = cleaned (red_child dst S) ∧ wf_state (red_child dst S)) ∨
  (color = RED ∧ D_of S (realize S) ≠ [] ∧ b = false ∧
   S' = set_operation 0 (detached dst S)) ∨
  (color ≠ BLACK ∧ color ≠ RED ∧ b = true ∧
   S' = cleaned (set_realize (realize S) (detached dst S))).
Proof.
  intros Hwf Hc Hcol Hrun.
  pose proof Hwf as (Hn0 & Hm0 & Hsz & Hsp & Hco & Hch & Hvc & _).
  destruct (lookup_lt_is_Some_2 (characters S) (Z.to_nat (realize S)))
    as [x Hx]; [lia|].
  rewrite (realize_character_wf dst S color) in Hrun by done.
  destruct (decide (color = BLACK)) as [->|Hb].
  { left. destruct (decide (x = 0)) as [->|Hx0].
    - by rewrite realize_tail_black_inactive in Hrun.
    - rewrite (realize_tail_black dst S x) in Hrun by done.
      injection Hrun as <- <-.
      split; [done|]. split; [done|]. split; [done|].
      by apply (wf_black_child dst S x). }
  destruct (decide (color = RED)) as [->|Hr].
  { right. destruct (decide (D_of S (realize S) = [])) as [HD|HD].
    - left. destruct (decide (x = 0)) as [->|Hx0].
      + by rewrite realize_tail_red_inactive in Hrun.
      + rewrite (realize_tail_red_accept dst S x) in Hrun by done.
        injection Hrun as <- <-.
        split; [done|]. split; [done|]. split; [done|]. split; [done|].
        by apply (wf_red_child dst S x).
    - right. left. rewrite realize_tail_red_reject in Hrun by done.
      by injection Hrun as <- <-. }
  right. right. right.
  rewrite realize_tail_other in Hrun by done. by injection Hrun as <- <-.
Qed.




Lemma lookup_colors_cleaned (S : state_s) : colors (cleaned S) = colors S.
Proof. done. Qed.



(** X13 ([realize_character]): the value returned and the [operation] code
    of the child, by colour.  On a well-formed state the function returns
    false exactly when the character is RED and some species of its
    component is not adjacent to it, and then [operation] is 0.  When it
    returns true, [operation] is 1 for a BLACK character, 2 for a RED one,
    and for any other colour it is the [operation] of the source, whatever
    that was, and the colours are unchanged. *)
Theorem realize_character_verdict (dst S S' : state_s) (b : bool)
    (color : Z) :
  wf_state S →
  0 ≤ realize S < num_characters_orig S →
  colors S !! Z.to_nat (realize S) = Some color →
  realize_character dst S = Ok (b, S') →
  (b = false ↔ color = RED ∧ D_of S (realize S) ≠ []) ∧
  (b = false → operation S' = 0) ∧
  (b = true → color = BLACK → operation S' = 1) ∧
  (b = true → color = RED → operation S' = 2) ∧
  (color ≠ BLACK → color ≠ RED →
   b = true ∧ operation S' = operation S ∧ colors S' = colors S).
Proof.
  intros Hwf Hc Hcol Hrun.
  pose proof BLACK_neq_RED as Hbr.
  destruct (realize_character_cases dst S S' b color Hwf Hc Hcol Hrun)
    as [(-> & -> & -> & _)|[(-> & HD & -> & -> & _)
       |[(-> & HD & -> & ->)|(Hb & Hr & -> & ->)]]].
  - split; [split; [done|by intros [? _]]|]. by repeat split.
  - split; [split; [done|by intros [_ ?]]|]. by repeat split.
  - split; [done|]. by repeat split.
  - split; [split; [done|by intros [? _]]|]. by repeat split.
Qed.

Lemma realize_character_verdict_witness :
  wf_state rejecting_state ∧
  0 ≤ realize rejecting_state < num_characters_orig rejecting_state ∧
  colors rejecting_state !! Z.to_nat (realize rejecting_state) = Some RED ∧
  ∃ S', realize_character zero_state rejecting_state = Ok (false, S') ∧
        operation S' = 0.
Proof.
  assert (Hwf : wf_state rejecting_state) by exact wf_rejecting_state.
  assert (Hc : 0 ≤ realize rejecting_state
               < num_characters_orig rejecting_state) by (vm_compute; done).
  assert (Hcol : colors rejecting_state
                   !! Z.to_nat (realize rejecting_state) = Some RED)
    by reflexivity.
  split; [exact Hwf|]. split; [exact Hc|]. split; [exact Hcol|].
  eexists. split; [vm_compute; reflexivity|].
  refine (proj1 (proj2
    (realize_character_verdict zero_state rejecting_state _ false RED
       Hwf Hc Hcol _)) eq_refl).
  vm_compute. reflexivity.
Defined.

(** ** The realization in terms of the red-black graph *)

(** X14 ([realize_character], BLACK): on a well-formed state whose edges
    join vertices of the graph, realizing an active BLACK character
    replaces the edges at its vertex [v]: the child keeps the edges of the
    source that do not touch [v] and gains one edge from [v] to every
    species that a path joins to [v] and that is not adjacent to [v], and
    has no other edge. *)
Theorem realize_black_links_component (dst S : state_s) :
  wf_state S → valid_edges (red_black S) →
  0 ≤ realize S < num_characters_orig S →
  colors S !! Z.to_nat (realize S) = Some BLACK →
  characters S !! Z.to_nat (realize S) ≠ Some 0 →
  ∃ S', realize_character dst S = Ok (true, S') ∧
    ∀ e, e ∈ edges (red_black S') ↔
      (e ∈ edges (red_black S) ∧
       incident (num_species_orig S + realize S) e = false) ∨
      (∃ u, e = (num_species_orig S + realize S, u) ∧
            0 ≤ u < num_species_orig S ∧
            rtc (adjacent (red_black S)) (num_species_orig S + realize S) u ∧
            ¬ adjacent (red_black S) (num_species_orig S + realize S) u).
Proof.
  intros Hwf Hval Hc Hcol Hact.
  pose proof Hwf as (Hn0 & Hm0 & Hsz & Hsp & Hco & Hch & Hvc & _).
  destruct (lookup_lt_is_Some_2 (characters S) (Z.to_nat (realize S)))
    as [x Hx]; [lia|].
  assert (Hx0 : x ≠ 0) by congruence.
  exists (cleaned (black_child dst S)). split.
  - rewrite (realize_character_wf dst S BLACK) by done.
    by apply (realize_tail_black dst S x).
  - intros e. cbn [cleaned black_child red_black edges].
    rewrite elem_of_app, list_elem_of_fmap.
    unfold igraph_delete_incident. cbn [edges].
    rewrite list_elem_of_filter. split.
    + intros [[? ?]|(u & -> & Hu)]; [by left|right].
      exists u. split; [done|].
      by apply (elem_of_D_of S (realize S) u Hwf Hval Hc).
    + intros [[? ?]|(u & -> & Hu)]; [by left|right].
      exists u. split; [done|].
      by apply (elem_of_D_of S (realize S) u Hwf Hval Hc).
Qed.

Lemma realize_black_links_component_witness :
  wf_state scenario6_loaded ∧ valid_edges (red_black scenario6_loaded) ∧
  0 ≤ realize (set_realize 1 scenario6_loaded)
    < num_characters_orig scenario6_loaded ∧
  ∃ S', realize_character zero_state (set_realize 1 scenario6_loaded)
        = Ok (true, S') ∧
        ((3, 0) ∈ edges (red_black S') ↔
         ((3, 0) ∈ edges (red_black scenario6_loaded) ∧
          incident 3 (3, 0) = false) ∨
         (∃ u, (3, 0) = (3, u) ∧ 0 ≤ u < 2 ∧
               rtc (adjacent (red_black scenario6_loaded)) 3 u ∧
               ¬ adjacent (red_black scenario6_loaded) 3 u)).
Proof.
  assert (Hwf : wf_state (set_realize 1 scenario6_loaded))
    by (apply (bool_decide_unpack _); vm_compute; reflexivity).
  assert (Hval : valid_edges (red_black (set_realize 1 scenario6_loaded))).
  { unfold valid_edges. simpl. repeat constructor; simpl; lia. }
  assert (Hc : 0 ≤ realize (set_realize 1 scenario6_loaded)
               < num_characters_orig (set_realize 1 scenario6_loaded))
    by (vm_compute; done).
  split; [exact Hwf|]. split; [exact Hval|]. split; [exact Hc|].
  destruct (realize_black_links_component zero_state
              (set_realize 1 scenario6_loaded) Hwf Hval Hc)
    as (S' & Hrun & He); [reflexivity|discriminate|].
  exists S'. split; [exact Hrun|]. exact (He (3, 0)).
Defined.

(** X15 ([realize_character], RED): on a well-formed state whose edges join
    vertices of the graph, the realization of a RED character is rejected
    (the function returns false) exactly when some species is joined to the
    vertex of the character by a path without being adjacent to it. *)
Theorem realize_red_rejects_iff (dst S S' : state_s) (b : bool) :
  wf_state S → valid_edges (red_black S) →
  0 ≤ realize S < num_characters_orig S →
  colors S !! Z.to_nat (realize S) = Some RED →
  realize_character dst S = Ok (b, S') →
  b = false ↔
  ∃ u, 0 ≤ u < num_species_orig S ∧
       rtc (adjacent (red_black S)) (num_species_orig S + realize S) u ∧
       ¬ adjacent (red_black S) (num_species_orig S + realize S) u.
Proof.
  intros Hwf Hval Hc Hcol Hrun.
  pose proof BLACK_neq_RED as Hbr.
  assert (HD : D_of S (realize S) ≠ [] ↔
               ∃ u, 0 ≤ u < num_species_orig S ∧
                    rtc (adjacent (red_black S))
                      (num_species_orig S + realize S) u ∧
                    ¬ adjacent (red_black S)
                        (num_species_orig S + realize S) u).
  { split.
    - intros Hne. destruct (D_of S (realize S)) as [|u l] eqn:E; [done|].
      exists u. apply (elem_of_D_of S (realize S) u Hwf Hval Hc).
      rewrite E. apply list_elem_of_here.
    - intros (u & Hu) E.
      apply (elem_of_D_of S (realize S) u Hwf Hval Hc) in Hu.
      rewrite E in Hu. by apply elem_of_nil in Hu. }
  rewrite <- HD.
  destruct (realize_character_cases dst S S' b RED Hwf Hc Hcol Hrun)
    as [(E & _)|[(_ & HD' & -> & _)|[(_ & HD' & -> & _)|(_ & Hr & _)]]];
    done.
Qed.

Lemma realize_red_rejects_iff_witness :
  wf_state rejecting_state ∧ valid_edges (red_black rejecting_state) ∧
  ∃ S', realize_character zero_state rejecting_state = Ok (false, S') ∧
        (false = false ↔
         ∃ u, 0 ≤ u < 2 ∧
              rtc (adjacent (red_black rejecting_state)) 2 u ∧
              ¬ adjacent (red_black rejecting_state) 2 u).
Proof.
  assert (Hwf : wf_state rejecting_state) by exact wf_rejecting_state.
  assert (Hval : valid_edges (red_black rejecting_state)).
  { unfold valid_edges. simpl. repeat constructor; simpl; lia. }
  assert (Hc : 0 ≤ realize rejecting_state
               < num_characters_orig rejecting_state) by (vm_compute; done).
  split; [exact Hwf|]. split; [exact Hval|].
  eexists. split; [vm_compute; reflexivity|].
  refine (realize_red_rejects_iff zero_state rejecting_state _ false
            Hwf Hval Hc eq_refl _).
  vm_compute. reflexivity.
Defined.

(** ** The accessors of the matrix *)

Lemma array_get_set_eq (l l' : list Z) (i v : Z) :
  array_set l i v = Ok l' → array_get l' i = Ok v.
Proof.
  intros [Hlt ->]%array_set_Ok. apply array_get_Ok.
  by apply list_lookup_insert_eq.
Qed.

Lemma array_get_set_ne (l l' : list Z) (i j v : Z) :
  0 ≤ i → 0 ≤ j → i ≠ j →
  array_set l i v = Ok l' → array_get l' j = array_get l j.
Proof.
  intros Hi Hj Hne [Hlt ->]%array_set_Ok. unfold array_get.
  rewrite list_lookup_insert_ne by lia. done.
Qed.

Lemma u32_range (z : Z) : 0 ≤ u32 z < 4294967296.
Proof. unfold u32. apply Z.mod_pos_bound. lia. Qed.

(** X16 ([matrix_set_value], [matrix_get_value]): a cell that has been
    written is read back.  After [matrix_set_value(stp, s, c, x)] the call
    [matrix_get_value(stp, s, c)] gives [x], every cell at another index of
    the array reads as before, in particular every other cell [(s', c')]
    with [c, c' < num_characters] of a matrix of fewer than [2^32] cells,
    and no field but the matrix is changed. *)
Theorem matrix_set_then_get (S S' : state_s) (s c x : Z) :
  matrix_set_value S s c x = Ok S' →
  matrix_get_value S' s c = Ok x ∧
  (∀ s' c',
     u32 (c' + num_characters S * s') ≠ u32 (c + num_characters S * s) →
     matrix_get_value S' s' c' = matrix_get_value S s' c') ∧
  (∀ s' c',
     0 ≤ s → 0 ≤ s' → 0 ≤ c < num_characters S → 0 ≤ c' < num_characters S →
     c + num_characters S * s < 4294967296 →
     c' + num_characters S * s' < 4294967296 →
     (s', c') ≠ (s, c) →
     matrix_get_value S' s' c' = matrix_get_value S s' c') ∧
  set_matrix (matrix S) S' = S.
Proof.
  unfold matrix_set_value. destruct (matrix S) as [mx|] eqn:Emx; [|done].
  intros H. apply bind_Ok in H as (mx' & Hset & H). injection H as <-.
  assert (Hother : ∀ s' c',
     u32 (c' + num_characters S * s') ≠ u32 (c + num_characters S * s) →
     matrix_get_value (set_matrix (Some mx') S) s' c' =
     matrix_get_value S s' c').
  { intros s' c' Hne. unfold matrix_get_value. rewrite Emx.
    cbn [matrix set_matrix num_characters].
    apply (array_get_set_ne mx mx' (u32 (c + num_characters S * s)) _ x);
      [apply u32_range|apply u32_range|done|done]. }
  split; [|split; [done|split]].
  - unfold matrix_get_value. cbn [matrix set_matrix num_characters].
    by apply (array_get_set_eq mx).
  - intros s' c' Hs Hs' Hc Hc' Hb Hb' Hne. apply Hother.
    rewrite !u32_small by nia. intros E. apply Hne.
    destruct (index_inj (num_characters S) s' c' s c) as [-> ->];
      [done|done|lia|done].
  - destruct S. simpl in *. by rewrite Emx.
Qed.

Lemma matrix_set_then_get_witness :
  ∃ S', matrix_set_value scenario6_loaded 1 0 7 = Ok S' ∧
        matrix_get_value S' 1 0 = Ok 7 ∧
        matrix_get_value S' 0 1 = matrix_get_value scenario6_loaded 0 1.
Proof.
  eexists. split; [vm_compute; reflexivity|].
  match goal with
  | |- matrix_get_value ?S' _ _ = _ ∧ _ =>
      pose proof (matrix_set_then_get scenario6_loaded S' 1 0 7) as H
  end.
  destruct H as (H1 & H2 & _); [vm_compute; reflexivity|].
  split; [exact H1|]. apply H2. vm_compute. discriminate.
Defined.

(** ** Loops that stop *)

Lemma for_loop_app {A} (body : Z → A → result A) (k1 k2 : nat) :
  ∀ (lo : Z) (a : A),
    for_loop body lo (k1 + k2) a =
    for_loop body lo k1 a ≫= for_loop body (lo + Z.of_nat k1) k2.
Proof.
  induction k1 as [|k1 IH]; intros lo a.
  - simpl. by rewrite Z.add_0_r.
  - cbn [for_loop Nat.add]. destruct (body lo a) as [a'|e]; [|done].
    rewrite !result_bind_Ok, IH. do 2 f_equal. lia.
Qed.

Lemma for_range_split {A} (body : Z → A → result A) (lo mid hi : Z) (a : A) :
  lo ≤ mid ≤ hi →
  for_range lo hi body a = for_range lo mid body a ≫= for_range mid hi body.
Proof.
  intros H. unfold for_range.
  replace (Z.to_nat (hi - lo))
    with (Z.to_nat (mid - lo) + Z.to_nat (hi - mid))%nat by lia.
  rewrite for_loop_app. do 3 f_equal. lia.
Qed.

Lemma for_range_unroll {A} (body : Z → A → result A) (lo hi : Z) (a : A) :
  lo < hi →
  for_range lo hi body a = body lo a ≫= for_range (lo + 1) hi body.
Proof.
  intros H. unfold for_range.
  replace (Z.to_nat (hi - lo)) with (S (Z.to_nat (hi - (lo + 1)))) by lia.
  done.
Qed.

Lemma for_range_stops {A} (P : Z → A → Prop) (body : Z → A → result A)
    (lo q hi : Z) (a : A) (e : failure) :
  lo ≤ q < hi →
  P lo a →
  (∀ i x, lo ≤ i < q → P i x → ∃ x', body i x = Ok x' ∧ P (i + 1) x') →
  (∀ x, P q x → body q x = Abort e) →
  for_range lo hi body a = Abort e.
Proof.
  intros Hq Ha Hstep Hstop.
  rewrite (for_range_split body lo q hi) by lia.
  destruct (for_range_invariant P body lo q a) as (a' & -> & Ha');
    [lia|done|done|].
  rewrite result_bind_Ok, for_range_unroll by lia.
  by rewrite (Hstop a' Ha').
Qed.

Lemma nested_range_stops {A} (P : Z → A → Prop)
    (body : Z → Z → A → result A) (n m q : Z) (a : A) (e : failure) :
  0 ≤ n → 0 < m → 0 ≤ q < n * m →
  P 0 a →
  (∀ s c x, 0 ≤ s < n → 0 ≤ c < m → s * m + c < q → P (s * m + c) x →
     ∃ x', body s c x = Ok x' ∧ P (s * m + c + 1) x') →
  (∀ s c x, 0 ≤ s < n → 0 ≤ c < m → s * m + c = q → P q x →
     body s c x = Abort e) →
  for_range 0 n (λ s x, for_range 0 m (λ c x, body s c x) x) a = Abort e.
Proof.
  intros Hn Hm Hq Ha Hstep Hstop.
  pose proof (Z.div_mod q m ltac:(lia)) as Hdm.
  pose proof (Z.mod_pos_bound q m Hm) as Hmod.
  set (s0 := q / m) in *. set (c0 := q mod m) in *.
  assert (Hs0 : 0 ≤ s0 < n) by nia.
  apply (for_range_stops (λ s x, P (s * m) x) _ 0 s0 n a e);
    [lia|done| |].
  - intros s x Hs Hx.
    destruct (for_range_invariant (λ c y, P (s * m + c) y)
                (λ c y, body s c y) 0 m x) as (x' & Hrun & Hx');
      [lia| | |].
    + by replace (s * m + 0) with (s * m) by lia.
    + intros c y Hc Hy.
      destruct (Hstep s c y) as (y' & Hy' & HP); [lia|lia|nia|done|].
      exists y'. split; [done|].
      by replace (s * m + (c + 1)) with (s * m + c + 1) by lia.
    + exists x'. split; [done|].
      by replace ((s + 1) * m) with (s * m + m) by lia.
  - intros x Hx.
    apply (for_range_stops (λ c y, P (s0 * m + c) y) _ 0 c0 m x e);
      [lia| | |].
    + by replace (s0 * m + 0) with (s0 * m) by lia.
    + intros c y Hc Hy.
      destruct (Hstep s0 c y) as (y' & Hy' & HP); [lia|lia|nia|done|].
      exists y'. split; [done|].
      by replace (s0 * m + (c + 1)) with (s0 * m + c + 1) by lia.
    + intros y Hy. apply (Hstop s0 c0 y); [lia|lia|lia|].
      by replace q with (s0 * m + c0) by lia.
Qed.

(** ** The loader on an open stream *)

Lemma loader_header (fs : gmap string file_content)
    (global_props : instances_schema_s) (stp : state_s) (n m : Z)
    (stream : list Z) (pad : bool) :
  file global_props = None →
  fs !! filename global_props =
    Some (TextFile (Stream (n :: m :: stream) pad)) →
  is_u32 n → is_u32 m →
  read_instance_from_filename fs global_props stp =
  read_instance_from_filename fs
    (Schema (Some (Stream stream pad)) (filename global_props) n m) stp.
Proof.
  intros Hfile Hfs Hn Hm. unfold read_instance_from_filename.
  rewrite Hfile, Hfs. cbn [file pending padded].
  rewrite !result_bind_ret. by rewrite (u32_small n), (u32_small m).
Qed.

Lemma loader_start (fs : gmap string file_content)
    (global_props : instances_schema_s) (stp : state_s) (n m : Z)
    (stream : text_stream) :
  file global_props = Some stream →
  schema_num_species global_props = n →
  schema_num_characters global_props = m →
  0 ≤ n → 0 ≤ m → n + m < 2147483648 →
  read_instance_from_filename fs global_props stp =
  (st ← for_range 0 n (λ s st, for_range 0 m (λ c st, fill_body s c st) st)
          (Fill stream
             (loading stp n m (replicate (Z.to_nat (u32 (n * m))) 0) [] [])
             false);
   let global_props := Schema (Some (fill_stream st)) (filename global_props)
                         n m in
   if fill_eof st then mret (global_props, false, fill_stp st)
   else
     let stp := fill_stp st in
     stp ← for_range 0 (num_species stp) (λ s stp,
              for_range 0 (num_characters stp) (λ c stp,
                red_black_body s c stp) stp) stp;
     stp ← for_range 0 (num_characters stp) (λ c1 stp,
              for_range (c1 + 1) (num_characters stp) (λ c2 stp,
                conflict_body c1 c2 stp) stp) stp;
     assert_check_state stp;;
     mret (global_props, true, stp)).
Proof.
  intros Hfile Hn' Hm' Hn Hm Hsz. unfold read_instance_from_filename.
  rewrite Hfile, result_bind_ret, Hn', Hm'.
  rewrite init_state_value by done. rewrite result_bind_Ok.
  change (set_matrix _ _)
    with (loading stp n m (replicate (Z.to_nat (u32 (n * m))) 0) [] []).
  cbn [num_species num_characters loading]. rewrite Hfile. reflexivity.
Qed.

Lemma loader_open (fs : gmap string file_content)
    (global_props : instances_schema_s) (stp : state_s) (n m : Z)
    (cells rest : list Z) (pad : bool) :
  file global_props = Some (Stream (cells ++ rest) pad) →
  schema_num_species global_props = n →
  schema_num_characters global_props = m →
  0 ≤ n → 0 ≤ m → n + m < 2147483648 → n * m < 4294967296 →
  length cells = Z.to_nat (n * m) →
  Forall binary cells →
  followed rest pad →
  ∃ rb cg,
    read_instance_from_filename fs global_props stp =
    Ok (Schema (Some (Stream rest pad)) (filename global_props) n m, true,
        loading stp n m cells rb cg) ∧
    red_black_upto cells n m (n * m) rb ∧
    conflict_upto cells n m m (m + 1) cg.
Proof.
  intros Hfile Hn' Hm' Hn Hm Hsz Hnm Hlen Hbin Hend.
  destruct (red_black_loop stp n m cells) as (rb & Hrb & Hrbs); [done..|].
  destruct (conflict_loop stp n m cells rb) as (cg & Hcg & Hcgs); [done..|].
  exists rb, cg. split; [|done].
  rewrite (loader_start fs global_props stp n m (Stream (cells ++ rest) pad))
    by done.
  rewrite u32_small by lia.
  rewrite fill_loop
    by (done || by eapply Forall_impl; [done|apply binary_is_u32]).
  ok_steps.
  cbn [fill_eof fill_stp fill_stream num_species num_characters loading].
  rewrite Hrb. ok_steps. cbn [num_characters loading].
  rewrite Hcg. ok_steps.
  rewrite assert_check_state_wf by (by apply wf_loading).
  by ok_steps.
Qed.

Lemma fill_body_eof (s c : Z) (st : fill_state) :
  fill_eof st = true → fill_body s c st = Ok st.
Proof. intros H. unfold fill_body. by rewrite H. Qed.

Lemma fill_body_first (stp : state_s) (pad : bool) :
  fill_body 0 0 (Fill (Stream [] pad) stp false) =
  Ok (Fill (Stream [] pad) stp true).
Proof. done. Qed.

Lemma loader_eof (fs : gmap string file_content)
    (global_props : instances_schema_s) (stp : state_s) (n m : Z)
    (pad : bool) :
  file global_props = Some (Stream [] pad) →
  schema_num_species global_props = n →
  schema_num_characters global_props = m →
  0 < n → 0 < m → n + m < 2147483648 →
  read_instance_from_filename fs global_props stp =
  Ok (Schema (Some (Stream [] pad)) (filename global_props) n m, false,
      loading stp n m (replicate (Z.to_nat (u32 (n * m))) 0) [] []).
Proof.
  intros Hfile Hn' Hm' Hn Hm Hsz.
  rewrite (loader_start fs global_props stp n m (Stream [] pad))
    by (done || lia).
  set (st0 := loading stp n m (replicate (Z.to_nat (u32 (n * m))) 0) [] []).
  assert (Hfill :
    for_range 0 n (λ s st, for_range 0 m (λ c st, fill_body s c st) st)
      (Fill (Stream [] pad) st0 false) = Ok (Fill (Stream [] pad) st0 true)).
  { rewrite for_range_unroll by lia.
    rewrite (for_range_unroll _ 0 m) by lia.
    rewrite fill_body_first. ok_steps.
    rewrite for_range_fixed by (intros; by apply fill_body_eof).
    ok_steps. apply for_range_fixed. intros s Hs.
    apply for_range_fixed. intros; by apply fill_body_eof. }
  rewrite Hfill. by ok_steps.
Qed.

Lemma feof_more (x : Z) (l : list Z) (pad : bool) :
  feof (Stream (x :: l) pad) = false.
Proof. done. Qed.

Lemma loader_truncated (fs : gmap string file_content)
    (global_props : instances_schema_s) (stp : state_s) (n m : Z)
    (cells : list Z) :
  file global_props = Some (Stream cells true) →
  schema_num_species global_props = n →
  schema_num_characters global_props = m →
  0 < n → 0 < m → n + m < 2147483648 → n * m < 4294967296 →
  (0 < length cells)%nat → Z.of_nat (length cells) < n * m →
  read_instance_from_filename fs global_props stp = Abort AssertionFailure.
Proof.
  intros Hfile Hn' Hm' Hn Hm Hsz Hnm Hpos Hshort.
  rewrite (loader_start fs global_props stp n m (Stream cells true))
    by (done || lia).
  rewrite u32_small by nia.
  set (P := λ (p : Z) (st : fill_state),
    st = Fill (Stream (drop (Z.to_nat p) cells) true)
           (loading stp n m
              (take (Z.to_nat p) (map u32 cells)
               ++ replicate (Z.to_nat (n * m) - Z.to_nat p) 0) [] [])
           false).
  rewrite (nested_range_stops P fill_body n m (Z.of_nat (length cells))
             _ AssertionFailure); [done|lia|lia|lia| | |].
  - unfold P. simpl. by rewrite Nat.sub_0_r.
  - intros s c st Hs Hc Hp ->.
    destruct (lookup_lt_is_Some_2 cells (Z.to_nat (s * m + c))) as [x Hx];
      [lia|].
    unfold fill_body. cbn [fill_eof fill_stream fill_stp].
    unfold fscanf_u32. cbn [pending padded].
    rewrite (drop_S _ _ _ Hx).
    replace (feof (Stream (drop (S (Z.to_nat (s * m + c))) cells) true))
      with false by (unfold feof; cbn [pending padded]; by destruct (drop _ _)).
    unfold matrix_set_value. cbn [matrix loading num_characters].
    replace (c + m * s) with (s * m + c) by lia.
    rewrite (u32_small (s * m + c)) by nia. unfold array_set.
    rewrite decide_True
      by (rewrite length_app, length_take_le, length_replicate;
          rewrite ?length_map; lia).
    ok_steps. eexists. split; [reflexivity|]. unfold P.
    replace (Z.to_nat (s * m + c + 1)) with (S (Z.to_nat (s * m + c)))
      by lia.
    rewrite fill_matrix_step; [done| |lia].
    by rewrite list_lookup_fmap, Hx.
  - intros s c st Hs Hc Hp ->.
    unfold fill_body. cbn [fill_eof fill_stream fill_stp].
    unfold fscanf_u32. cbn [pending padded].
    rewrite drop_ge by lia.
    replace ((s =? 0) && (c =? 0)) with false; [done|].
    symmetry. apply andb_false_iff.
    destruct (Z.eqb_spec s 0) as [->|]; [|by left].
    destruct (Z.eqb_spec c 0) as [->|]; [|by right]. lia.
Qed.

Lemma loader_unpadded (fs : gmap string file_content)
    (global_props : instances_schema_s) (stp : state_s) (n m : Z)
    (cells : list Z) :
  file global_props = Some (Stream cells false) →
  schema_num_species global_props = n →
  schema_num_characters global_props = m →
  0 < n → 0 < m → n + m < 2147483648 → n * m < 4294967296 →
  (0 < length cells)%nat → Z.of_nat (length cells) ≤ n * m →
  read_instance_from_filename fs global_props stp =
  Ok (Schema (Some (Stream [] false)) (filename global_props) n m, false,
      loading stp n m
        (take (length cells - 1) (map u32 cells)
         ++ replicate (Z.to_nat (n * m) - (length cells - 1)) 0) [] []).
Proof.
  intros Hfile Hn' Hm' Hn Hm Hsz Hnm Hpos Hlen.
  rewrite (loader_start fs global_props stp n m (Stream cells false))
    by (done || lia).
  rewrite u32_small by nia.
  destruct (nested_range_invariant
              (λ p st, st = fill_unpadded stp n m cells p)
              fill_body (λ _, m) n m
              (Fill (Stream cells false)
                 (loading stp n m (replicate (Z.to_nat (n * m)) 0) [] [])
                 false)) as (st & Hrun & ->); [lia|lia|done| | |].
  - unfold fill_unpadded. rewrite decide_True by lia. simpl.
    by rewrite Nat.sub_0_r.
  - intros s c st Hs Hc ->. unfold fill_unpadded.
    assert (Hp : 0 ≤ s * m + c < n * m) by nia.
    destruct (decide (s * m + c < Z.of_nat (length cells))) as [Hin|Hout].
    + destruct (lookup_lt_is_Some_2 cells (Z.to_nat (s * m + c)))
        as [x Hx]; [lia|].
      unfold fill_body. cbn [fill_eof fill_stream fill_stp].
      unfold fscanf_u32. cbn [pending padded].
      rewrite (drop_S _ _ _ Hx).
      destruct (decide (s * m + c + 1 < Z.of_nat (length cells)))
        as [Hmore|Hlast].
      * destruct (lookup_lt_is_Some_2 cells (S (Z.to_nat (s * m + c))))
          as [y Hy]; [lia|].
        rewrite (drop_S _ _ _ Hy), feof_more.
        unfold matrix_set_value. cbn [matrix loading num_characters].
        replace (c + m * s) with (s * m + c) by lia.
        rewrite (u32_small (s * m + c)) by nia. unfold array_set.
        rewrite decide_True
          by (rewrite length_app, length_take_le, length_replicate;
              rewrite ?length_map; lia).
        ok_steps. eexists. split; [reflexivity|].
        replace (Z.to_nat (s * m + c + 1))
          with (S (Z.to_nat (s * m + c))) by lia.
        rewrite fill_matrix_step; [|by rewrite list_lookup_fmap, Hx|lia].
        by rewrite (drop_S _ _ _ Hy).
      * rewrite drop_ge by lia. cbn [feof pending padded negb].
        eexists. split; [reflexivity|].
        by replace (Z.to_nat (s * m + c)) with (length cells - 1)%nat by lia.
    + rewrite decide_False by lia. eexists. split; [|done].
      by apply fill_body_eof.
  - rewrite Hrun. unfold fill_unpadded. rewrite decide_False by lia.
    by ok_steps.
Qed.

(** X17 ([read_instance_from_filename]): the instances of a file are read
    one after the other.  On a file that ends with white space and holds the
    header [n m], both positive, followed by two binary matrices of [n * m]
    cells, the first
    call opens the file and returns true with the first matrix, a second
    call with the schema the first one left returns true with the second
    matrix, and a third call finds the end of the stream and returns
    false. *)
Theorem loader_reads_instances_in_turn (fs : gmap string file_content)
    (global_props : instances_schema_s) (stp1 stp2 stp3 : state_s)
    (n m : Z) (cells1 cells2 : list Z) :
  file global_props = None →
  fs !! filename global_props =
    Some (TextFile (Stream (n :: m :: cells1 ++ cells2) true)) →
  0 < n → 0 < m → n + m < 2147483648 → n * m < 4294967296 →
  length cells1 = Z.to_nat (n * m) → length cells2 = Z.to_nat (n * m) →
  Forall binary cells1 → Forall binary cells2 →
  ∃ props1 props2 props3 S1 S2 S3,
    read_instance_from_filename fs global_props stp1
      = Ok (props1, true, S1) ∧
    matrix S1 = Some cells1 ∧ wf_state S1 ∧
    read_instance_from_filename fs props1 stp2 = Ok (props2, true, S2) ∧
    matrix S2 = Some cells2 ∧ wf_state S2 ∧
    read_instance_from_filename fs props2 stp3 = Ok (props3, false, S3).
Proof.
  intros Hfile Hfs Hn Hm Hsz Hnm Hl1 Hl2 Hb1 Hb2.
  rewrite (loader_header fs global_props stp1 n m (cells1 ++ cells2) true)
    by (done || unfold is_u32; lia).
  destruct (loader_open fs
              (Schema (Some (Stream (cells1 ++ cells2) true))
                 (filename global_props) n m)
              stp1 n m cells1 cells2 true) as (rb1 & cg1 & Hrun1 & _);
    [done|done|done|lia|lia|done|done|done|done|by right|].
  destruct (loader_open fs
              (Schema (Some (Stream cells2 true)) (filename global_props)
                 n m)
              stp2 n m cells2 [] true) as (rb2 & cg2 & Hrun2 & _);
    [by rewrite app_nil_r|done|done|lia|lia|done|done|done|done|by right|].
  do 6 eexists. split; [exact Hrun1|]. split; [done|].
  split; [apply wf_loading; lia|].
  split; [exact Hrun2|]. split; [done|].
  split; [apply wf_loading; lia|].
  by apply (loader_eof fs _ stp3 n m true).
Qed.

Lemma loader_reads_instances_in_turn_witness :
  ∃ props1 props2 props3 S1 S2 S3,
    read_instance_from_filename (instance_fs [1; 2; 1; 0; 0; 1])
      (Schema None "instance.txt" 0 0) zero_state = Ok (props1, true, S1) ∧
    matrix S1 = Some [1; 0] ∧ wf_state S1 ∧
    read_instance_from_filename (instance_fs [1; 2; 1; 0; 0; 1])
      props1 zero_state = Ok (props2, true, S2) ∧
    matrix S2 = Some [0; 1] ∧ wf_state S2 ∧
    read_instance_from_filename (instance_fs [1; 2; 1; 0; 0; 1])
      props2 zero_state = Ok (props3, false, S3).
Proof.
  apply (loader_reads_instances_in_turn (instance_fs [1; 2; 1; 0; 0; 1])
           (Schema None "instance.txt" 0 0) zero_state zero_state zero_state
           1 2 [1; 0] [0; 1]); try reflexivity; try lia.
  - repeat constructor; by right.
  - repeat constructor; by left.
Defined.

(** X18 ([read_instance_from_filename]): a stream that ends before the
    matrix is complete.  With a header [n m], both positive, followed by
    fewer than [n * m] cells: if no cell follows, the function returns
    false (there is no instance left) and the schema keeps [n] and [m]; if
    some cells follow and the file ends with white space, the function
    stops on the failed assertion of the reading loop. *)
Theorem loader_short_stream (fs : gmap string file_content)
    (global_props : instances_schema_s) (stp : state_s) (n m : Z)
    (cells : list Z) (pad : bool) :
  file global_props = None →
  fs !! filename global_props =
    Some (TextFile (Stream (n :: m :: cells) pad)) →
  0 < n → 0 < m → n + m < 2147483648 → n * m < 4294967296 →
  Z.of_nat (length cells) < n * m →
  (cells = [] →
   ∃ S, read_instance_from_filename fs global_props stp =
        Ok (Schema (Some (Stream [] pad)) (filename global_props) n m,
            false, S)) ∧
  (cells ≠ [] → pad = true →
   read_instance_from_filename fs global_props stp =
   Abort AssertionFailure).
Proof.
  intros Hfile Hfs Hn Hm Hsz Hnm Hshort.
  rewrite (loader_header fs global_props stp n m cells pad)
    by (done || unfold is_u32; lia).
  split.
  - intros ->.
    rewrite (loader_eof fs
               (Schema (Some (Stream [] pad)) (filename global_props) n m)
               stp n m pad) by done.
    by eexists.
  - intros Hne ->. apply (loader_truncated _ _ _ n m cells); try done.
    destruct cells; [done|simpl; lia].
Qed.

Lemma loader_short_stream_witness :
  read_instance_from_filename (instance_fs [2; 2; 1; 0; 1])
    (Schema None "instance.txt" 0 0) zero_state = Abort AssertionFailure.
Proof.
  apply (loader_short_stream (instance_fs [2; 2; 1; 0; 1])
           (Schema None "instance.txt" 0 0) zero_state 2 2 [1; 0; 1] true);
    try reflexivity; try lia; try done.
Defined.

(** X28 ([read_instance_from_filename]): a file that ends right after its
    last integer.  The loop tests [feof] after every read, also after a
    successful one: with a header [n m], both positive, followed by at
    least one and at most [n * m] cells and no white space after the last
    of them, the function returns false, without a failed assertion, even
    when the matrix is complete; the last integer is not stored and no
    graph is built. *)
Theorem loader_file_without_final_space (fs : gmap string file_content)
    (global_props : instances_schema_s) (stp : state_s) (n m : Z)
    (cells : list Z) :
  file global_props = None →
  fs !! filename global_props =
    Some (TextFile (Stream (n :: m :: cells) false)) →
  0 < n → 0 < m → n + m < 2147483648 → n * m < 4294967296 →
  cells ≠ [] → Z.of_nat (length cells) ≤ n * m →
  ∃ S, read_instance_from_filename fs global_props stp =
       Ok (Schema (Some (Stream [] false)) (filename global_props) n m,
           false, S) ∧
       edges (red_black S) = [] ∧ edges (conflict S) = [] ∧
       matrix S =
         Some (take (length cells - 1) (map u32 cells)
               ++ replicate (Z.to_nat (n * m) - (length cells - 1)) 0).
Proof.
  intros Hfile Hfs Hn Hm Hsz Hnm Hne Hlen.
  rewrite (loader_header fs global_props stp n m cells false)
    by (done || unfold is_u32; lia).
  rewrite (loader_unpadded fs
             (Schema (Some (Stream cells false)) (filename global_props) n m)
             stp n m cells); try done.
  - by eexists.
  - destruct cells; [done|simpl; lia].
Qed.

Lemma loader_file_without_final_space_witness :
  ∃ S, read_instance_from_filename
         {[ "instance.txt"%string :=
              TextFile (Stream [1; 2; 1; 1] false) ]}
         (Schema None "instance.txt" 0 0) zero_state =
       Ok (Schema (Some (Stream [] false)) "instance.txt" 1 2, false, S) ∧
       edges (red_black S) = [] ∧ edges (conflict S) = [] ∧
       matrix S = Some [1; 0].
Proof.
  apply (loader_file_without_final_space
           {[ "instance.txt"%string :=
                TextFile (Stream [1; 2; 1; 1] false) ]}
           (Schema None "instance.txt" 0 0) zero_state 1 2 [1; 1]);
    try reflexivity; try lia; try done.
Defined.

(** ** Loading, then cleaning *)

Lemma isolated_iff (g : igraph_t) (v : Z) :
  isolated g v ↔ ∀ e, e ∈ edges g → incident v e = false.
Proof.
  unfold isolated. induction (edges g) as [|e l IH].
  - split; [intros _ e' He'; by apply elem_of_nil in He'|done].
  - cbn [flat_map]. split.
    + intros H. apply app_eq_nil in H as [He Hl].
      intros e' [->|He']%elem_of_cons; [|by apply IH].
      unfold other_ends in He. unfold incident.
      destruct (e.1 =? v), (e.2 =? v); done.
    + intros H.
      assert (He : incident v e = false) by apply H, list_elem_of_here.
      unfold incident in He. apply orb_false_iff in He as [E1 E2].
      unfold other_ends at 1. rewrite E1, E2. simpl.
      apply IH. intros e' He'. apply H. by apply list_elem_of_further.
Qed.

Lemma not_isolated_exists (g : igraph_t) (v : Z) :
  ¬ (∀ e, e ∈ edges g → incident v e = false) →
  ∃ e, e ∈ edges g ∧ incident v e = true.
Proof.
  intros H.
  assert (H' : ¬ Forall (λ e, incident v e = false) (edges g)).
  { intros HF. apply H. by apply Forall_forall. }
  apply not_Forall_Exists in H'; [|apply _].
  apply Exists_exists in H' as (e & He & Hi). exists e. split; [done|].
  simpl in Hi. by apply not_false_iff_true.
Qed.

(** X19 ([read_instance_from_filename], then [cleanup]): on a file in
    which a binary matrix of [n * m] cells follows the header [n m] and is
    itself followed by white space or by further integers, the matrix is
    loaded, and after the clean-up of the loaded state a species is active
    exactly when its row holds a 1, and a character is active exactly when
    its column holds a 1. *)
Theorem loaded_then_cleaned (fs : gmap string file_content)
    (global_props : instances_schema_s) (stp : state_s) (n m : Z)
    (cells rest : list Z) (pad : bool) :
  file global_props = None →
  fs !! filename global_props =
    Some (TextFile (Stream (n :: m :: cells ++ rest) pad)) →
  0 ≤ n → 0 ≤ m → n + m < 2147483648 → n * m < 4294967296 →
  length cells = Z.to_nat (n * m) →
  Forall binary cells →
  rest ≠ [] ∨ pad = true →
  ∃ props S S',
    read_instance_from_filename fs global_props stp = Ok (props, true, S) ∧
    cleanup S = Ok S' ∧
    (∀ s, 0 ≤ s < n →
       ∃ x, species S' !! Z.to_nat s = Some x ∧
            (x ≠ 0 ↔ ∃ c, 0 ≤ c < m ∧ cell cells m s c = Some 1)) ∧
    (∀ c, 0 ≤ c < m →
       ∃ x, characters S' !! Z.to_nat c = Some x ∧
            (x ≠ 0 ↔ ∃ s, 0 ≤ s < n ∧ cell cells m s c = Some 1)).
Proof.
  intros Hfile Hfs Hn Hm Hsz Hnm Hlen Hbin Hend.
  destruct (loader_builds_graphs_holds fs global_props stp n m cells rest
              pad)
    as (S & Hrun & Hwf & En & Em & _ & _ & _ & _ & Hrb & _); [done..|].
  exists (Schema (Some (Stream rest pad)) (filename global_props) n m), S,
    (cleaned S).
  split; [done|]. split; [by apply cleanup_wf|].
  pose proof Hwf as (_ & _ & _ & Hsp & _ & Hch & _).
  rewrite En in Hsp. rewrite Em in Hch.
  unfold cleaned; cbn [species characters]. rewrite En, Em. split.
  - intros s Hs.
    destruct (lookup_lt_is_Some_2 (species S) (Z.to_nat s)) as [x Hx];
      [lia|].
    assert (Hx1 : x = 1).
    { destruct (loader_open fs
                  (Schema (Some (Stream (cells ++ rest) pad))
                     (filename global_props) n m)
                  stp n m cells rest pad) as (rb & cg & Hrun' & _);
        [done..|].
      rewrite (loader_header fs global_props stp n m (cells ++ rest) pad)
        in Hrun by (done || unfold is_u32; lia).
      rewrite Hrun' in Hrun. injection Hrun as <-.
      cbn [species loading] in Hx.
      by apply lookup_replicate in Hx as [-> _]. }
    subst x.
    eexists. split; [by apply (lookup_mark_in n (species_isolated S) 0)|].
    rewrite Z2Nat.id by lia.
    case_decide as Hiso; unfold species_isolated in Hiso;
      rewrite isolated_iff in Hiso.
    + split; [done|]. intros (c & Hc & Hcell). exfalso.
      assert (He : (s, n + c) ∈ edges (red_black S)).
      { apply Hrb. by exists s, c. }
      apply Hiso in He. unfold incident in He. simpl in He.
      by rewrite Z.eqb_refl in He.
    + split; [|done]. intros _.
      apply not_isolated_exists in Hiso as (e & He & Hi).
      apply Hrb in He as (s' & c & Hs' & Hc & Hcell & ->).
      unfold incident in Hi. simpl in Hi.
      apply orb_true_iff in Hi as [Hi|Hi]; apply Z.eqb_eq in Hi; [|lia].
      subst s'. by exists c.
  - intros c Hc.
    destruct (lookup_lt_is_Some_2 (characters S) (Z.to_nat c)) as [x Hx];
      [lia|].
    assert (Hx1 : x = 1).
    { destruct (loader_open fs
                  (Schema (Some (Stream (cells ++ rest) pad))
                     (filename global_props) n m)
                  stp n m cells rest pad) as (rb & cg & Hrun' & _);
        [done..|].
      rewrite (loader_header fs global_props stp n m (cells ++ rest) pad)
        in Hrun by (done || unfold is_u32; lia).
      rewrite Hrun' in Hrun. injection Hrun as <-.
      cbn [characters loading] in Hx.
      by apply lookup_replicate in Hx as [-> _]. }
    subst x.
    eexists. split; [by apply (lookup_mark_in m (character_isolated S) 0)|].
    rewrite Z2Nat.id by lia.
    case_decide as Hiso; unfold character_isolated in Hiso;
      rewrite isolated_iff, En in Hiso.
    + split; [done|]. intros (s & Hs & Hcell). exfalso.
      assert (He : (s, n + c) ∈ edges (red_black S)).
      { apply Hrb. by exists s, c. }
      apply Hiso in He. unfold incident in He. simpl in He.
      rewrite Z.eqb_refl in He. by rewrite orb_true_r in He.
    + split; [|done]. intros _.
      apply not_isolated_exists in Hiso as (e & He & Hi).
      apply Hrb in He as (s & c' & Hs & Hc' & Hcell & ->).
      unfold incident in Hi. simpl in Hi.
      apply orb_true_iff in Hi as [Hi|Hi]; apply Z.eqb_eq in Hi; [lia|].
      replace c with c' by lia. by exists s.
Qed.

Lemma loaded_then_cleaned_witness :
  ∃ props S S',
    read_instance_from_filename (instance_fs [2; 2; 0; 0; 1; 0])
      (Schema None "instance.txt" 0 0) zero_state = Ok (props, true, S) ∧
    cleanup S = Ok S' ∧
    (∀ s, 0 ≤ s < 2 →
       ∃ x, species S' !! Z.to_nat s = Some x ∧
            (x ≠ 0 ↔ ∃ c, 0 ≤ c < 2 ∧ cell [0; 0; 1; 0] 2 s c = Some 1)) ∧
    (∀ c, 0 ≤ c < 2 →
       ∃ x, characters S' !! Z.to_nat c = Some x ∧
            (x ≠ 0 ↔ ∃ s, 0 ≤ s < 2 ∧ cell [0; 0; 1; 0] 2 s c = Some 1)).
Proof.
  apply (loaded_then_cleaned (instance_fs [2; 2; 0; 0; 1; 0])
           (Schema None "instance.txt" 0 0) zero_state 2 2 [0; 0; 1; 0] []
           true);
    try reflexivity; try lia; try (by right).
  repeat constructor; (by left) || (by right).
Defined.

(** ** What [read_state] needs *)

Lemma json_get_integer_Ok (root : gmap string json_t) (field : string)
    (v : Z) :
  json_get_integer root field = Ok v ↔
  ∃ z, root !! field = Some (JInteger z) ∧ v = u32 z.
Proof.
  unfold json_get_integer. destruct (root !! field) as [[z|s|l]|]; split;
    try done; try (by intros (? & [=] & _)).
  - intros [= <-]. by exists z.
  - by intros (z' & [= <-] & ->).
Qed.

Lemma json_get_array_Ok (root : gmap string json_t) (field : string)
    (v : list Z) :
  json_get_array root field = Ok v ↔
  ∃ l, root !! field = Some (JArray l) ∧ v = json_array2array l.
Proof.
  unfold json_get_array. destruct (root !! field) as [[z|s|l]|]; split;
    try done; try (by intros (? & [=] & _)).
  - intros [= <-]. by exists l.
  - by intros (l' & [= <-] & ->).
Qed.

Lemma json_get_string_Ok (root : gmap string json_t) (field : string)
    (v : string) :
  json_get_string root field = Ok v ↔ root !! field = Some (JString v).
Proof.
  unfold json_get_string. destruct (root !! field) as [[z|s|l]|]; split;
    try done; by intros [= <-].
Qed.

Lemma read_graphml_Ok (fs : gmap string file_content) (name : string)
    (g : igraph_t) :
  read_graphml fs name = Ok g ↔ fs !! name = Some (GraphmlFile g).
Proof.
  unfold read_graphml. destruct (fs !! name) as [[t|d|g']|]; split;
    try done; by intros [= <-].
Qed.

Lemma assert_check_state_Ok (S : state_s) (u : unit) :
  assert_check_state S = Ok u → check_state S = Ok 0.
Proof.
  unfold assert_check_state. intros H.
  apply bind_Ok in H as (err & Herr & H). apply assert_Ok in H.
  apply Z.eqb_eq in H. by subst err.
Qed.

(** X20 ([read_state]): a snapshot is read only if it is complete.  When
    [read_state] returns, the file is a JSON document in which
    [num_species_orig], [num_characters_orig], [realize], [num_species] and
    [num_characters] are integers, [current], [species] and [characters]
    are arrays, and [red_black_file] and [conflict_file] are strings that
    name two graph files; the state holds these values (the integers
    reduced to 32 bits), and it passes [check_state]. *)
Theorem read_state_requires_fields (fs : gmap string file_content)
    (filename : string) (stp S : state_s) :
  read_state fs filename stp = Ok S →
  ∃ data n0 m0 rz n m cur sp ch rbf cf,
    fs !! filename = Some (JsonFile data) ∧
    data !! "num_species_orig"%string = Some (JInteger n0) ∧
    data !! "num_characters_orig"%string = Some (JInteger m0) ∧
    data !! "realize"%string = Some (JInteger rz) ∧
    data !! "num_species"%string = Some (JInteger n) ∧
    data !! "num_characters"%string = Some (JInteger m) ∧
    data !! "current"%string = Some (JArray cur) ∧
    data !! "species"%string = Some (JArray sp) ∧
    data !! "characters"%string = Some (JArray ch) ∧
    data !! "red_black_file"%string = Some (JString rbf) ∧
    data !! "conflict_file"%string = Some (JString cf) ∧
    fs !! rbf = Some (GraphmlFile (red_black S)) ∧
    fs !! cf = Some (GraphmlFile (conflict S)) ∧
    num_species_orig S = u32 n0 ∧ num_characters_orig S = u32 m0 ∧
    realize S = u32 rz ∧ num_species S = u32 n ∧ num_characters S = u32 m ∧
    current_states S = json_array2array cur ∧
    species S = json_array2array sp ∧
    characters S = json_array2array ch ∧
    check_state S = Ok 0.
Proof.
  unfold read_state. intros H.
  apply bind_Ok in H as (data & Hdata & H).
  assert (Hfile : fs !! filename = Some (JsonFile data)).
  { destruct (fs !! filename) as [[t|d|g]|]; try done.
    by injection Hdata as ->. }
  apply bind_Ok in H as (n0' & Hn0 & H).
  apply json_get_integer_Ok in Hn0 as (n0 & Dn0 & ->).
  apply bind_Ok in H as (m0' & Hm0 & H).
  apply json_get_integer_Ok in Hm0 as (m0 & Dm0 & ->).
  apply bind_Ok in H as (S0 & Hinit & H).
  unfold init_state in Hinit.
  apply bind_Ok in Hinit as (rb0 & _ & Hinit).
  apply bind_Ok in Hinit as (cg0 & _ & Hinit).
  injection Hinit as <-.
  apply bind_Ok in H as (rz' & Hrz & H).
  apply json_get_integer_Ok in Hrz as (rz & Drz & ->).
  apply bind_Ok in H as (tried & _ & H).
  apply bind_Ok in H as (queue & _ & H).
  apply bind_Ok in H as (n' & Hn & H).
  apply json_get_integer_Ok in Hn as (n & Dn & ->).
  apply bind_Ok in H as (m' & Hm & H).
  apply json_get_integer_Ok in Hm as (m & Dm & ->).
  apply bind_Ok in H as (cur' & Hcur & H).
  apply json_get_array_Ok in Hcur as (cur & Dcur & ->).
  apply bind_Ok in H as (sp' & Hsp & H).
  apply json_get_array_Ok in Hsp as (sp & Dsp & ->).
  apply bind_Ok in H as (ch' & Hch & H).
  apply json_get_array_Ok in Hch as (ch & Dch & ->).
  apply bind_Ok in H as (rbf & Hrbf & H).
  apply json_get_string_Ok in Hrbf.
  apply bind_Ok in H as (rb & Hrb & H).
  apply read_graphml_Ok in Hrb.
  apply bind_Ok in H as (cf & Hcf & H).
  apply json_get_string_Ok in Hcf.
  apply bind_Ok in H as (cg & Hcg & H).
  apply read_graphml_Ok in Hcg.
  apply bind_Ok in H as ([] & Hck & H).
  injection H as HS.
  apply assert_check_state_Ok in Hck as Herr. rewrite HS in Herr.
  exists data, n0, m0, rz, n, m, cur, sp, ch, rbf, cf.
  do 11 (split; [done|]).
  repeat split; try exact Herr; rewrite <- HS; cbn; done.
Qed.

Lemma read_state_requires_fields_witness :
  ∃ S, read_state snapshot_fs "s" zero_state = Ok S ∧
       check_state S = Ok 0.
Proof.
  eexists. split; [vm_compute; reflexivity|].
  match goal with
  | |- check_state ?S = _ =>
      destruct (read_state_requires_fields snapshot_fs "s" zero_state S)
        as (? & ? & ? & ? & ? & ? & ? & ? & ? & ? & ? & H)
  end; [vm_compute; reflexivity|].
  apply H.
Defined.

(** ** What [write_state] writes *)

(** X21 ([write_state]): a successful call writes three files and no
    other.  The state passes [check_state]; the file [filename] holds the
    document of [build_json_state], the files [filename-redblack.graphml]
    and [filename-conflict.graphml] hold the two graphs, and every other
    file is as it was. *)
Theorem write_state_files (fs fs' : gmap string file_content)
    (filename : string) (S : state_s) :
  write_state fs filename S = Ok fs' →
  check_state S = Ok 0 ∧
  (∃ data,
     build_json_state S (filename +:+ "-redblack.graphml")
       (filename +:+ "-conflict.graphml") = Ok data ∧
     fs' !! filename = Some (JsonFile data)) ∧
  fs' !! (filename +:+ "-redblack.graphml")%string =
    Some (GraphmlFile (red_black S)) ∧
  fs' !! (filename +:+ "-conflict.graphml")%string =
    Some (GraphmlFile (conflict S)) ∧
  (∀ k, k ≠ filename →
        k ≠ (filename +:+ "-redblack.graphml")%string →
        k ≠ (filename +:+ "-conflict.graphml")%string →
        fs' !! k = fs !! k).
Proof.
  unfold write_state. intros H.
  apply bind_Ok in H as ([] & Hck & H).
  apply bind_Ok in H as (data & Hdata & H). injection H as <-.
  unfold assert_check_state in Hck.
  apply bind_Ok in Hck as (err & Herr & Hck). apply assert_Ok in Hck.
  apply Z.eqb_eq in Hck. subst err.
  assert (N1 : (filename +:+ "-redblack.graphml")%string ≠ filename)
    by (by apply append_ne_self).
  assert (N2 : (filename +:+ "-conflict.graphml")%string ≠ filename)
    by (by apply append_ne_self).
  assert (N3 : (filename +:+ "-redblack.graphml")%string ≠
               (filename +:+ "-conflict.graphml")%string).
  { intros Heq. by apply append_inj_r in Heq. }
  split; [done|]. split; [|split; [|split]].
  - exists data. split; [done|]. apply lookup_insert_eq.
  - rewrite lookup_insert_ne by done.
    rewrite lookup_insert_ne by done. apply lookup_insert_eq.
  - rewrite lookup_insert_ne by done. apply lookup_insert_eq.
  - intros k K1 K2 K3. by rewrite !lookup_insert_ne.
Qed.

Lemma write_state_files_witness :
  ∃ fs', write_state snapshot_fs "t" single_state = Ok fs' ∧
         fs' !! "t-redblack.graphml"%string =
           Some (GraphmlFile (red_black single_state)) ∧
         fs' !! "s"%string = snapshot_fs !! "s"%string.
Proof.
  assert (Hwf : wf_state single_state)
    by (apply (bool_decide_unpack _); vm_compute; reflexivity).
  destruct (build_json_state_wf single_state "t-redblack.graphml"
              "t-conflict.graphml" Hwf) as (data & Hdata & _);
    [vm_compute; lia|].
  assert (E : ∃ fs', write_state snapshot_fs "t" single_state = Ok fs').
  { eexists. unfold write_state.
    rewrite assert_check_state_wf, result_bind_Ok by done.
    change ("t" +:+ "-redblack.graphml")%string
      with "t-redblack.graphml"%string.
    change ("t" +:+ "-conflict.graphml")%string
      with "t-conflict.graphml"%string.
    rewrite Hdata, result_bind_Ok. reflexivity. }
  destruct E as [fs' E]. exists fs'.
  destruct (write_state_files snapshot_fs fs' "t" single_state E)
    as (_ & _ & H1 & _ & H2).
  split; [exact E|]. split; [exact H1|].
  apply H2; intros [=].
Defined.

(** ** The document of a snapshot *)

Lemma to_gint_small (z : Z) : is_gint z → to_gint z = z.
Proof.
  unfold is_gint, to_gint, to_igraph_integer, u32. intros Hz.
  destruct (decide (0 ≤ z)) as [Hpos|Hneg].
  - rewrite Z.mod_small by lia.
    destruct (Z.ltb_spec z 2147483648); lia.
  - replace (z mod 4294967296) with (z + 4294967296).
    + destruct (Z.ltb_spec (z + 4294967296) 2147483648); lia.
    + apply (Z.mod_unique_pos _ _ (-1)); lia.
Qed.

Lemma json_list_round_trip (l : list Z) :
  Forall is_gint l → json_array2gslist (map JInteger l) = l.
Proof.
  intros Hl. unfold json_array2gslist. rewrite map_map.
  induction Hl as [|z l Hz Hl IH]; [done|].
  cbn [map json_integer_value]. rewrite to_gint_small by done.
  f_equal. exact IH.
Qed.

Lemma array2json_array_Ok (p : list Z) (size : Z) (j : json_t) :
  array2json_array p size = Ok j ↔
  (Z.to_nat size ≤ length p)%nat ∧
  j = JArray (map JInteger (take (Z.to_nat size) p)).
Proof.
  unfold array2json_array. split.
  - intros H. apply bind_Ok in H as (cells & Hc & H).
    apply array_prefix_Ok in Hc as [Hlen ->]. by injection H as <-.
  - intros [Hlen ->].
    by rewrite (proj2 (array_prefix_Ok _ _ _) (conj Hlen eq_refl)).
Qed.

(** X22 ([build_json_state]): the document of a snapshot has twelve keys,
    and [matrix] besides when the matrix pointer is not [NULL]; there is no
    key for the colours or for [operation].  The two lists are written in
    full: read with [json_get_list] in its mandatory mode, the fields
    [tried_characters] and [character_queue] give back the lists of the
    state. *)
Theorem snapshot_document_keys (S : state_s) (rbf cf : string)
    (data : gmap string json_t) :
  build_json_state S rbf cf = Ok data →
  dom data =
    snapshot_keys ∪ match matrix S with
                    | Some _ => {["matrix"%string]}
                    | None => ∅
                    end ∧
  (Forall is_gint (tried_characters S) →
   json_get_list data "tried_characters" false = Ok (tried_characters S)) ∧
  (Forall is_gint (character_queue S) →
   json_get_list data "character_queue" false = Ok (character_queue S)).
Proof.
  unfold build_json_state. intros H.
  apply bind_Ok in H as ([] & _ & H).
  apply bind_Ok in H as (data0 & Hmx & H).
  apply bind_Ok in H as (a1 & _ & H).
  apply bind_Ok in H as (a2 & _ & H).
  apply bind_Ok in H as (a3 & _ & H).
  injection H as <-.
  destruct (matrix S) as [mx|].
  - apply bind_Ok in Hmx as (a0 & _ & Hmx). injection Hmx as <-.
    split; [|split].
    + rewrite !dom_insert_L, dom_empty_L. unfold snapshot_keys.
      cbn [list_to_set foldr]. set_solver.
    + intros Hl. unfold json_get_list. cbn [negb].
      simplify_map_eq. unfold gslist2json_array.
      by rewrite json_list_round_trip.
    + intros Hl. unfold json_get_list. cbn [negb].
      simplify_map_eq. unfold gslist2json_array.
      by rewrite json_list_round_trip.
  - injection Hmx as <-. split; [|split].
    + rewrite !dom_insert_L, dom_empty_L. unfold snapshot_keys.
      cbn [list_to_set foldr]. set_solver.
    + intros Hl. unfold json_get_list. cbn [negb].
      simplify_map_eq. unfold gslist2json_array.
      by rewrite json_list_round_trip.
    + intros Hl. unfold json_get_list. cbn [negb].
      simplify_map_eq. unfold gslist2json_array.
      by rewrite json_list_round_trip.
Qed.

Lemma snapshot_document_keys_witness :
  ∃ data,
    build_json_state (set_tried_characters [1; 0] single_state) "rb" "cg"
      = Ok data ∧
    json_get_list data "tried_characters" false = Ok [1; 0].
Proof.
  assert (Hwf : wf_state (set_tried_characters [1; 0] single_state))
    by (apply (bool_decide_unpack _); vm_compute; reflexivity).
  destruct (build_json_state_wf (set_tried_characters [1; 0] single_state)
              "rb" "cg" Hwf) as (data & Hdata & _);
    [vm_compute; lia|].
  exists data. split; [exact Hdata|].
  destruct (snapshot_document_keys
              (set_tried_characters [1; 0] single_state) "rb" "cg" data
              Hdata) as (_ & H & _).
  apply H. repeat constructor; unfold is_gint; lia.
Defined.

(** X23 ([array2json_array], [json_array2array], [json_get_array]): an
    array of [uint32_t] cells written as a JSON array is read back as it
    was: the field holds the first [size] cells. *)
Theorem array_json_round_trip (p : list Z) (size : Z) (j : json_t)
    (root : gmap string json_t) (field : string) :
  Forall is_u32 p →
  array2json_array p size = Ok j →
  json_get_array (<[field := j]> root) field = Ok (take (Z.to_nat size) p).
Proof.
  intros Hp [Hlen ->]%array2json_array_Ok.
  unfold json_get_array. rewrite lookup_insert_eq.
  rewrite json_array_round_trip; [done|]. by apply Forall_take.
Qed.

Lemma array_json_round_trip_witness :
  json_get_array
    (<["current"%string := JArray [JInteger 1; JInteger MINUS_ONE]]> ∅)
    "current"
  = Ok (take (Z.to_nat 2) [1; MINUS_ONE; 0]).
Proof.
  apply array_json_round_trip; [|reflexivity].
  repeat constructor; unfold is_u32, MINUS_ONE; lia.
Defined.

(** ** One step of the decision tree *)

Lemma slot_get_Ok (states : list state_s) (level : Z) (st : state_s) :
  slot_get states level = Ok st ↔ states !! Z.to_nat level = Some st.
Proof.
  unfold slot_get. destruct (states !! Z.to_nat level); split; congruence.
Qed.

Lemma next_node_Ok (new_state : state_s) (states states' : list state_s)
    (level level' : Z) (node_init : state_s → list Z) :
  next_node new_state states level node_init = Ok (states', level') →
  ∃ cur, states !! Z.to_nat level = Some cur ∧
    ((character_queue (entered node_init cur) = [] ∧
      states' = slot_set states level (entered node_init cur) ∧
      level' = u32 (level - 1)) ∨
     (character_queue (entered node_init cur) ≠ [] ∧
      ∃ b child,
        realize_character new_state
          (set_realize (to_realize node_init cur) (advanced node_init cur))
        = Ok (b, child) ∧
        ((operation child ≤ 0 ∧
          states' = slot_set states level (advanced node_init cur) ∧
          level' = level) ∨
         (0 < operation child ∧
          ∃ nx next,
            slot_set states level (advanced node_init cur)
              !! Z.to_nat (level + 1) = Some nx ∧
            copy_state nx child = Ok next ∧
            states' =
              slot_set (slot_set states level (advanced node_init cur))
                (level + 1)
                (set_tried_characters [] (set_character_queue [] next)) ∧
            level' = u32 (level + 1))))).
Proof.
  unfold next_node. intros H.
  apply bind_Ok in H as (cur & Hcur & H). apply slot_get_Ok in Hcur.
  exists cur. split; [done|].
  fold (entered node_init cur) in H.
  unfold no_sibling_p at 1 in H.
  destruct (decide (character_queue (entered node_init cur) = []))
    as [Hq|Hq].
  - rewrite bool_decide_eq_true_2 in H by done. injection H as <- <-.
    by left.
  - rewrite bool_decide_eq_false_2 in H by done. right. split; [done|].
    fold (advanced node_init cur) in H. fold (to_realize node_init cur) in H.
    apply bind_Ok in H as ([b child] & Hrun & H). exists b, child.
    split; [done|]. cbn [snd] in H.
    destruct (Z.ltb_spec 0 (operation child)) as [Hop|Hop].
    + right. split; [done|].
      apply bind_Ok in H as (nx & Hnx & H). apply slot_get_Ok in Hnx.
      apply bind_Ok in H as (next & Hcopy & H). injection H as <- <-.
      by exists nx, next.
    + left. by injection H as <- <-.
Qed.

Lemma length_slot_set (states : list state_s) (level : Z) (st : state_s) :
  length (slot_set states level st) = length states.
Proof. apply length_insert. Qed.

Lemma next_node_length (new_state : state_s)
    (states states' : list state_s) (level level' : Z)
    (node_init : state_s → list Z) :
  next_node new_state states level node_init = Ok (states', level') →
  length states' = length states.
Proof.
  intros (cur & Hcur & [(_ & -> & _)|(_ & b & child & _ &
    [(_ & -> & _)|(_ & nx & next & _ & _ & -> & _)])])%next_node_Ok;
    by rewrite ?length_slot_set.
Qed.

(** X24 ([next_node]): the level returned differs from the level given by
    at most one (in 32-bit arithmetic: going back from level 0 gives
    [-1]), the array of states keeps its length, and no slot other than
    those of the current and of the next level is written. *)
Theorem next_node_moves_one_level (new_state : state_s)
    (states states' : list state_s) (level level' : Z)
    (node_init : state_s → list Z) :
  next_node new_state states level node_init = Ok (states', level') →
  (level' = u32 (level - 1) ∨ level' = level ∨ level' = u32 (level + 1)) ∧
  length states' = length states ∧
  (∀ i : nat, i ≠ Z.to_nat level → i ≠ Z.to_nat (level + 1) →
     states' !! i = states !! i).
Proof.
  intros H. pose proof (next_node_length _ _ _ _ _ _ H) as Hlen.
  apply next_node_Ok in H as (cur & Hcur & [(_ & -> & ->)|(_ & b & child & _ &
    [(_ & -> & ->)|(_ & nx & next & _ & _ & -> & ->)])]).
  - split; [by left|]. split; [done|]. intros i Hi _.
    unfold slot_set. by rewrite list_lookup_insert_ne.
  - split; [by right; left|]. split; [done|]. intros i Hi _.
    unfold slot_set. by rewrite list_lookup_insert_ne.
  - split; [by right; right|]. split; [done|]. intros i Hi Hi'.
    unfold slot_set. by rewrite !list_lookup_insert_ne.
Qed.

(** X25 ([next_node], [exhaustive_search]): a node with nothing left to
    try sends the search back.  If the queue of the current slot is empty
    and either some character has been tried there or the strategy proposes
    none, [next_node] returns [level - 1] and leaves every state as it
    was; at the root this is [-1], and [exhaustive_search] ends with
    "END" and returns the states unchanged. *)
Theorem next_node_backtracks (new_state : state_s)
    (states : list state_s) (level : Z) (node_init : state_s → list Z)
    (cur : state_s) :
  states !! Z.to_nat level = Some cur →
  character_queue cur = [] →
  (tried_characters cur = [] → node_init cur = []) →
  next_node new_state states level node_init = Ok (states, u32 (level - 1)) ∧
  (level = 0 →
   ∀ fuel, exhaustive_search new_state (S fuel) states node_init =
           Ok (Some (states, SearchEnd))).
Proof.
  intros Hcur Hq Hinit.
  assert (Hent : entered node_init cur = cur).
  { unfold entered. destruct (bool_decide _ && _) eqn:E; [|done].
    apply andb_true_iff in E as [E _]. apply bool_decide_eq_true in E.
    rewrite (Hinit E). destruct cur. simpl in *. by rewrite Hq. }
  assert (Hnext : next_node new_state states level node_init =
                  Ok (states, u32 (level - 1))).
  { unfold next_node. rewrite (proj2 (slot_get_Ok _ _ _) Hcur).
    rewrite result_bind_Ok. fold (entered node_init cur). rewrite Hent.
    unfold no_sibling_p. rewrite bool_decide_eq_true_2 by done.
    unfold slot_set. by rewrite list_insert_id. }
  split; [done|]. intros -> fuel. unfold exhaustive_search.
  rewrite Hnext, result_bind_Ok. done.
Qed.

(** X26 ([next_node]): a node with a character left to try.  The head [q]
    of the queue (after the queue of a new node has been initialised by the
    strategy) is taken off, the value pushed on [tried_characters] is the
    [realized_char] of the slot and not [q], and [q] is realized on the
    slot.  If the child has [operation > 0] it is copied with empty lists
    into the slot of the next level, which is returned; otherwise the level
    returned is the current one and only the current slot is written. *)
Theorem next_node_takes_head (new_state : state_s)
    (states states' : list state_s) (level level' : Z)
    (node_init : state_s → list Z) (cur : state_s) (q : Z)
    (rest : list Z) :
  0 ≤ level →
  states !! Z.to_nat level = Some cur →
  character_queue (entered node_init cur) = q :: rest →
  next_node new_state states level node_init = Ok (states', level') →
  ∃ cur' b child,
    states' !! Z.to_nat level = Some cur' ∧
    character_queue cur' = rest ∧
    tried_characters cur' = realized_char cur :: tried_characters cur ∧
    realize_character new_state (set_realize (u32 (to_gint q)) cur')
      = Ok (b, child) ∧
    ((operation child ≤ 0 ∧ level' = level ∧
      states' = <[Z.to_nat level := cur']> states) ∨
     (0 < operation child ∧ level' = u32 (level + 1) ∧
      ∃ next, states' !! Z.to_nat (level + 1) = Some next ∧
              tried_characters next = [] ∧ character_queue next = [] ∧
              state_cmp next child = Ok 0 ∧
              colors next =
                take (Z.to_nat (num_characters_orig child)) (colors child) ∧
              red_black next = red_black child ∧
              operation next = operation child)).
Proof.
  intros Hlevel Hcur Hq Hrun.
  pose proof (lookup_lt_Some _ _ _ Hcur) as Hlt.
  assert (Htried : tried_characters (entered node_init cur) =
                   tried_characters cur)
    by (unfold entered; by destruct (_ && _)).
  assert (Hrc : realized_char (entered node_init cur) = realized_char cur)
    by (unfold entered; by destruct (_ && _)).
  apply next_node_Ok in Hrun as (cur0 & Hcur0 & Hcases).
  rewrite Hcur in Hcur0. injection Hcur0 as <-.
  destruct Hcases as [(Hq' & _)|(_ & b & child & Hreal & Hcases)];
    [by rewrite Hq in Hq'|].
  exists (advanced node_init cur), b, child.
  assert (Hadv : character_queue (advanced node_init cur) = rest ∧
                 tried_characters (advanced node_init cur) =
                 realized_char cur :: tried_characters cur).
  { unfold advanced. cbn [character_queue tried_characters
      set_tried_characters set_character_queue].
    by rewrite Hq, Htried, Hrc. }
  destruct Hadv as [A1 A2].
  assert (Hto : to_realize node_init cur = u32 (to_gint q))
    by (unfold to_realize; by rewrite Hq).
  rewrite Hto in Hreal.
  destruct Hcases as [(Hop & -> & ->)|(Hop & nx & next & Hnx & Hcopy & -> & ->)].
  - split; [by apply list_lookup_insert_eq|].
    do 3 (split; [done|]). left. done.
  - split.
    { unfold slot_set. rewrite list_lookup_insert_ne by lia.
      by apply list_lookup_insert_eq. }
    do 3 (split; [done|]). right. split; [done|]. split; [done|].
    eexists. split.
    { unfold slot_set. apply list_lookup_insert_eq.
      rewrite length_insert. apply lookup_lt_Some in Hnx.
      unfold slot_set in Hnx. by rewrite length_insert in Hnx. }
    cbn [tried_characters character_queue set_tried_characters
         set_character_queue colors red_black operation].
    split; [done|]. split; [done|].
    unfold copy_state in Hcopy.
    apply bind_Ok in Hcopy as ([] & _ & Hcopy).
    apply bind_Ok in Hcopy as (d0 & _ & Hcopy).
    apply bind_Ok in Hcopy as (cs & _ & Hcopy).
    apply bind_Ok in Hcopy as (ch & _ & Hcopy).
    apply bind_Ok in Hcopy as (co & Hco & Hcopy).
    apply bind_Ok in Hcopy as (sp & _ & Hcopy).
    apply bind_Ok in Hcopy as ([] & _ & Hcopy).
    apply bind_Ok in Hcopy as (err & Hcmp & Hcopy).
    apply bind_Ok in Hcopy as ([] & Herr & Hcopy).
    injection Hcopy as <-. apply assert_Ok, Z.eqb_eq in Herr. subst err.
    apply array_prefix_Ok in Hco as [_ ->].
    split; [|done]. exact Hcmp.
Qed.

Lemma next_node_moves_one_level_witness :
  ∃ (states' : list state_s) level',
    next_node zero_state [single_state; zero_state] 0 natural_order =
      Ok (states', level') ∧
    (level' = u32 (0 - 1) ∨ level' = 0 ∨ level' = u32 (0 + 1)) ∧
    length states' = 2%nat.
Proof.
  assert (E : ∃ r, next_node zero_state [single_state; zero_state] 0
                     natural_order = Ok r)
    by (eexists; vm_compute; reflexivity).
  destruct E as [[states' level'] E]. exists states', level'.
  destruct (next_node_moves_one_level zero_state
              [single_state; zero_state] states' 0 level' natural_order E)
    as (H1 & H2 & _).
  exact (conj E (conj H1 H2)).
Defined.

Lemma next_node_backtracks_witness :
  next_node zero_state [zero_state] 0 natural_order =
    Ok ([zero_state], u32 (0 - 1)) ∧
  (0 = 0 →
   ∀ fuel, exhaustive_search zero_state (S fuel) [zero_state] natural_order
           = Ok (Some ([zero_state], SearchEnd))).
Proof.
  apply (next_node_backtracks zero_state [zero_state] 0 natural_order
           zero_state); reflexivity.
Defined.

Lemma next_node_takes_head_witness :
  ∃ (states' : list state_s) cur' b child,
    states' !! Z.to_nat 0 = Some cur' ∧
    character_queue cur' = [] ∧
    tried_characters cur' =
      realized_char single_state :: tried_characters single_state ∧
    realize_character zero_state (set_realize (u32 (to_gint 0)) cur')
      = Ok (b, child).
Proof.
  assert (E : ∃ r, next_node zero_state [single_state; zero_state] 0
                     natural_order = Ok r)
    by (eexists; vm_compute; reflexivity).
  destruct E as [[states' level'] E]. exists states'.
  destruct (next_node_takes_head zero_state [single_state; zero_state]
              states' 0 level' natural_order single_state 0 [])
    as (cur' & b & child & H1 & H2 & H3 & H4 & _);
    [lia|reflexivity|reflexivity|exact E|].
  exists cur', b, child. exact (conj H1 (conj H2 (conj H3 H4))).
Defined.

(** ** The report of the search *)

Lemma lookup_slot_set (states : list state_s) (level : Z) (st0 st : state_s) :
  states !! Z.to_nat level = Some st0 →
  slot_set states level st !! Z.to_nat level = Some st.
Proof.
  intros H. unfold slot_set. apply list_lookup_insert_eq.
  by apply lookup_lt_Some in H.
Qed.

Lemma solution_lines_value (states : list state_s) (level : Z)
    (st : state_s) :
  0 ≤ level → states !! Z.to_nat level = Some st →
  solution_lines states level =
  Ok (map (λ i, (i, realized_char st)) (seqZ 0 (level + 1))).
Proof.
  intros Hlevel Hst. unfold solution_lines.
  destruct (for_range_invariant
              (λ i out, out = map (λ i, (i, realized_char st)) (seqZ 0 i))
              (λ i out, st ← slot_get states level;
                        mret (out ++ [(i, realized_char st)]))
              0 (level + 1) []) as (out & Hrun & ->); [lia|done| |done].
  intros i out Hi ->. rewrite (proj2 (slot_get_Ok _ _ _) Hst).
  rewrite result_bind_Ok. eexists. split; [reflexivity|].
  rewrite seqZ_app by lia. rewrite map_app. simpl.
  by rewrite Z.add_0_l.
Qed.

Lemma next_node_level (new_state : state_s) (states states' : list state_s)
    (level level' : Z) (node_init : state_s → list Z) :
  0 ≤ level →
  next_node new_state states level node_init = Ok (states', level') →
  0 ≤ level'.
Proof.
  intros Hlevel (cur & _ & [(_ & _ & ->)|(_ & b & child & _ &
    [(_ & _ & ->)|(_ & nx & next & _ & _ & _ & ->)])])%next_node_Ok;
    try done; unfold u32; by apply Z.mod_pos_bound.
Qed.

Lemma search_loop_solution (new_state : state_s)
    (strategy : state_s → list Z) (fuel : nat) :
  ∀ (states states' : list state_s) (level : Z) (lines : list (Z * Z)),
    0 ≤ level →
    search_loop new_state fuel states level strategy =
      Ok (Some (states', SolutionFound lines)) →
    ∃ level' st,
      0 ≤ level' ∧
      states' !! Z.to_nat level' = Some st ∧ num_species st = 0 ∧
      lines = map (λ i, (i, realized_char st)) (seqZ 0 (level' + 1)).
Proof.
  induction fuel as [|fuel IH]; intros states states' level lines Hlevel H;
    [done|].
  cbn [search_loop] in H.
  destruct (Z.eqb_spec level MINUS_ONE) as [->|Hne]; [done|].
  apply bind_Ok in H as (st0 & Hst0 & H). apply slot_get_Ok in Hst0.
  apply bind_Ok in H as (st & Hclean & H).
  pose proof (lookup_slot_set states level st0 st Hst0) as Hst.
  destruct (Z.eqb_spec (num_species st) 0) as [Hzero|Hpos].
  - rewrite (solution_lines_value _ _ st Hlevel Hst) in H.
    rewrite result_bind_Ok in H. injection H as <- <-.
    by exists level, st.
  - apply bind_Ok in H as ([states1 level1] & Hnext & H). cbn [fst snd] in H.
    apply (IH states1 states' level1 lines); [|done].
    by apply (next_node_level _ _ _ _ _ _ Hlevel Hnext).
Qed.

(** X27 ([exhaustive_search]): what "Solution found" reports.  When the
    search ends with a solution, it has reached a level whose slot, once
    cleaned, has no species left, and it prints one line for each level
    from 0 to that level; every line shows the same value, the
    [realized_char] of the slot of the last level, since the print loop
    reads [states + level] and not [states + i]. *)
Theorem search_solution_report (new_state : state_s) (fuel : nat)
    (states states' : list state_s) (strategy : state_s → list Z)
    (lines : list (Z * Z)) :
  exhaustive_search new_state fuel states strategy =
    Ok (Some (states', SolutionFound lines)) →
  ∃ level st,
    0 ≤ level ∧ states' !! Z.to_nat level = Some st ∧ num_species st = 0 ∧
    lines = map (λ i, (i, realized_char st)) (seqZ 0 (level + 1)).
Proof.
  unfold exhaustive_search. intros H.
  apply bind_Ok in H as ([states1 level1] & Hnext & H). cbn [fst snd] in H.
  apply (search_loop_solution new_state strategy fuel states1 states' level1
           lines); [|done].
  by apply (next_node_level _ _ _ _ _ _ (Z.le_refl 0) Hnext).
Qed.

Lemma search_solution_report_witness :
  ∃ level st,
    0 ≤ level ∧
    [set_tried_characters [0] single_state;
     State 1 1 0 0 (Some [1]) [MINUS_ONE] [0] [0] [RED] 1 0 0 [] []
       (Igraph 2 []) (Igraph 1 [])] !! Z.to_nat level = Some st ∧
    num_species st = 0 ∧
    [(0, 0); (1, 0)] = map (λ i, (i, realized_char st)) (seqZ 0 (level + 1)).
Proof.
  apply (search_solution_report zero_state 5 [single_state; zero_state] _
           natural_order).
  vm_compute. reflexivity.
Defined.
